(** * ArduinoAssess: the adaptive estimation and question-scheduling engine

    A shallow embedding of [server/lib/adaptive-algorithm] (selectNextQuestion,
    updateBounds, determinePhase, findMostUncertainDimension,
    shouldCompleteAssessment, calculateConfidence) and of
    [server/lib/hint-analysis.ts] (analyzeHintBehavior).

    JavaScript numbers are modelled by rationals ([Q]). The engine is given
    twice: once with exact arithmetic, which is enough wherever the property
    at hand does not hinge on rounding, and once with every arithmetic
    operation rounded to the nearest double, as the program computes
    (definitions with the suffix 64). Counters that the code only ever
    initialises to 0 and increments are natural numbers.
    Objects that the code mutates through a shared reference live in an
    explicit object store ([Store]). *)

From Stdlib Require Import QArith Qminmax Qround Qpower Lqa Lia ZArith List String Bool.
From Stdlib Require Floats.
From stdpp Require Import gmap.

Local Open Scope Q_scope.

(** ** Numbers *)

Module Num.

(** [a < b] and [a <= b] on numbers, as booleans. *)
Definition ltb (a b : Q) : bool :=
  match a ?= b with Lt => true | _ => false end.
Definition leb (a b : Q) : bool :=
  match a ?= b with Gt => false | _ => true end.

(** [Math.max], [Math.min] on two arguments. *)
Definition Math_max (a b : Q) : Q := Qmax a b.
Definition Math_min (a b : Q) : Q := Qmin a b.

(** [Math.round]: the nearest integer, halves rounded up. *)
Definition Math_round (x : Q) : Q := inject_Z (Qfloor (x + (1 # 2))).

(** A counter read as a number. *)
Definition of_nat (n : nat) : Q := inject_Z (Z.of_nat n).

End Num.

Import Num.

Infix "<?" := ltb (at level 70, no associativity) : Q_scope.
Infix "<=?" := leb (at level 70, no associativity) : Q_scope.

(** ** Double-precision numbers

    The numbers of the program are IEEE 754 binary64 values. A finite double
    is a rational, and an arithmetic operation of the program yields the
    double nearest to the exact result, the one with the even significand
    when two are equally near. [binary64] is this rounding for results in the
    normal range of the format (no overflow to infinity, no subnormal
    result), which is where the bounds and counters of the engine and their
    sums, differences, products and quotients lie. Comparisons, [Math.max],
    [Math.min] and [Math.round] involve no rounding. *)

(** The integer nearest to [x], the even one of the two when [x] lies
    halfway between them. *)
Definition nearest_even (x : Q) : Z :=
  let f := Qfloor x in
  match (x - inject_Z f ?= 1 # 2)%Q with
  | Lt => f
  | Gt => (f + 1)%Z
  | Eq => if Z.even f then f else (f + 1)%Z
  end.

(** The binade of a positive number [a]: the exponent [k] with
    [2 ^ k <= a < 2 ^ (k + 1)]. With [l] the difference of the bit lengths of
    numerator and denominator, [a] lies between [2 ^ (l - 1)] and
    [2 ^ (l + 1)]. *)
Definition ilog2 (a : Q) : Z :=
  let l := (Z.log2 (Qnum a) - Z.log2 (Zpos (Qden a)))%Z in
  if (2 ^ l <=? a)%Q then l else (l - 1)%Z.

(** The double nearest to a positive number: a significand of 53 bits times
    a power of two. *)
Definition round_pos (a : Q) : Q :=
  let e := (ilog2 a - 52)%Z in
  inject_Z (nearest_even (a / 2 ^ e)) * 2 ^ e.

Definition binary64 (x : Q) : Q :=
  match x ?= 0 with
  | Eq => 0
  | Gt => round_pos x
  | Lt => - round_pos (- x)
  end.

(** The arithmetic operators [+], [-], [*], [/] on doubles. A decimal literal
    [c] of the source denotes the double [binary64 c]; the literals 0.5, 1.5
    and the integers are doubles already. *)
Definition add64 (a b : Q) : Q := binary64 (a + b).
Definition sub64 (a b : Q) : Q := binary64 (a - b).
Definition mul64 (a b : Q) : Q := binary64 (a * b).
Definition div64 (a b : Q) : Q := binary64 (a / b).

(** The binary64 floats of the proof assistant's kernel, for comparison with
    [binary64]: the value of a float as a rational, and operations of the
    kinds that the engine performs, evaluated on kernel floats. *)
Module KernelFloat.
Import PrimFloat.

Definition value (x : float) : option Q :=
  match FloatOps.Prim2SF x with
  | SpecFloat.S754_zero _ => Some 0
  | SpecFloat.S754_finite s m e =>
      Some (Qred ((if s then -1 else 1) * inject_Z (Zpos m) * 2 ^ e))
  | _ => None
  end.

Definition samples : list float :=
  let c03 := (3 / 10)%float in
  let c08 := (8 / 10)%float in
  [c03; (6 / 10)%float; (7 / 10)%float; (4 / 10)%float; c08;
   (3 - c03)%float; (2 - c03)%float; (5 - c03)%float;
   (1 / 3)%float; (2 / 3)%float; (1 / (4 + 1))%float;
   (9 / 2 - (3 - c03))%float; (7 / 2 - (2 - c03))%float;
   (5 - (5 - c03))%float;
   (9 / 2 - (3 - c03) + 1 / (3 + 1))%float;
   (7 / 2 - (2 - c03) + 1 / (3 + 1))%float;
   (7 / 2 - (3 - c03) + 1 / (2 + 1))%float;
   (5 / 2 - (2 - c03) + 1 / (2 + 1))%float;
   ((5 - 1 / 2) * c08)%float;
   (3 - c03 + c03)%float;
   ((3 - c03 + 9 / 2) / 2)%float;
   (- (1 / 3))%float]%list.

(** Operands for a comparison of the four operators, pair by pair. *)
Definition operands : list float :=
  [0; 1; 2; 3; 4; 5; 3 / 10; 4 / 10; 6 / 10; 7 / 10; 8 / 10; 1 / 2; 3 / 2;
   1 / 3; 2 / 3; 1 / 5; 1 / 7; 3 - 3 / 10; 2 - 3 / 10; 5 - 3 / 10;
   (9 / 2) * (8 / 10); (5 / 2) * (8 / 10); 3 - 3 / 10 + 3 / 10;
   9 / 2 - (3 - 3 / 10); 1 / 1048576; 123456789 / 1000; 1 / 3 + 1 / 7;
   7 / 10 - 6 / 10; - (1 / 3); - (3 / 10); 9007199254740992 / 3;
   1 / 9007199254740991]%float%list.

(** On all pairs of operands, the float operator [f] yields the rounded
    result of the exact operator [g] whenever it yields a finite number. *)
Definition agrees (f : float -> float -> float) (g : Q -> Q -> Q) : bool :=
  forallb
    (fun a =>
       forallb
         (fun b =>
            match value a, value b, value (f a b) with
            | Some x, Some y, Some z => Qeq_bool z (binary64 (g x y))
            | _, _, _ => true
            end)
         operands)
    operands.

End KernelFloat.

(** The same operations with [binary64]. *)
Definition samples64 : list Q :=
  let c03 := binary64 0.3 in
  let c08 := binary64 0.8 in
  [c03; binary64 0.6; binary64 0.7; binary64 0.4; c08;
   sub64 3 c03; sub64 2 c03; sub64 5 c03;
   div64 1 3; div64 2 3; div64 1 (add64 4 1);
   sub64 4.5 (sub64 3 c03); sub64 3.5 (sub64 2 c03);
   sub64 5 (sub64 5 c03);
   add64 (sub64 4.5 (sub64 3 c03)) (div64 1 (add64 3 1));
   add64 (sub64 3.5 (sub64 2 c03)) (div64 1 (add64 3 1));
   add64 (sub64 3.5 (sub64 3 c03)) (div64 1 (add64 2 1));
   add64 (sub64 2.5 (sub64 2 c03)) (div64 1 (add64 2 1));
   mul64 (sub64 5 0.5) c08;
   add64 (sub64 3 c03) c03;
   div64 (add64 (sub64 3 c03) 4.5) 2;
   binary64 (- (1 # 3))].

(** ** Data model ([frontend/src/types]) *)

Inductive Dimension :=
| lowLevelBinary | controlFlow | hardwareIO | codeReading | decomposition.

Inductive AssessmentPhase := exploration | refinement | completion.

Inductive Source := bank | ai.

Record DimensionState := mkDimensionState {
  lowerBound : Q;
  upperBound : Q;
  tested : bool;
  questionCount : nat;
  correctCount : nat
}.

(** A [Record<Dimension, A>]: one property per dimension. *)
Record PerDimension (A : Type) := mkPerDimension {
  at_lowLevelBinary : A;
  at_controlFlow : A;
  at_hardwareIO : A;
  at_codeReading : A;
  at_decomposition : A
}.
Arguments mkPerDimension {A}.
Arguments at_lowLevelBinary {A}.
Arguments at_controlFlow {A}.
Arguments at_hardwareIO {A}.
Arguments at_codeReading {A}.
Arguments at_decomposition {A}.

(** [rec[dim]] *)
Definition get {A} (rec : PerDimension A) (dim : Dimension) : A :=
  match dim with
  | lowLevelBinary => at_lowLevelBinary rec
  | controlFlow => at_controlFlow rec
  | hardwareIO => at_hardwareIO rec
  | codeReading => at_codeReading rec
  | decomposition => at_decomposition rec
  end.

(** [rec[dim] = v] *)
Definition set {A} (rec : PerDimension A) (dim : Dimension) (v : A)
  : PerDimension A :=
  match dim with
  | lowLevelBinary =>
      mkPerDimension v (at_controlFlow rec) (at_hardwareIO rec)
        (at_codeReading rec) (at_decomposition rec)
  | controlFlow =>
      mkPerDimension (at_lowLevelBinary rec) v (at_hardwareIO rec)
        (at_codeReading rec) (at_decomposition rec)
  | hardwareIO =>
      mkPerDimension (at_lowLevelBinary rec) (at_controlFlow rec) v
        (at_codeReading rec) (at_decomposition rec)
  | codeReading =>
      mkPerDimension (at_lowLevelBinary rec) (at_controlFlow rec)
        (at_hardwareIO rec) v (at_decomposition rec)
  | decomposition =>
      mkPerDimension (at_lowLevelBinary rec) (at_controlFlow rec)
        (at_hardwareIO rec) (at_codeReading rec) v
  end.

(** The profile object. Its [dimensions] property is of type [D]: the five
    DimensionStates themselves when a profile is read as a value, a reference
    into the object store when aliasing matters. *)
Record StudentProfileOf (D : Type) := mkStudentProfile {
  sessionId : string;
  studentName : option string;
  currentPhase : AssessmentPhase;
  questionsAnswered : nat;
  startTime : Q;
  dimensions : D;
  totalTimeMs : Q;
  hintsUsed : nat;
  partialCredits : nat
}.
Arguments mkStudentProfile {D}.
Arguments sessionId {D}.
Arguments studentName {D}.
Arguments currentPhase {D}.
Arguments questionsAnswered {D}.
Arguments startTime {D}.
Arguments dimensions {D}.
Arguments totalTimeMs {D}.
Arguments hintsUsed {D}.
Arguments partialCredits {D}.

Definition StudentProfile := StudentProfileOf (PerDimension DimensionState).

(** The fields of [QuestionResponse] that the engine reads. *)
Record QuestionResponse := mkQuestionResponse {
  dimension : Dimension;
  difficulty : Q;
  correct : bool;
  partial : bool;
  timeSpentMs : Q;
  r_hintsUsed : nat
}.

(** ** Constants *)

Definition DIMENSIONS : list Dimension :=
  [lowLevelBinary; controlFlow; hardwareIO; codeReading; decomposition].

Definition CONVERGENCE_THRESHOLD : Q := 0.5.
Definition MIN_QUESTIONS_PER_DIMENSION : nat := 3.
Definition EXPLORATION_QUESTIONS_MIN : nat := 5.

(** ** updateBounds *)

(** Property assignments on a DimensionState object. *)
Definition set_lowerBound (v : Q) (s : DimensionState) : DimensionState :=
  mkDimensionState v (upperBound s) (tested s) (questionCount s) (correctCount s).
Definition set_upperBound (v : Q) (s : DimensionState) : DimensionState :=
  mkDimensionState (lowerBound s) v (tested s) (questionCount s) (correctCount s).
Definition set_tested (v : bool) (s : DimensionState) : DimensionState :=
  mkDimensionState (lowerBound s) (upperBound s) v (questionCount s) (correctCount s).
Definition set_questionCount (v : nat) (s : DimensionState) : DimensionState :=
  mkDimensionState (lowerBound s) (upperBound s) (tested s) v (correctCount s).
Definition set_correctCount (v : nat) (s : DimensionState) : DimensionState :=
  mkDimensionState (lowerBound s) (upperBound s) (tested s) (questionCount s) v.

(** [correctCount / questionCount], or 0.5 when no question was asked. *)
Definition accuracy (s : DimensionState) : Q :=
  if (0 <? questionCount s)%nat
  then of_nat (correctCount s) / of_nat (questionCount s)
  else 0.5.

(** The body of [updateBounds] is read in two parts, both acting on the object
    [dimState = profile.dimensions[response.dimension]]; each [let dimState]
    is one assignment to a property of that object.

    Lines 103-168: the accuracy before the answer, the counters, and the rule
    of the verdict. *)
Definition applyVerdict (dimState0 : DimensionState)
    (response : QuestionResponse) : DimensionState :=
  let currentAccuracy := accuracy dimState0 in
  let dimState := set_tested true dimState0 in
  let dimState := set_questionCount (questionCount dimState + 1) dimState in
  if correct response then
    let dimState := set_correctCount (correctCount dimState + 1) dimState in
    let newLowerBound :=
      Math_max (lowerBound dimState) (difficulty response - 0.3) in
    let dimState :=
      set_lowerBound (Math_max 1 (Math_min 5 newLowerBound)) dimState in
    if 0.6 <? currentAccuracy then
      let newUpperBound := Math_min 5 (difficulty response + 1.5) in
      set_upperBound (Math_max (upperBound dimState) newUpperBound) dimState
    else dimState
  else if partial response then
    let partialLevel := difficulty response - 0.5 in
    let dimState :=
      set_lowerBound
        (Math_max (lowerBound dimState) (Math_max 1 (partialLevel * 0.8)))
        dimState in
    set_upperBound
      (Math_min (upperBound dimState) (Math_min 5 (difficulty response + 0.5)))
      dimState
  else
    if (0.7 <? currentAccuracy) && (3 <=? questionCount dimState)%nat then
      let newUpper :=
        Math_max (lowerBound dimState + 0.3) (difficulty response - 0.5) in
      set_upperBound (Math_min (upperBound dimState) newUpper) dimState
    else
      let newUpper :=
        Math_max (lowerBound dimState) (difficulty response - 0.5) in
      let dimState :=
        set_upperBound (Math_min (upperBound dimState) newUpper) dimState in
      if currentAccuracy <? 0.4 then
        let newLowerBound := Math_max 1 (difficulty response - 1.5) in
        set_lowerBound (Math_min (lowerBound dimState) newLowerBound) dimState
      else dimState.

(** Lines 170-185: both bounds are clamped to the scale, and an inverted pair
    is resolved towards the bound that the verdict supports. *)
Definition restoreBounds (dimState : DimensionState)
    (response : QuestionResponse) : DimensionState :=
  let dimState :=
    set_lowerBound (Math_max 1 (Math_min 5 (lowerBound dimState))) dimState in
  let dimState :=
    set_upperBound (Math_max 1 (Math_min 5 (upperBound dimState))) dimState in
  if upperBound dimState <? lowerBound dimState then
    let avg := (lowerBound dimState + upperBound dimState) / 2 in
    if correct response then
      set_upperBound (Math_max (lowerBound dimState) avg) dimState
    else
      set_lowerBound (Math_min (upperBound dimState) avg) dimState
  else dimState.

Definition updateDimState (dimState : DimensionState)
    (response : QuestionResponse) : DimensionState :=
  restoreBounds (applyVerdict dimState response) response.

(** [{ ...profile }] with another [dimensions] property. *)
Definition with_dimensions {D E} (p : StudentProfileOf D) (d : E)
  : StudentProfileOf E :=
  mkStudentProfile (sessionId p) (studentName p) (currentPhase p)
    (questionsAnswered p) (startTime p) d (totalTimeMs p) (hintsUsed p)
    (partialCredits p).

(** The profile that [updateBounds] returns, read as a value: the targeted
    DimensionState has gone through the body, every other property is the
    argument's. *)
Definition updateBounds (profile : StudentProfile)
    (response : QuestionResponse) : StudentProfile :=
  let dimState := get (dimensions profile) (dimension response) in
  with_dimensions profile
    (set (dimensions profile) (dimension response)
       (updateDimState dimState response)).

(** ** createStudentProfile *)

Definition initialDimState : DimensionState :=
  mkDimensionState 1 5 false 0 0.

Definition createStudentProfile (sessionId : string)
    (studentName : option string) (now : Q) : StudentProfile :=
  mkStudentProfile sessionId studentName exploration 0%nat now
    (mkPerDimension initialDimState initialDimState initialDimState
       initialDimState initialDimState)
    0 0%nat 0%nat.

(** ** determinePhase *)

Definition determinePhase (profile : StudentProfile) : AssessmentPhase :=
  if (questionsAnswered profile <? EXPLORATION_QUESTIONS_MIN)%nat then
    exploration
  else
    let allDimensionsTested :=
      forallb (fun dim => tested (get (dimensions profile) dim)) DIMENSIONS in
    if negb allDimensionsTested then exploration
    else
      let allConverged :=
        forallb
          (fun dim =>
             let state := get (dimensions profile) dim in
             let range := upperBound state - lowerBound state in
             (range <=? CONVERGENCE_THRESHOLD)
             && (MIN_QUESTIONS_PER_DIMENSION <=? questionCount state)%nat)
          DIMENSIONS in
      if allConverged then completion else refinement.

(** ** findMostUncertainDimension

    Here with exact arithmetic: the sign of an adjusted uncertainty, and
    with it whether the search finds a dimension at all, is the same as in
    the program. Which dimension is the largest can hinge on the rounding of
    the sums; for that see [adjustedUncertainty64] and
    [findMostUncertainDimension64] below. *)

Definition adjustedUncertainty (state : DimensionState) : Q :=
  let uncertainty := upperBound state - lowerBound state in
  uncertainty + 1 / (of_nat (questionCount state) + 1).

(** One iteration of the [for (const dim of DIMENSIONS)] loop on the pair
    [(maxUncertainty, mostUncertainDim)]. *)
Definition uncertain_step (profile : StudentProfile)
    (acc : Q * option Dimension) (dim : Dimension) : Q * option Dimension :=
  let '(maxUncertainty, mostUncertainDim) := acc in
  let state := get (dimensions profile) dim in
  if maxUncertainty <? adjustedUncertainty state
  then (adjustedUncertainty state, Some dim)
  else (maxUncertainty, mostUncertainDim).

Definition findMostUncertainDimension (profile : StudentProfile)
  : option Dimension :=
  snd (fold_left (uncertain_step profile) DIMENSIONS (0, None)).

(** ** getQuestionTypeForDimension, clampDifficulty *)

Definition typeMap (dimension : Dimension) : list string :=
  match dimension with
  | lowLevelBinary => ["oneLiner"; "multipleChoice"; "trace"]
  | controlFlow => ["trace"; "codeIDE"; "multipleChoice"]
  | hardwareIO => ["codeIDE"; "multipleChoice"; "trace"]
  | codeReading => ["trace"; "multipleChoice"]
  | decomposition => ["codeIDE"; "multipleChoice"]
  end%string.

Definition includes (l : list string) (x : string) : bool :=
  existsb (String.eqb x) l.

Definition getQuestionTypeForDimension (dimension : Dimension)
    (phase : AssessmentPhase) : string :=
  let types := typeMap dimension in
  match phase with
  | exploration =>
      if includes types "multipleChoice" then "multipleChoice"
      else hd "undefined" types
  | _ => hd "undefined" types
  end%string.

Definition clampDifficulty (value : Q) : Q :=
  Math_max 1 (Math_min 5 (Math_round value)).

(** ** selectNextQuestion *)

Record Selection := mkSelection {
  sel_dimension : Dimension;
  targetDifficulty : Q;
  source : Source;
  questionType : string
}.

(** [arr[i]] for a number [i]: [None] stands for [undefined]. *)
Definition index {A} (arr : list A) (i : Z) : option A :=
  if (i <? 0)%Z then None else nth_error arr (Z.to_nat i).

(** [random] is the value that [Math.random()] yields in the fallback. The
    result is [None] where the code throws (reading a property of
    [undefined]). The arguments [questionBank] and [aiGenerationCallback]
    are never read by the function and are left out. *)
Definition selectNextQuestion (random : Q) (profile : StudentProfile)
  : option Selection :=
  let untestedDimensions :=
    List.filter (fun dim => negb (tested (get (dimensions profile) dim)))
      DIMENSIONS in
  match untestedDimensions with
  | targetDim :: _ =>
      Some (mkSelection targetDim 3 bank
              (getQuestionTypeForDimension targetDim exploration))
  | [] =>
      match findMostUncertainDimension profile with
      | Some mostUncertain =>
          let dimState := get (dimensions profile) mostUncertain in
          let targetDifficulty :=
            Math_round ((lowerBound dimState + upperBound dimState) / 2) in
          let range := upperBound dimState - lowerBound dimState in
          let useAI := (range <=? 2) || (3 <=? questionCount dimState)%nat in
          Some (mkSelection mostUncertain (clampDifficulty targetDifficulty)
                  (if useAI then ai else bank)
                  (getQuestionTypeForDimension mostUncertain refinement))
      | None =>
          match
            index DIMENSIONS
              (Qfloor (random * of_nat (List.length DIMENSIONS)))
          with
          | Some randomDim =>
              let dimState := get (dimensions profile) randomDim in
              Some (mkSelection randomDim (clampDifficulty (lowerBound dimState))
                      bank (getQuestionTypeForDimension randomDim completion))
          | None => None
          end
      end
  end.

(** ** shouldCompleteAssessment *)

Definition is_completion (phase : AssessmentPhase) : bool :=
  match phase with completion => true | _ => false end.

Definition shouldCompleteAssessment (profile : StudentProfile) : bool :=
  if (25 <=? questionsAnswered profile)%nat then true
  else if is_completion (currentPhase profile) then true
  else
    let allConverged :=
      forallb
        (fun dim =>
           let state := get (dimensions profile) dim in
           let range := upperBound state - lowerBound state in
           range <=? CONVERGENCE_THRESHOLD)
        DIMENSIONS in
    let minQuestionsReached :=
      (EXPLORATION_QUESTIONS_MIN
         + List.length DIMENSIONS * MIN_QUESTIONS_PER_DIMENSION
       <=? questionsAnswered profile)%nat in
    allConverged && minQuestionsReached.

(** ** calculateConfidence, getEstimatedLevel *)

Definition calculateConfidence (dimState : DimensionState) : Q :=
  let range := upperBound dimState - lowerBound dimState in
  let rangeConfidence := 1 - range / 4 in
  let questionConfidence :=
    Math_min (of_nat (questionCount dimState) / 6) 1 in
  let accuracyConfidence := accuracy dimState in
  rangeConfidence * 0.5 + questionConfidence * 0.3 + accuracyConfidence * 0.2.

Definition getEstimatedLevel (dimState : DimensionState) : Q :=
  let weight := if 0.6 <? accuracy dimState then 0.6 else 0.4 in
  let estimated :=
    lowerBound dimState * weight + upperBound dimState * (1 - weight) in
  clampDifficulty estimated.

(** ** The engine in double precision

    [updateBounds], [findMostUncertainDimension] and [selectNextQuestion]
    once more, with every [+], [-], [*] and [/] of the source rounded to a
    double and every decimal literal read as the double it denotes. The
    bounds of a DimensionState are then the doubles that the program holds.
    Which dimension has the largest adjusted uncertainty, and whether two of
    them tie, depends on this rounding. *)

Definition accuracy64 (s : DimensionState) : Q :=
  if (0 <? questionCount s)%nat
  then div64 (of_nat (correctCount s)) (of_nat (questionCount s))
  else 0.5.

(** Lines 103-168. *)
Definition applyVerdict64 (dimState0 : DimensionState)
    (response : QuestionResponse) : DimensionState :=
  let currentAccuracy := accuracy64 dimState0 in
  let dimState := set_tested true dimState0 in
  let dimState := set_questionCount (questionCount dimState + 1) dimState in
  if correct response then
    let dimState := set_correctCount (correctCount dimState + 1) dimState in
    let newLowerBound :=
      Math_max (lowerBound dimState)
        (sub64 (difficulty response) (binary64 0.3)) in
    let dimState :=
      set_lowerBound (Math_max 1 (Math_min 5 newLowerBound)) dimState in
    if binary64 0.6 <? currentAccuracy then
      let newUpperBound := Math_min 5 (add64 (difficulty response) 1.5) in
      set_upperBound (Math_max (upperBound dimState) newUpperBound) dimState
    else dimState
  else if partial response then
    let partialLevel := sub64 (difficulty response) 0.5 in
    let dimState :=
      set_lowerBound
        (Math_max (lowerBound dimState)
           (Math_max 1 (mul64 partialLevel (binary64 0.8))))
        dimState in
    set_upperBound
      (Math_min (upperBound dimState)
         (Math_min 5 (add64 (difficulty response) 0.5)))
      dimState
  else
    if (binary64 0.7 <? currentAccuracy) && (3 <=? questionCount dimState)%nat
    then
      let newUpper :=
        Math_max (add64 (lowerBound dimState) (binary64 0.3))
          (sub64 (difficulty response) 0.5) in
      set_upperBound (Math_min (upperBound dimState) newUpper) dimState
    else
      let newUpper :=
        Math_max (lowerBound dimState) (sub64 (difficulty response) 0.5) in
      let dimState :=
        set_upperBound (Math_min (upperBound dimState) newUpper) dimState in
      if currentAccuracy <? binary64 0.4 then
        let newLowerBound := Math_max 1 (sub64 (difficulty response) 1.5) in
        set_lowerBound (Math_min (lowerBound dimState) newLowerBound) dimState
      else dimState.

(** Lines 170-185. *)
Definition restoreBounds64 (dimState : DimensionState)
    (response : QuestionResponse) : DimensionState :=
  let dimState :=
    set_lowerBound (Math_max 1 (Math_min 5 (lowerBound dimState))) dimState in
  let dimState :=
    set_upperBound (Math_max 1 (Math_min 5 (upperBound dimState))) dimState in
  if upperBound dimState <? lowerBound dimState then
    let avg := div64 (add64 (lowerBound dimState) (upperBound dimState)) 2 in
    if correct response then
      set_upperBound (Math_max (lowerBound dimState) avg) dimState
    else
      set_lowerBound (Math_min (upperBound dimState) avg) dimState
  else dimState.

Definition updateDimState64 (dimState : DimensionState)
    (response : QuestionResponse) : DimensionState :=
  restoreBounds64 (applyVerdict64 dimState response) response.

Definition updateBounds64 (profile : StudentProfile)
    (response : QuestionResponse) : StudentProfile :=
  let dimState := get (dimensions profile) (dimension response) in
  with_dimensions profile
    (set (dimensions profile) (dimension response)
       (updateDimState64 dimState response)).

Definition adjustedUncertainty64 (state : DimensionState) : Q :=
  let uncertainty := sub64 (upperBound state) (lowerBound state) in
  add64 uncertainty (div64 1 (add64 (of_nat (questionCount state)) 1)).

Definition uncertain_step64 (profile : StudentProfile)
    (acc : Q * option Dimension) (dim : Dimension) : Q * option Dimension :=
  let '(maxUncertainty, mostUncertainDim) := acc in
  let state := get (dimensions profile) dim in
  if maxUncertainty <? adjustedUncertainty64 state
  then (adjustedUncertainty64 state, Some dim)
  else (maxUncertainty, mostUncertainDim).

Definition findMostUncertainDimension64 (profile : StudentProfile)
  : option Dimension :=
  snd (fold_left (uncertain_step64 profile) DIMENSIONS (0, None)).

Definition selectNextQuestion64 (random : Q) (profile : StudentProfile)
  : option Selection :=
  let untestedDimensions :=
    List.filter (fun dim => negb (tested (get (dimensions profile) dim)))
      DIMENSIONS in
  match untestedDimensions with
  | targetDim :: _ =>
      Some (mkSelection targetDim 3 bank
              (getQuestionTypeForDimension targetDim exploration))
  | [] =>
      match findMostUncertainDimension64 profile with
      | Some mostUncertain =>
          let dimState := get (dimensions profile) mostUncertain in
          let targetDifficulty :=
            Math_round
              (div64 (add64 (lowerBound dimState) (upperBound dimState)) 2) in
          let range := sub64 (upperBound dimState) (lowerBound dimState) in
          let useAI := (range <=? 2) || (3 <=? questionCount dimState)%nat in
          Some (mkSelection mostUncertain (clampDifficulty targetDifficulty)
                  (if useAI then ai else bank)
                  (getQuestionTypeForDimension mostUncertain refinement))
      | None =>
          match
            index DIMENSIONS
              (Qfloor (mul64 random (of_nat (List.length DIMENSIONS))))
          with
          | Some randomDim =>
              let dimState := get (dimensions profile) randomDim in
              Some (mkSelection randomDim (clampDifficulty (lowerBound dimState))
                      bank (getQuestionTypeForDimension randomDim completion))
          | None => None
          end
      end
  end.

(** ** One answered question in the submit route

    [routes/assessment.ts], lines 305-338: the bounds are updated, the
    session counters of the returned profile are incremented, the phase is
    recomputed and stored, and the completion gate is consulted. *)
Definition submitAnswer (profile : StudentProfile)
    (response : QuestionResponse) : StudentProfile * bool :=
  let updatedProfile := updateBounds profile response in
  let updatedProfile :=
    mkStudentProfile (sessionId updatedProfile) (studentName updatedProfile)
      (currentPhase updatedProfile)
      (questionsAnswered updatedProfile + 1)
      (startTime updatedProfile) (dimensions updatedProfile)
      (totalTimeMs updatedProfile + timeSpentMs response)
      (hintsUsed updatedProfile + r_hintsUsed response)
      (if partial response then partialCredits updatedProfile + 1
       else partialCredits updatedProfile)%nat in
  let newPhase := determinePhase updatedProfile in
  let updatedProfile :=
    mkStudentProfile (sessionId updatedProfile) (studentName updatedProfile)
      newPhase (questionsAnswered updatedProfile)
      (startTime updatedProfile) (dimensions updatedProfile)
      (totalTimeMs updatedProfile) (hintsUsed updatedProfile)
      (partialCredits updatedProfile) in
  (updatedProfile, shouldCompleteAssessment updatedProfile).

(** The session loop: questions are answered one after the other until the
    gate says stop. Returns the final profile and whether the gate fired. *)
Fixpoint runSession (profile : StudentProfile)
    (outcomes : list QuestionResponse) : StudentProfile * bool :=
  match outcomes with
  | [] => (profile, false)
  | response :: rest =>
      let '(updatedProfile, shouldComplete) := submitAnswer profile response in
      if shouldComplete then (updatedProfile, true)
      else runSession updatedProfile rest
  end.

(** ** The object store

    [updateBounds] assigns to the properties of the DimensionState object it
    reads out of its argument, and returns a shallow copy of the profile
    object. Three kinds of objects are involved: profile objects, the
    [dimensions] record they point to, and the DimensionState objects the
    record points to. *)

Definition ref := positive.

Record Store := mkStore {
  profiles : gmap ref (StudentProfileOf ref);
  records : gmap ref (PerDimension ref);
  states : gmap ref DimensionState
}.

Definition emptyStore : Store := mkStore ∅ ∅ ∅.

(** Allocation of a new object of each kind. *)
Definition newState (st : Store) (s : DimensionState) : Store * ref :=
  let l := fresh (dom (states st)) in
  (mkStore (profiles st) (records st) (<[l := s]> (states st)), l).

Definition newRecord (st : Store) (rec : PerDimension ref) : Store * ref :=
  let l := fresh (dom (records st)) in
  (mkStore (profiles st) (<[l := rec]> (records st)) (states st), l).

Definition newProfile (st : Store) (p : StudentProfileOf ref) : Store * ref :=
  let l := fresh (dom (profiles st)) in
  (mkStore (<[l := p]> (profiles st)) (records st) (states st), l).

(** [createStudentProfile] in the store: five separate copies
    [{ ...initialDimState }], one record, one profile object. *)
Definition createStudentProfile_store (st : Store) (sessionId : string)
    (studentName : option string) (now : Q) : Store * ref :=
  let '(st, l1) := newState st initialDimState in
  let '(st, l2) := newState st initialDimState in
  let '(st, l3) := newState st initialDimState in
  let '(st, l4) := newState st initialDimState in
  let '(st, l5) := newState st initialDimState in
  let '(st, rec) := newRecord st (mkPerDimension l1 l2 l3 l4 l5) in
  newProfile st
    (mkStudentProfile sessionId studentName exploration 0%nat now rec
       0 0%nat 0%nat).

(** The profile reachable from a reference, read as a value. *)
Definition snapshot (st : Store) (profile : ref) : option StudentProfile :=
  p ← profiles st !! profile;
  rec ← records st !! dimensions p;
  s1 ← states st !! at_lowLevelBinary rec;
  s2 ← states st !! at_controlFlow rec;
  s3 ← states st !! at_hardwareIO rec;
  s4 ← states st !! at_codeReading rec;
  s5 ← states st !! at_decomposition rec;
  Some (with_dimensions p (mkPerDimension s1 s2 s3 s4 s5)).

(** [updateBounds] on references. The assignments of the body all go to the
    one object [dimState]; [{ ...profile }] is a new profile object with the
    properties of the argument, its [dimensions] reference included.
    [None] where the code throws on a dangling reference. *)
Definition updateBounds_store (st : Store) (profile : ref)
    (response : QuestionResponse) : option (Store * ref) :=
  p ← profiles st !! profile;
  rec ← records st !! dimensions p;
  let l := get rec (dimension response) in
  dimState ← states st !! l;
  let st :=
    mkStore (profiles st) (records st)
      (<[l := updateDimState dimState response]> (states st)) in
  Some (newProfile st p).

(** The five DimensionStates of a profile are five different objects. *)
Definition separate_states (st : Store) (profile : ref) : Prop :=
  ∀ p rec,
    profiles st !! profile = Some p →
    records st !! dimensions p = Some rec →
    NoDup (map (get rec) DIMENSIONS).

(** ** Hint behaviour analysis ([server/lib/hint-analysis.ts]) *)

Module HintAnalysis.

Inductive HintType :=
| conceptual | syntactical | structural | example | elimination.

Inductive SubsequentAction :=
| answered_correctly | answered_wrong | asked_another_hint | still_working.

Inductive HelpSeekingStyle := quick_to_ask | reluctant | balanced.

Inductive LearningMode :=
| pattern_matching | theory_first | needs_scaffolding | syntax_focused.

(** The fields of [HintEvent] that the analysis reads. *)
Record HintEvent := mkHintEvent {
  hintType : HintType;
  timeIntoQuestionMs : Q;
  subsequentAction : option SubsequentAction
}.

Record HintProfile := mkHintProfile {
  helpSeekingStyle : HelpSeekingStyle;
  mostEffectiveHintType : string;
  preferredLearningMode : LearningMode;
  hintEffectiveness : Q;
  totalHintsUsed : nat;
  avgTimeToAskHint : Q;
  hintTypeDistribution : list (HintType * nat)
}.

Definition hintTypeName (t : HintType) : string :=
  match t with
  | conceptual => "conceptual"
  | syntactical => "syntactical"
  | structural => "structural"
  | example => "example"
  | elimination => "elimination"
  end.

Definition HintType_eqb (a b : HintType) : bool :=
  match a, b with
  | conceptual, conceptual | syntactical, syntactical
  | structural, structural | example, example
  | elimination, elimination => true
  | _, _ => false
  end.

Definition is_answered_correctly (a : option SubsequentAction) : bool :=
  match a with Some answered_correctly => true | _ => false end.

(** A [Record<string, V>] keyed by hint type: the entries in the order in
    which the keys were first assigned, which is the order of
    [Object.entries]. [upsert] is [obj[k] = f(obj[k])], with [None] for a
    missing key. *)
Fixpoint upsert {V} (k : HintType) (f : option V -> V)
    (obj : list (HintType * V)) : list (HintType * V) :=
  match obj with
  | [] => [(k, f None)]
  | (k', v) :: rest =>
      if HintType_eqb k k' then (k', f (Some v)) :: rest
      else (k', v) :: upsert k f rest
  end.

(** [Array.prototype.sort] with the comparator [(a, b) => b[1] - a[1]]:
    a stable sort by decreasing count. *)
Fixpoint insert_sorted (x : HintType * nat)
    (l : list (HintType * nat)) : list (HintType * nat) :=
  match l with
  | [] => [x]
  | y :: rest =>
      if (snd y <=? snd x)%nat then x :: y :: rest
      else y :: insert_sorted x rest
  end.

Definition sort_by_count_desc (l : list (HintType * nat))
  : list (HintType * nat) :=
  fold_right insert_sorted [] l.

Definition analyzeHintBehavior (events : list HintEvent) : HintProfile :=
  match events with
  | [] => mkHintProfile balanced "none" theory_first 0 0 0 []
  | _ =>
      let avgTimeToAskMs :=
        fold_left (fun sum e => sum + timeIntoQuestionMs e) events 0
        / of_nat (List.length events) in
      let avgTimeToAskSec := avgTimeToAskMs / 1000 in
      let helpSeekingStyle :=
        if avgTimeToAskSec <? 30 then quick_to_ask
        else if 120 <? avgTimeToAskSec then reluctant
        else balanced in
      let hintTypeSuccess : list (HintType * (nat * nat)) :=
        fold_left
          (fun success event =>
             upsert (hintType event)
               (fun old =>
                  let '(correct, total) :=
                    match old with Some s => s | None => (0, 0)%nat end in
                  (if is_answered_correctly (subsequentAction event)
                   then correct + 1 else correct,
                   total + 1)%nat)
               success)
          events [] in
      let '(mostEffectiveType, _) :=
        fold_left
          (fun (best : string * Q) (entry : HintType * (nat * nat)) =>
             let '(mostEffectiveType, highestSuccessRate) := best in
             let '(type, (correct, total)) := entry in
             let successRate :=
               if (0 <? total)%nat then of_nat correct / of_nat total
               else 0 in
             if highestSuccessRate <? successRate
             then (hintTypeName type, successRate)
             else (mostEffectiveType, highestSuccessRate))
          hintTypeSuccess ("none"%string, 0) in
      let hintTypeDistribution : list (HintType * nat) :=
        fold_left
          (fun dist event =>
             upsert (hintType event)
               (fun old =>
                  (match old with Some n => n | None => 0 end + 1)%nat)
               dist)
          events [] in
      let mostUsedType :=
        match sort_by_count_desc hintTypeDistribution with
        | (type, _) :: _ => type
        | [] => conceptual
        end in
      let preferredLearningMode :=
        match mostUsedType with
        | example => pattern_matching
        | conceptual => theory_first
        | structural => needs_scaffolding
        | _ => syntax_focused
        end in
      let answeredAfterHint :=
        List.length
          (List.filter
             (fun e => is_answered_correctly (subsequentAction e)) events) in
      let hintEffectiveness :=
        if (0 <? List.length events)%nat
        then of_nat answeredAfterHint / of_nat (List.length events)
        else 0 in
      mkHintProfile helpSeekingStyle mostEffectiveType preferredLearningMode
        hintEffectiveness (List.length events) avgTimeToAskSec
        hintTypeDistribution
  end.

End HintAnalysis.

(** ** The assessment route ([server/routes/assessment.ts]) *)

Module Route.
Import HintAnalysis.

(** [mapDimensionToDb] and [mapDbToDimension]: lookups in two object
    literals, the second with the default [|| "lowLevelBinary"].
    [mapDbToDimension] is given on the names that are own properties of the
    literal or no property at all; the names that the literal inherits from
    [Object.prototype] are handled by [dimensionKey] below. *)
Definition mapDimensionToDb (dimension : Dimension) : string :=
  match dimension with
  | lowLevelBinary => "low_level"
  | controlFlow => "control_flow"
  | hardwareIO => "hardware_io"
  | codeReading => "code_reading"
  | decomposition => "decomposition"
  end.

Definition mapDbToDimension (dbDimension : string) : Dimension :=
  if String.eqb dbDimension "low_level" then lowLevelBinary
  else if String.eqb dbDimension "control_flow" then controlFlow
  else if String.eqb dbDimension "hardware_io" then hardwareIO
  else if String.eqb dbDimension "code_reading" then codeReading
  else if String.eqb dbDimension "decomposition" then decomposition
  else lowLevelBinary.

(** The names that every object inherits from [Object.prototype]. For these
    [map[dbDimension]] is the inherited member, which is truthy, so the
    default [|| "lowLevelBinary"] of [mapDbToDimension] does not apply. *)
Definition inheritedNames : list string :=
  ["constructor"; "hasOwnProperty"; "isPrototypeOf"; "propertyIsEnumerable";
   "toLocaleString"; "toString"; "valueOf"; "__proto__";
   "__defineGetter__"; "__defineSetter__"; "__lookupGetter__";
   "__lookupSetter__"]%string.

(** The property that [profile.dimensions[mapDbToDimension(name)] = ...]
    assigns. For an inherited name the key is the inherited member converted
    to a string, which is the name of no dimension: [None] stands for that
    extra property. For every other name [mapDbToDimension] gives the key. *)
Definition dimensionKey (dbDimension : string) : option Dimension :=
  if includes inheritedNames dbDimension then None
  else Some (mapDbToDimension dbDimension).

(** A value of a [real] column as the driver hands it over. *)
Inductive RealValue :=
| Finite (x : Q) | PlusInfinity | MinusInfinity | NotANumber.

(** [Math.max(1, Math.min(5, value))]: [None] stands for NaN. *)
Definition clampReal (value : RealValue) : option Q :=
  match value with
  | Finite x => Some (Math_max 1 (Math_min 5 x))
  | PlusInfinity => Some 5
  | MinusInfinity => Some 1
  | NotANumber => None
  end.

(** A row of the table [dimension_states], as [getDimensionStates] returns
    it: the columns that [loadSessionFromDB] reads. *)
Record DimensionStateRow := mkDimensionStateRow {
  row_dimension : string;
  row_lowerBound : RealValue;
  row_upperBound : RealValue;
  row_tested : bool;
  row_questionsAsked : nat;
  row_correctCount : nat
}.

(** The object literal that [loadSessionFromDB] builds from a row, lines
    69-75, with both bounds clamped to [1,5]: [None] when one of the bounds
    is NaN, which the clamp lets through and a [DimensionState] of this model
    cannot hold. *)
Definition loadedState (state : DimensionStateRow) : option DimensionState :=
  match clampReal (row_lowerBound state), clampReal (row_upperBound state) with
  | Some lowerBound, Some upperBound =>
      Some (mkDimensionState lowerBound upperBound (row_tested state)
              (row_questionsAsked state) (row_correctCount state))
  | _, _ => None
  end.

(** [loadSessionFromDB], lines 48-75: the five dimensions of the loaded
    profile. All five start at the defaults; every row then replaces the
    state under the key its name gives, which leaves the five dimensions
    alone when the key is an extra property. *)
Definition loadDimensions (dimStates : list DimensionStateRow)
  : PerDimension (option DimensionState) :=
  fold_left
    (fun dims state =>
       match dimensionKey (row_dimension state) with
       | Some dimKey => set dims dimKey (loadedState state)
       | None => dims
       end)
    dimStates
    (mkPerDimension
       (Some (mkDimensionState 1 5 false 0 0))
       (Some (mkDimensionState 1 5 false 0 0))
       (Some (mkDimensionState 1 5 false 0 0))
       (Some (mkDimensionState 1 5 false 0 0))
       (Some (mkDimensionState 1 5 false 0 0))).

(** A row of the table [question_bank]: the columns that the lookup reads. *)
Record BankQuestion := mkBankQuestion {
  bank_id : string;
  bank_dimension : string;
  bank_difficulty : Z;
  bank_usageCount : nat
}.

(** [excludeIds.includes(q.id)] *)
Definition includes_id (ids : list string) (id : string) : bool :=
  existsb (String.eqb id) ids.

(** [dbOps.getQuestionByDimensionAndDifficulty] ([server/db/client.ts]) over
    the rows of the bank. [random] is the value of [Math.random()]; [None]
    is [null] (or [undefined], for an index past the end). *)
Definition getQuestionByDimensionAndDifficulty (questionBank : list BankQuestion)
    (random : Q) (dimension : string) (difficulty : Q)
    (excludeIds : list string) : option BankQuestion :=
  let allQuestions :=
    List.filter
      (fun q =>
         String.eqb (bank_dimension q) dimension
         && Qeq_bool (inject_Z (bank_difficulty q)) difficulty)
      questionBank in
  let availableQuestions :=
    List.filter (fun q => negb (includes_id excludeIds (bank_id q)))
      allQuestions in
  match availableQuestions with
  | [] => None
  | _ =>
      let randomIndex :=
        Qfloor (random * of_nat (List.length availableQuestions)) in
      index availableQuestions randomIndex
  end.

(** [getOrGenerateQuestion], lines 493-523: the search of the bank, at the
    rounded difficulty first, then one below (if [difficulty > 1]), then one
    above (if [difficulty < 5]). Each lookup has its own random draw. [None]
    means that the question is generated. *)
Definition findBankQuestion (questionBank : list BankQuestion)
    (random1 random2 random3 : Q) (dimension : Dimension) (difficulty : Q)
    (askedQuestions : list string) : option BankQuestion :=
  let askedIds :=
    List.filter (fun id => negb (String.eqb id "")) askedQuestions in
  let bankQuestion :=
    getQuestionByDimensionAndDifficulty questionBank random1
      (mapDimensionToDb dimension) (Math_round difficulty) askedIds in
  let bankQuestion :=
    match bankQuestion with
    | None =>
        if 1 <? difficulty then
          getQuestionByDimensionAndDifficulty questionBank random2
            (mapDimensionToDb dimension) (Math_round difficulty - 1) askedIds
        else bankQuestion
    | Some _ => bankQuestion
    end in
  match bankQuestion with
  | None =>
      if difficulty <? 5 then
        getQuestionByDimensionAndDifficulty questionBank random3
          (mapDimensionToDb dimension) (Math_round difficulty + 1) askedIds
      else bankQuestion
  | Some _ => bankQuestion
  end.




(** [completeAssessment], lines 594-601: the help-seeking style of the
    result. *)
Definition helpSeekingStyleMap (style : HelpSeekingStyle) : string :=
  match style with
  | quick_to_ask => "hint-dependent"
  | reluctant => "self-reliant"
  | balanced => "balanced"
  end.

Definition resultHelpSeekingStyle (hintProfile : HintProfile) : string :=
  if (0 <? totalHintsUsed hintProfile)%nat
  then helpSeekingStyleMap (helpSeekingStyle hintProfile)
  else "self-reliant".

End Route.

(** * Specification vocabulary *)

(** The bound invariant of the data model. *)
Definition valid_bounds (s : DimensionState) : Prop :=
  1 <= lowerBound s /\ lowerBound s <= upperBound s /\ upperBound s <= 5.

Definition valid_profile (profile : StudentProfile) : Prop :=
  forall dim, valid_bounds (get (dimensions profile) dim).

(** Profiles that the engine can produce: a fresh profile, then any number of
    bound updates. *)
Inductive reachable : StudentProfile -> Prop :=
| reachable_fresh sessionId studentName now :
    reachable (createStudentProfile sessionId studentName now)
| reachable_update profile response :
    reachable profile -> reachable (updateBounds profile response).

(** A dimension has converged: narrow range and enough questions. *)
Definition converged (state : DimensionState) : Prop :=
  upperBound state - lowerBound state <= 0.5
  /\ (3 <= questionCount state)%nat.

(** Position in the canonical order. *)
Definition rank (dim : Dimension) : nat :=
  match dim with
  | lowLevelBinary => 0
  | controlFlow => 1
  | hardwareIO => 2
  | codeReading => 3
  | decomposition => 4
  end.

(** The first untested dimension in the canonical order. *)
Definition first_untested (profile : StudentProfile) (dim : Dimension) : Prop :=
  tested (get (dimensions profile) dim) = false
  /\ forall dim', (rank dim' < rank dim)%nat ->
                  tested (get (dimensions profile) dim') = true.

(** A dimension of maximal adjusted uncertainty, the earliest one among
    those. *)
Definition most_uncertain (profile : StudentProfile) (dim : Dimension) : Prop :=
  (forall dim',
      adjustedUncertainty (get (dimensions profile) dim')
      <= adjustedUncertainty (get (dimensions profile) dim))
  /\ (forall dim',
         (rank dim' < rank dim)%nat ->
         adjustedUncertainty (get (dimensions profile) dim')
         < adjustedUncertainty (get (dimensions profile) dim)).

(** The lower bound of every dimension is at most its upper bound. *)
Definition ordered_bounds (profile : StudentProfile) : Prop :=
  forall dim,
    lowerBound (get (dimensions profile) dim)
    <= upperBound (get (dimensions profile) dim).

(** The selection of the refinement branch for a given dimension. *)
Definition refinementSelection (profile : StudentProfile) (dim : Dimension)
  : Selection :=
  let dimState := get (dimensions profile) dim in
  mkSelection dim
    (clampDifficulty
       (Math_round ((lowerBound dimState + upperBound dimState) / 2)))
    (if (upperBound dimState - lowerBound dimState <=? 2)
        || (3 <=? questionCount dimState)%nat
     then ai else bank)
    (getQuestionTypeForDimension dim refinement).

(** A profile record with every dimension tested and the bounds inverted
    ([5, 1]): well-typed ([lowerBound] and [upperBound] are both
    DifficultyLevels), though no update produces it. *)
Definition invertedProfile : StudentProfile :=
  let s := mkDimensionState 5 1 true 1 0 in
  mkStudentProfile "s3" None refinement 6%nat 0
    (mkPerDimension s s s s s) 0 0%nat 0%nat.

(** The counters of a DimensionState agree with each other. *)
Definition consistent_counters (s : DimensionState) : Prop :=
  (correctCount s <= questionCount s)%nat
  /\ (tested s = true <-> (0 < questionCount s)%nat).

(** The questions asked over all dimensions. *)
Definition totalQuestionCount (profile : StudentProfile) : nat :=
  list_sum (map (fun dim => questionCount (get (dimensions profile) dim))
              DIMENSIONS).

(** Profiles of a running session: a fresh profile, then any number of answered
    questions, each going through the submit route. *)
Inductive in_session : StudentProfile -> Prop :=
| in_session_fresh sessionId studentName now :
    in_session (createStudentProfile sessionId studentName now)
| in_session_answer profile response :
    in_session profile -> in_session (fst (submitAnswer profile response)).

(** A number that is one of the grid values 1, 2, 3, 4, 5. *)
Definition on_grid (x : Q) : Prop :=
  exists z : Z, x = inject_Z z /\ (1 <= z <= 5)%Z.

(** The wrong-answer rule is lenient: high accuracy so far and at least three
    questions, this one included. *)
Definition lenient (s : DimensionState) : bool :=
  (0.7 <? accuracy s) && (3 <=? questionCount s + 1)%nat.

(** Fifteen correct answers at difficulty 5, three per dimension. *)
Definition fifteenCorrect : list QuestionResponse :=
  flat_map
    (fun dim => repeat (mkQuestionResponse dim 5 true false 1000 0) 3)
    DIMENSIONS.

(** The dimensions that still wait for their first question. *)
Definition untestedDimensions (profile : StudentProfile) : list Dimension :=
  List.filter (fun dim => negb (tested (get (dimensions profile) dim)))
    DIMENSIONS.

(** ** Vocabulary for the engine in double precision *)

(** Profiles that the program builds: a fresh profile, then any number of
    bound updates, computed in doubles. *)
Inductive built64 : StudentProfile -> Prop :=
| built64_fresh sessionId studentName now :
    built64 (createStudentProfile sessionId studentName now)
| built64_update profile response :
    built64 profile -> built64 (updateBounds64 profile response).

(** A dimension whose adjusted uncertainty, as the program computes it, is
    maximal, the earliest one among those. *)
Definition most_uncertain64 (profile : StudentProfile) (dim : Dimension)
  : Prop :=
  (forall dim',
      adjustedUncertainty64 (get (dimensions profile) dim')
      <= adjustedUncertainty64 (get (dimensions profile) dim))
  /\ (forall dim',
         (rank dim' < rank dim)%nat ->
         adjustedUncertainty64 (get (dimensions profile) dim')
         < adjustedUncertainty64 (get (dimensions profile) dim)).

(** Answers on one dimension, each given by its difficulty and whether it
    was correct (none is partial). *)
Definition answers (dim : Dimension) (verdicts : list (Q * bool))
  : list QuestionResponse :=
  map (fun v => mkQuestionResponse dim (fst v) (snd v) false 1000 0) verdicts.

(** The profile after a sequence of answers, computed in doubles and in
    exact arithmetic. *)
Definition session64 (outcomes : list QuestionResponse) : StudentProfile :=
  fold_left updateBounds64 outcomes (createStudentProfile "s1" None 0).

Definition sessionExact (outcomes : list QuestionResponse) : StudentProfile :=
  fold_left updateBounds outcomes (createStudentProfile "s1" None 0).

(** Nine answers after which lowLevelBinary holds the bounds [2.7, 4.5] and
    controlFlow the bounds [1.7, 3.5], with three questions each, and the
    other dimensions [4.7, 5] with one question. *)
Definition tiedSession : list QuestionResponse :=
  answers lowLevelBinary [(3, true); (5, false); (5, false)]
  ++ answers controlFlow [(2, true); (4, false); (4, false)]
  ++ answers hardwareIO [(5, true)]
  ++ answers codeReading [(5, true)]
  ++ answers decomposition [(5, true)].

(** Seven answers after which hardwareIO holds the bounds [2.7, 3.5] and
    codeReading the bounds [1.7, 2.5], with two questions each, and the
    other dimensions [4.7, 5] with one question. *)
Definition splitSession : list QuestionResponse :=
  answers lowLevelBinary [(5, true)]
  ++ answers controlFlow [(5, true)]
  ++ answers hardwareIO [(3, true); (4, false)]
  ++ answers codeReading [(2, true); (3, false)]
  ++ answers decomposition [(5, true)].

(** ** Vocabulary for the hint analysis *)

Module HintSpec.
Import HintAnalysis.

(** The events of one hint type, and those of them that were followed by a
    correct answer. *)
Definition countType (t : HintType) (events : list HintEvent) : nat :=
  List.length
    (List.filter (fun e => HintType_eqb (hintType e) t) events).

Definition correctOfType (t : HintType) (events : list HintEvent) : nat :=
  List.length
    (List.filter
       (fun e =>
          HintType_eqb (hintType e) t
          && is_answered_correctly (subsequentAction e))
       events).

Definition answeredCorrectly (events : list HintEvent) : nat :=
  List.length
    (List.filter (fun e => is_answered_correctly (subsequentAction e)) events).

Definition totalTimeToAsk (events : list HintEvent) : Q :=
  fold_left (fun sum e => sum + timeIntoQuestionMs e) events 0.

(** The value stored under a key of a record. *)
Fixpoint lookupType {V} (k : HintType) (obj : list (HintType * V))
  : option V :=
  match obj with
  | [] => None
  | (k', v) :: rest => if HintType_eqb k k' then Some v else lookupType k rest
  end.

(** The learning mode that goes with the most used hint type. *)
Definition modeOf (t : HintType) : LearningMode :=
  match t with
  | example => pattern_matching
  | conceptual => theory_first
  | structural => needs_scaffolding
  | _ => syntax_focused
  end.

(** The three records that [analyzeHintBehavior] builds from the events, and
    the most used hint type. *)
Definition distributionOf (events : list HintEvent) : list (HintType * nat) :=
  fold_left
    (fun dist event =>
       upsert (hintType event)
         (fun old =>
            (match old with Some n => n | None => 0 end + 1)%nat)
         dist)
    events [].

Definition successOf (events : list HintEvent)
  : list (HintType * (nat * nat)) :=
  fold_left
    (fun success event =>
       upsert (hintType event)
         (fun old =>
            let '(correct, total) :=
              match old with Some s => s | None => (0, 0)%nat end in
            (if is_answered_correctly (subsequentAction event)
             then correct + 1 else correct,
             total + 1)%nat)
         success)
    events [].

Definition successRate (stats : nat * nat) : Q :=
  let '(correct, total) := stats in
  if (0 <? total)%nat then of_nat correct / of_nat total else 0.

Definition best_step (best : string * Q) (entry : HintType * (nat * nat))
  : string * Q :=
  if snd best <? successRate (snd entry)
  then (hintTypeName (fst entry), successRate (snd entry))
  else best.

Definition mostUsedOf (dist : list (HintType * nat)) : HintType :=
  match sort_by_count_desc dist with
  | (type, _) :: _ => type
  | [] => conceptual
  end.

End HintSpec.

(** ** Vocabulary for the route *)

Module RouteSpec.
Import Route.

(** A bank question of the given dimension and difficulty whose id is not
    excluded. *)
Definition available (questionBank : list BankQuestion) (dimension : string)
    (difficulty : Q) (excludeIds : list string) (q : BankQuestion) : Prop :=
  In q questionBank
  /\ bank_dimension q = dimension
  /\ inject_Z (bank_difficulty q) == difficulty
  /\ ~ In (bank_id q) excludeIds.

(** The asked ids that take part in the exclusion: the non-empty ones. *)
Definition askedIdsOf (askedQuestions : list string) : list string :=
  List.filter (fun id => negb (String.eqb id "")) askedQuestions.

(** The difficulties that [findBankQuestion] may probe. *)
Definition probed (difficulty probe : Q) : Prop :=
  probe = Math_round difficulty
  \/ (1 < difficulty /\ probe = Math_round difficulty - 1)
  \/ (difficulty < 5 /\ probe = Math_round difficulty + 1).

End RouteSpec.

(** * Properties *)

(** ** Comparisons, max and min *)

Lemma ltb_spec (a b : Q) : reflect (a < b) (a <? b).
Proof.
  unfold ltb. destruct (a ?= b) eqn:E; constructor;
    [apply Qeq_alt in E | apply Qlt_alt in E | apply Qgt_alt in E]; lra.
Qed.

Lemma leb_spec (a b : Q) : reflect (a <= b) (a <=? b).
Proof.
  unfold leb. destruct (a ?= b) eqn:E; constructor;
    [apply Qeq_alt in E | apply Qlt_alt in E | apply Qgt_alt in E]; lra.
Qed.

Lemma Math_max_cases (a b : Q) :
  (a < b /\ Math_max a b = b) \/ (b <= a /\ Math_max a b = a).
Proof.
  unfold Math_max, Qmax, GenericMinMax.gmax.
  destruct (Qcompare_spec a b); [right | left | right]; split;
    (lra || reflexivity).
Qed.

Lemma Math_min_cases (a b : Q) :
  (a <= b /\ Math_min a b = a) \/ (b < a /\ Math_min a b = b).
Proof.
  unfold Math_min, Qmin, GenericMinMax.gmin.
  destruct (Qcompare_spec a b); [left | left | right]; split;
    (lra || reflexivity).
Qed.

(** Case analysis on every comparison, max and min in sight. *)
Ltac split_num :=
  repeat match goal with
    | |- context [Math_max ?a ?b] =>
        let E := fresh "E" in
        destruct (Math_max_cases a b) as [[? E] | [? E]];
        rewrite E in *; clear E
    | |- context [Math_min ?a ?b] =>
        let E := fresh "E" in
        destruct (Math_min_cases a b) as [[? E] | [? E]];
        rewrite E in *; clear E
    | H : context [Math_max ?a ?b] |- _ =>
        let E := fresh "E" in
        destruct (Math_max_cases a b) as [[? E] | [? E]];
        rewrite E in *; clear E
    | H : context [Math_min ?a ?b] |- _ =>
        let E := fresh "E" in
        destruct (Math_min_cases a b) as [[? E] | [? E]];
        rewrite E in *; clear E
    | |- context [?a <? ?b] => destruct (ltb_spec a b)
    | |- context [?a <=? ?b] => destruct (leb_spec a b)
    end.

(** Splitting of conjunctions only. *)
Ltac conjs := repeat match goal with |- _ /\ _ => split end.

(** Linear arithmetic, with the divisions by a constant written as products. *)
Ltac qlra :=
  unfold Qdiv in *;
  change (/ 2) with (1 # 2) in *;
  change (/ 4) with (1 # 4) in *;
  change (/ 6) with (1 # 6) in *;
  lra.

Lemma get_set_eq {A} (rec : PerDimension A) dim v : get (set rec dim v) dim = v.
Proof. destruct dim; reflexivity. Qed.

Lemma get_set_ne {A} (rec : PerDimension A) dim dim' v :
  dim <> dim' -> get (set rec dim v) dim' = get rec dim'.
Proof. destruct dim, dim'; intros H; try reflexivity; congruence. Qed.

(** ** The bound invariant *)

(** Unfolding of the property reads and assignments of a DimensionState. *)
Ltac fields :=
  cbv beta iota zeta delta
    [set_lowerBound set_upperBound set_tested set_questionCount
     set_correctCount lowerBound upperBound tested questionCount
     correctCount].

(** The last part of the body re-establishes the invariant whatever state it
    starts from: the two clamps put both bounds on the scale, and the
    inversion branch makes them equal. *)
Lemma restoreBounds_valid (s : DimensionState) (response : QuestionResponse) :
  valid_bounds (restoreBounds s response).
Proof.
  destruct s as [L U t q c].
  unfold valid_bounds, restoreBounds. fields.
  destruct (ltb_spec (Math_max 1 (Math_min 5 U)) (Math_max 1 (Math_min 5 L)));
    [destruct (correct response) |]; fields; split_num; qlra.
Qed.

Lemma updateDimState_valid (s : DimensionState) (response : QuestionResponse) :
  valid_bounds (updateDimState s response).
Proof. apply restoreBounds_valid. Qed.

Lemma updateBounds_target (profile : StudentProfile) (response : QuestionResponse) :
  get (dimensions (updateBounds profile response)) (dimension response)
  = updateDimState (get (dimensions profile) (dimension response)) response.
Proof. unfold updateBounds. cbn. apply get_set_eq. Qed.

Lemma updateBounds_other (profile : StudentProfile) (response : QuestionResponse)
    (dim : Dimension) :
  dim <> dimension response ->
  get (dimensions (updateBounds profile response)) dim
  = get (dimensions profile) dim.
Proof. intros H. unfold updateBounds. cbn. apply get_set_ne. congruence. Qed.

Lemma Dimension_eq_dec (a b : Dimension) : {a = b} + {a <> b}.
Proof. decide equality. Defined.

Lemma updateBounds_valid_profile (profile : StudentProfile)
    (response : QuestionResponse) :
  valid_profile profile -> valid_profile (updateBounds profile response).
Proof.
  intros H dim. destruct (Dimension_eq_dec dim (dimension response)) as [-> | Hne].
  - rewrite updateBounds_target. apply updateDimState_valid.
  - rewrite updateBounds_other by assumption. apply H.
Qed.

Lemma reachable_valid (profile : StudentProfile) :
  reachable profile -> valid_profile profile.
Proof.
  induction 1 as [sid name now | profile response _ IH].
  - intros dim. unfold valid_bounds. destruct dim; cbn; lra.
  - apply updateBounds_valid_profile, IH.
Qed.

(** ** Claims *)

(** C1. For every profile whose targeted DimensionState satisfies
    1 <= lowerBound <= upperBound <= 5, and every outcome with any verdict
    (the two flags [correct] and [partial] are arbitrary) and any difficulty
    on the scale [1,5], the targeted DimensionState of the profile returned by
    [updateBounds] satisfies 1 <= lowerBound <= upperBound <= 5 again. *)
Theorem updateBounds_preserves_invariant (profile : StudentProfile)
    (response : QuestionResponse) :
  valid_bounds (get (dimensions profile) (dimension response)) ->
  1 <= difficulty response <= 5 ->
  valid_bounds
    (get (dimensions (updateBounds profile response)) (dimension response)).
Proof.
  intros _ _. rewrite updateBounds_target. apply updateDimState_valid.
Qed.

Lemma updateBounds_preserves_invariant_witness :
  let profile := createStudentProfile "s1" None 0 in
  let response := mkQuestionResponse hardwareIO 3 false false 1000 0 in
  valid_bounds
    (get (dimensions (updateBounds profile response)) (dimension response)).
Proof.
  intros profile response.
  apply (updateBounds_preserves_invariant profile response).
  - unfold valid_bounds. cbn. lra.
  - cbn. lra.
Defined.

(** The counters after any answer. *)
Lemma updateDimState_counters (s : DimensionState) (response : QuestionResponse) :
  tested (updateDimState s response) = true
  /\ questionCount (updateDimState s response) = (questionCount s + 1)%nat.
Proof.
  destruct s as [L U t q c].
  unfold updateDimState, restoreBounds, applyVerdict. fields.
  repeat match goal with
    | |- context [if ?b then _ else _] => destruct b; fields
    end; split; reflexivity.
Qed.

(** After a correct answer the lower bound is the clamped maximum of the old
    lower bound and [difficulty - 0.3]; the inversion branch only moves the
    upper bound. *)
Lemma updateDimState_correct_lowerBound (s : DimensionState)
    (response : QuestionResponse) :
  correct response = true ->
  lowerBound (updateDimState s response)
  == Math_max 1 (Math_min 5 (Math_max (lowerBound s) (difficulty response - 0.3))).
Proof.
  intros Hc. destruct s as [L U t q c].
  unfold updateDimState, restoreBounds, applyVerdict. rewrite Hc. fields.
  generalize (accuracy (mkDimensionState L U t q c)); intros a.
  repeat match goal with
    | |- context [if ?b then _ else _] => destruct b; fields
    end; split_num; qlra.
Qed.



(** The bounds after a partial verdict, in closed form: both rules tighten,
    and when the tightened pair is inverted the lower bound drops to the new
    upper bound. *)
Lemma updateDimState_partial (s : DimensionState) (response : QuestionResponse) :
  valid_bounds s ->
  correct response = false ->
  partial response = true ->
  1 <= difficulty response <= 5 ->
  let lb :=
    Math_max (lowerBound s) (Math_max 1 ((difficulty response - 0.5) * 0.8)) in
  let ub :=
    Math_min (upperBound s) (Math_min 5 (difficulty response + 0.5)) in
  upperBound (updateDimState s response) == ub
  /\ lowerBound (updateDimState s response) == Math_min lb ub.
Proof.
  intros [H1 [HLU H5]] Hc Hp [Hd1 Hd5]. destruct s as [L U t q c].
  unfold updateDimState, restoreBounds, applyVerdict. rewrite Hc, Hp.
  fields. cbn [lowerBound upperBound] in *.
  split_num; fields; split_num; split; qlra.
Qed.

(** C5, as the code has it. For bounds on the scale and a partial verdict at a
    difficulty [d] in [1,5]: the upper bound never widens; the lower bound
    never drops below min(previous lowerBound, d + 0.5), so it does not widen
    whenever the previous lower bound is at most d + 0.5; and when the
    previous lower bound exceeds d + 0.5 the tightened pair is inverted and
    the inversion rule lowers the lower bound to the new upper bound, which
    is d + 0.5. *)
Theorem partial_credit_effect (profile : StudentProfile)
    (response : QuestionResponse) :
  let before := get (dimensions profile) (dimension response) in
  let after :=
    get (dimensions (updateBounds profile response)) (dimension response) in
  valid_bounds before ->
  correct response = false ->
  partial response = true ->
  1 <= difficulty response <= 5 ->
  upperBound after <= upperBound before
  /\ Math_min (lowerBound before) (difficulty response + 0.5)
     <= lowerBound after
  /\ (lowerBound before <= difficulty response + 0.5 ->
      lowerBound before <= lowerBound after)
  /\ (difficulty response + 0.5 < lowerBound before ->
      lowerBound after == upperBound after
      /\ upperBound after == difficulty response + 0.5).
Proof.
  intros before after Hv Hc Hp Hd. subst after.
  rewrite updateBounds_target. fold before.
  destruct (updateDimState_partial before response Hv Hc Hp Hd) as [Hub Hlb].
  rewrite Hub, Hlb. destruct Hv as [H1 [HLU H5]]. destruct Hd as [Hd1 Hd5].
  conjs; [| | intros HL | intros HL; split]; split_num; qlra.
Qed.

Lemma partial_credit_effect_witness :
  let fresh := createStudentProfile "s1" None 0 in
  let profile :=
    updateBounds fresh (mkQuestionResponse codeReading 5 true false 1000 0) in
  let response := mkQuestionResponse codeReading 3 false true 1000 1 in
  let after := get (dimensions (updateBounds profile response)) codeReading in
  upperBound after <= 5
  /\ Math_min 4.7 (3 + 0.5) <= lowerBound after
  /\ (4.7 <= 3 + 0.5 -> 4.7 <= lowerBound after)
  /\ (3 + 0.5 < 4.7 ->
      lowerBound after == upperBound after /\ upperBound after == 3 + 0.5).
Proof.
  intros fresh profile response.
  apply (partial_credit_effect profile response).
  - unfold valid_bounds. vm_compute. repeat split; discriminate.
  - reflexivity.
  - reflexivity.
  - vm_compute. split; discriminate.
Defined.

(** C5 as stated fails: after a correct answer at difficulty 5 the bounds of
    the dimension are [4.7, 5]; a partial verdict at difficulty 1 then leaves
    the lower bound at 1.5, below the previous 4.7. *)
Lemma partial_credit_widens_lowerBound :
  let fresh := createStudentProfile "s1" None 0 in
  let profile :=
    updateBounds fresh (mkQuestionResponse decomposition 5 true false 1000 0) in
  let response := mkQuestionResponse decomposition 1 false true 1000 0 in
  let before := get (dimensions profile) decomposition in
  let after := get (dimensions (updateBounds profile response)) decomposition in
  valid_bounds before
  /\ 1 <= difficulty response <= 5
  /\ lowerBound before == 4.7
  /\ lowerBound after == 1.5
  /\ ~ (lowerBound before <= lowerBound after).
Proof.
  vm_compute. repeat split; try discriminate; try reflexivity.
  intros H. apply H. reflexivity.
Qed.

(** ** The completion gate *)

Lemma submitAnswer_questionsAnswered (profile : StudentProfile)
    (response : QuestionResponse) :
  questionsAnswered (fst (submitAnswer profile response))
  = (questionsAnswered profile + 1)%nat.
Proof. reflexivity. Qed.

Lemma submitAnswer_gate (profile : StudentProfile) (response : QuestionResponse) :
  snd (submitAnswer profile response)
  = shouldCompleteAssessment (fst (submitAnswer profile response)).
Proof. reflexivity. Qed.

Lemma hard_cap (profile : StudentProfile) :
  (25 <= questionsAnswered profile)%nat ->
  shouldCompleteAssessment profile = true.
Proof.
  intros H. unfold shouldCompleteAssessment.
  destruct (Nat.leb_spec 25 (questionsAnswered profile)); [reflexivity | lia].
Qed.

Lemma runSession_stops (outcomes : list QuestionResponse) :
  forall profile : StudentProfile,
    (questionsAnswered profile < 25)%nat ->
    (25 <= questionsAnswered profile + List.length outcomes)%nat ->
    snd (runSession profile outcomes) = true
    /\ (questionsAnswered (fst (runSession profile outcomes)) <= 25)%nat.
Proof.
  induction outcomes as [| response rest IH]; intros profile Hlt Hlen.
  - cbn in Hlen. lia.
  - cbn [runSession].
    destruct (submitAnswer profile response) as [updated gate] eqn:E.
    assert (Hq : questionsAnswered updated = (questionsAnswered profile + 1)%nat)
      by (rewrite <- submitAnswer_questionsAnswered with (response := response);
          rewrite E; reflexivity).
    assert (Hg : gate = shouldCompleteAssessment updated)
      by (pose proof (submitAnswer_gate profile response) as G;
          rewrite E in G; exact G).
    destruct gate.
    + cbn. split; [reflexivity | lia].
    + apply IH.
      * destruct (Nat.lt_ge_cases (questionsAnswered updated) 25) as [|Hge];
          [assumption |].
        rewrite (hard_cap updated Hge) in Hg. discriminate.
      * cbn [List.length] in Hlen. lia.
Qed.

(** C3. Whenever [questionsAnswered >= 25], [shouldCompleteAssessment] returns
    true, whatever the phase, the bounds and the counts. Since every answered
    question increments [questionsAnswered] by one, a session that starts
    below the cap and is given any sequence of outcomes long enough to reach
    it is stopped by the gate, with at most 25 questions answered. *)
Theorem completion_gate_terminates :
  (forall profile : StudentProfile,
      (25 <= questionsAnswered profile)%nat ->
      shouldCompleteAssessment profile = true)
  /\ (forall (profile : StudentProfile) (response : QuestionResponse),
        questionsAnswered (fst (submitAnswer profile response))
        = (questionsAnswered profile + 1)%nat)
  /\ (forall (profile : StudentProfile) (outcomes : list QuestionResponse),
        (questionsAnswered profile < 25)%nat ->
        (25 <= questionsAnswered profile + List.length outcomes)%nat ->
        snd (runSession profile outcomes) = true
        /\ (questionsAnswered (fst (runSession profile outcomes)) <= 25)%nat).
Proof.
  split; [exact hard_cap |].
  split; [exact submitAnswer_questionsAnswered |].
  intros profile outcomes. apply runSession_stops.
Qed.

Lemma completion_gate_terminates_witness :
  let profile := createStudentProfile "s1" None 0 in
  let wrong := mkQuestionResponse lowLevelBinary 5 false false 1000 0 in
  let right := mkQuestionResponse lowLevelBinary 1 true false 1000 0 in
  let outcomes := concat (repeat [wrong; right] 13) in
  let late :=
    mkStudentProfile "s2" None exploration 25%nat 0 (dimensions profile) 0
      0%nat 0%nat in
  shouldCompleteAssessment late = true
  /\ snd (runSession profile outcomes) = true
  /\ (questionsAnswered (fst (runSession profile outcomes)) <= 25)%nat.
Proof.
  intros profile wrong right outcomes late. split.
  - apply (proj1 completion_gate_terminates late). cbn. lia.
  - apply (proj2 (proj2 completion_gate_terminates) profile outcomes).
    + cbn. lia.
    + cbn. lia.
Defined.

(** ** Confidence *)

Lemma of_nat_le (n m : nat) : (n <= m)%nat -> of_nat n <= of_nat m.
Proof.
  intros H. unfold of_nat. rewrite <- Zle_Qle. lia.
Qed.

(** C4, as the code has it. Between two DimensionStates with the same bounds
    and the same observed accuracy (0.5 when no question was asked),
    [calculateConfidence] is non-decreasing in [questionCount]. *)
Theorem confidence_monotone_at_fixed_accuracy (s1 s2 : DimensionState) :
  lowerBound s1 == lowerBound s2 ->
  upperBound s1 == upperBound s2 ->
  accuracy s1 == accuracy s2 ->
  (questionCount s1 <= questionCount s2)%nat ->
  calculateConfidence s1 <= calculateConfidence s2.
Proof.
  intros HL HU HA Hq. unfold calculateConfidence.
  apply of_nat_le in Hq.
  rewrite HL, HU, HA. split_num; qlra.
Qed.

Lemma confidence_monotone_at_fixed_accuracy_witness :
  calculateConfidence (mkDimensionState 2 4 true 2 1)
  <= calculateConfidence (mkDimensionState 2 4 true 4 2).
Proof.
  apply confidence_monotone_at_fixed_accuracy.
  - reflexivity.
  - reflexivity.
  - reflexivity.
  - cbn. lia.
Defined.

(** C4 as stated fails: with the bounds at [1,5] and [correctCount = 1], the
    confidence is 0.25 at [questionCount = 1] and 0.2 at [questionCount = 2],
    because the accuracy term drops from 1 to 1/2. *)
Lemma confidence_decreases_with_questionCount :
  let s1 := mkDimensionState 1 5 true 1 1 in
  let s2 := mkDimensionState 1 5 true 2 1 in
  (questionCount s1 <= questionCount s2)%nat
  /\ lowerBound s1 = lowerBound s2
  /\ upperBound s1 = upperBound s2
  /\ correctCount s1 = correctCount s2
  /\ calculateConfidence s1 == 0.25
  /\ calculateConfidence s2 == 0.2
  /\ ~ (calculateConfidence s1 <= calculateConfidence s2).
Proof.
  cbn zeta. repeat split; try reflexivity.
  - cbn. lia.
  - vm_compute. intros H. apply H. reflexivity.
Qed.

(** ** Phases *)

Lemma forallb_DIMENSIONS (f : Dimension -> bool) :
  forallb f DIMENSIONS = true <-> forall dim, f dim = true.
Proof.
  rewrite forallb_forall. split; intros H dim; [| intros _]; apply H.
  destruct dim; cbn; tauto.
Qed.

Lemma converged_test (state : DimensionState) :
  (upperBound state - lowerBound state <=? CONVERGENCE_THRESHOLD)
  && (MIN_QUESTIONS_PER_DIMENSION <=? questionCount state)%nat = true
  <-> converged state.
Proof.
  unfold converged, CONVERGENCE_THRESHOLD, MIN_QUESTIONS_PER_DIMENSION.
  rewrite andb_true_iff, Nat.leb_le.
  destruct (leb_spec (upperBound state - lowerBound state) 0.5);
    intuition congruence.
Qed.

(** C6. [determinePhase] returns exploration exactly when fewer than 5
    questions were answered or some dimension is untested. With at least 5
    questions answered and all five dimensions tested, it returns completion
    exactly when every dimension has a range of at most 0.5 and at least 3
    questions, and refinement otherwise. *)
Theorem determinePhase_spec (profile : StudentProfile) :
  (determinePhase profile = exploration
   <-> (questionsAnswered profile < 5)%nat
       \/ exists dim, tested (get (dimensions profile) dim) = false)
  /\ ((5 <= questionsAnswered profile)%nat ->
      (forall dim, tested (get (dimensions profile) dim) = true) ->
      (determinePhase profile = completion
       <-> forall dim, converged (get (dimensions profile) dim))
      /\ (determinePhase profile = refinement
          <-> ~ forall dim, converged (get (dimensions profile) dim))).
Proof.
  unfold determinePhase, EXPLORATION_QUESTIONS_MIN.
  destruct (Nat.ltb_spec (questionsAnswered profile) 5) as [Hlt | Hge].
  { split; [intuition | intros; lia]. }
  destruct (forallb (fun dim => tested (get (dimensions profile) dim)) DIMENSIONS)
    eqn:Ht; cbn [negb].
  - rewrite forallb_DIMENSIONS in Ht.
    match goal with
    | |- context [if ?b then _ else _] => destruct b eqn:Hc
    end.
    + rewrite forallb_DIMENSIONS in Hc.
      assert (Hall : forall dim, converged (get (dimensions profile) dim))
        by (intros dim; apply converged_test, Hc).
      split.
      * split; [discriminate |].
        intros [H | [dim H]]; [lia | rewrite Ht in H; discriminate].
      * intros _ _. split; split; try discriminate; tauto.
    + assert (Hnot : ~ forall dim, converged (get (dimensions profile) dim)).
      { intros Hall. apply not_true_iff_false in Hc. apply Hc.
        apply forallb_DIMENSIONS. intros dim. apply converged_test, Hall. }
      split.
      * split; [discriminate |].
        intros [H | [dim H]]; [lia | rewrite Ht in H; discriminate].
      * intros _ _. split; split; try discriminate; tauto.
  - assert (Hex : exists dim, tested (get (dimensions profile) dim) = false).
    { destruct (tested (get (dimensions profile) lowLevelBinary)) eqn:H1;
        [| eauto].
      destruct (tested (get (dimensions profile) controlFlow)) eqn:H2;
        [| eauto].
      destruct (tested (get (dimensions profile) hardwareIO)) eqn:H3;
        [| eauto].
      destruct (tested (get (dimensions profile) codeReading)) eqn:H4;
        [| eauto].
      destruct (tested (get (dimensions profile) decomposition)) eqn:H5;
        [| eauto].
      unfold DIMENSIONS in Ht. cbn [forallb] in Ht.
      rewrite H1, H2, H3, H4, H5 in Ht. discriminate. }
    split; [tauto |].
    intros _ Hall. destruct Hex as [dim Hd]. rewrite Hall in Hd. discriminate.
Qed.

Lemma determinePhase_spec_witness :
  let s := mkDimensionState 3 3.5 true 3 2 in
  let profile :=
    mkStudentProfile "s1" None refinement 15%nat 0
      (mkPerDimension s s s s s) 0 0%nat 0%nat in
  (determinePhase profile = completion
   <-> forall dim, converged (get (dimensions profile) dim))
  /\ (determinePhase profile = refinement
      <-> ~ forall dim, converged (get (dimensions profile) dim)).
Proof.
  intros s profile.
  apply (proj2 (determinePhase_spec profile)).
  - cbn. lia.
  - intros dim. destruct dim; reflexivity.
Defined.

(** ** Question selection *)

Lemma DIMENSIONS_split (l1 l2 : list Dimension) (d d' : Dimension) :
  DIMENSIONS = l1 ++ d :: l2 ->
  (rank d' < rank d)%nat -> In d' l1.
Proof.
  unfold DIMENSIONS. intros H Hr.
  destruct l1 as [| x1 [| x2 [| x3 [| x4 [| x5 l1]]]]]; cbn in H;
    injection H as <-; subst; cbn in *;
    destruct d'; cbn in Hr; first [lia | tauto].
Qed.

Lemma in_DIMENSIONS (dim : Dimension) : In dim DIMENSIONS.
Proof. destruct dim; cbn; tauto. Qed.

Lemma filter_head {A} (f : A -> bool) (l : list A) :
  match List.filter f l with
  | [] => forall x, In x l -> f x = false
  | x :: _ =>
      exists l1 l2,
        l = l1 ++ x :: l2 /\ f x = true /\ forall y, In y l1 -> f y = false
  end.
Proof.
  induction l as [| a l IH]; cbn.
  - tauto.
  - destruct (f a) eqn:Ha.
    + exists [], l. cbn. tauto.
    + destruct (List.filter f l) as [| x rest].
      * intros y [<- | Hy]; auto.
      * destruct IH as (l1 & l2 & -> & Hx & Hl1).
        exists (a :: l1), l2. cbn. repeat split; try assumption.
        intros y [<- | Hy]; auto.
Qed.

(** The loop of [findMostUncertainDimension] started from [(m0, od0)]: either
    no dimension of the list beats [m0] and the pair is unchanged, or the
    result is the first dimension of the list that is maximal, and it beats
    [m0]. *)
Lemma uncertain_loop (profile : StudentProfile) (l : list Dimension) :
  forall (m0 : Q) (od0 : option Dimension),
    let adj dim := adjustedUncertainty (get (dimensions profile) dim) in
    (fold_left (uncertain_step profile) l (m0, od0) = (m0, od0)
     /\ forall dim, In dim l -> adj dim <= m0)
    \/ exists l1 d l2,
        l = l1 ++ d :: l2
        /\ fold_left (uncertain_step profile) l (m0, od0) = (adj d, Some d)
        /\ m0 < adj d
        /\ (forall dim, In dim l1 -> adj dim < adj d)
        /\ (forall dim, In dim l2 -> adj dim <= adj d).
Proof.
  induction l as [| a l IH]; intros m0 od0 adj.
  - left. cbn. tauto.
  - cbn [fold_left].
    change (uncertain_step profile (m0, od0) a)
      with (if m0 <? adj a then (adj a, Some a) else (m0, od0)).
    destruct (ltb_spec m0 (adj a)) as [Hlt | Hge].
    + right.
      destruct (IH (adj a) (Some a))
        as [[E Hall] | (l1 & d & l2 & -> & E & Hm & H1 & H2)].
      * exists [], a, l. cbn [app]. conjs; try assumption; try reflexivity.
        intros dim [].
      * exists (a :: l1), d, l2. cbn [app].
        conjs; try assumption; try reflexivity.
        -- unfold adj in *. lra.
        -- intros dim [<- | Hin]; [exact Hm | apply H1, Hin].
    + destruct (IH m0 od0)
        as [[E Hall] | (l1 & d & l2 & -> & E & Hm & H1 & H2)].
      * left. split; [assumption |].
        intros dim [<- | Hin]; [unfold adj in *; lra | apply Hall, Hin].
      * right. exists (a :: l1), d, l2. cbn [app].
        conjs; try assumption; try reflexivity.
        intros dim [<- | Hin]; [unfold adj in *; lra | apply H1, Hin].
Qed.

Lemma adjustedUncertainty_pos (state : DimensionState) :
  lowerBound state <= upperBound state -> 0 < adjustedUncertainty state.
Proof.
  intros H. unfold adjustedUncertainty.
  assert (Hq : 0 <= of_nat (questionCount state))
    by (unfold of_nat; change 0 with (inject_Z 0); rewrite <- Zle_Qle; lia).
  assert (Hinv : 0 < / (of_nat (questionCount state) + 1))
    by (apply Qinv_lt_0_compat; lra).
  unfold Qdiv. lra.
Qed.

(** With ordered bounds the search always finds a dimension, the most
    uncertain one. *)
Lemma findMostUncertainDimension_spec (profile : StudentProfile) :
  (forall dim,
      lowerBound (get (dimensions profile) dim)
      <= upperBound (get (dimensions profile) dim)) ->
  exists dim,
    findMostUncertainDimension profile = Some dim
    /\ most_uncertain profile dim.
Proof.
  intros Hord. unfold findMostUncertainDimension.
  destruct (uncertain_loop profile DIMENSIONS 0 None)
    as [[_ Hall] | (l1 & d & l2 & Hsplit & E & Hm & H1 & H2)].
  - pose proof (Hall lowLevelBinary (in_DIMENSIONS _)) as H.
    pose proof (adjustedUncertainty_pos _ (Hord lowLevelBinary)). cbv zeta in H. lra.
  - exists d. rewrite E. split; [reflexivity |]. split.
    + intros dim'. pose proof (in_DIMENSIONS dim') as Hin.
      rewrite Hsplit in Hin. apply in_app_or in Hin.
      destruct Hin as [Hin | [<- | Hin]].
      * apply Qlt_le_weak, H1, Hin.
      * lra.
      * apply H2, Hin.
    + intros dim' Hr. apply H1. apply (DIMENSIONS_split l1 l2 d dim' Hsplit Hr).
Qed.

Lemma Math_round_integer (z : Z) : Math_round (inject_Z z) = inject_Z z.
Proof.
  unfold Math_round. f_equal.
  unfold Qfloor, inject_Z, Qplus. cbn [Qnum Qden].
  replace (z * Z.pos 2 + 1 * Z.pos 1)%Z with (z * 2 + 1)%Z by lia.
  change (Z.pos (1 * 2)) with 2%Z.
  rewrite Z.div_add_l by lia. apply Z.add_0_r.
Qed.

Lemma Math_round_idempotent (x : Q) : Math_round (Math_round x) = Math_round x.
Proof. unfold Math_round at 2 3. apply Math_round_integer. Qed.

Lemma valid_profile_ordered (profile : StudentProfile) :
  valid_profile profile -> ordered_bounds profile.
Proof. intros H dim. apply (H dim). Qed.

Lemma untested_filter_nil (profile : StudentProfile) :
  (forall dim, tested (get (dimensions profile) dim) = true) ->
  List.filter (fun dim => negb (tested (get (dimensions profile) dim)))
    DIMENSIONS = [].
Proof.
  intros Hall. unfold DIMENSIONS. cbn [List.filter].
  rewrite !Hall. reflexivity.
Qed.

Lemma useAI_test (state : DimensionState) :
  (if (upperBound state - lowerBound state <=? 2)
      || (3 <=? questionCount state)%nat
   then ai else bank) = ai
  <-> upperBound state - lowerBound state <= 2
      \/ (3 <= questionCount state)%nat.
Proof.
  destruct (leb_spec (upperBound state - lowerBound state) 2);
    destruct (Nat.leb_spec 3 (questionCount state)); cbn;
    split; intros Huse; try tauto; try discriminate; try reflexivity.
  destruct Huse; [tauto | lia].
Qed.

Lemma selectNextQuestion_refinement (random : Q) (profile : StudentProfile)
    (dim : Dimension) :
  (forall dim, tested (get (dimensions profile) dim) = true) ->
  findMostUncertainDimension profile = Some dim ->
  selectNextQuestion random profile = Some (refinementSelection profile dim).
Proof.
  intros Hall Hfind. unfold selectNextQuestion.
  rewrite (untested_filter_nil profile Hall), Hfind. reflexivity.
Qed.

(** ** Rounding to a double keeps the sign *)

Lemma pow2_below (a : Q) :
  0 < a -> 2 ^ (Z.log2 (Qnum a) - Z.log2 (Zpos (Qden a)) - 1) <= a.
Proof.
  intros Ha. destruct a as [n d]. cbn [Qnum Qden].
  assert (Hn : (0 < n)%Z) by (unfold Qlt in Ha; cbn in Ha; lia).
  pose proof (Z.log2_spec n Hn) as [Hn1 _].
  pose proof (Z.log2_spec (Zpos d) (Pos2Z.is_pos d)) as [_ Hd2].
  pose proof (Z.log2_nonneg n) as Hln.
  pose proof (Z.log2_nonneg (Zpos d)) as Hld.
  set (ln := Z.log2 n) in *. set (ld := Z.log2 (Zpos d)) in *.
  replace (ln - ld - 1)%Z with (ln - Z.succ ld)%Z by lia.
  rewrite Qpower_minus by (intros H; discriminate H).
  change 2 with (inject_Z 2).
  rewrite <- !Zpower_Qpower by lia.
  assert (HB : (0 < 2 ^ Z.succ ld)%Z) by (apply Z.pow_pos_nonneg; lia).
  apply Qle_shift_div_r.
  - change 0 with (inject_Z 0). rewrite <- Zlt_Qlt. exact HB.
  - unfold Qle, Qmult, inject_Z. cbn [Qnum Qden].
    rewrite Pos.mul_1_r, Z.mul_1_r.
    assert (HA : (0 < 2 ^ ln)%Z) by (apply Z.pow_pos_nonneg; lia).
    nia.
Qed.

(** The scaled number [a / 2 ^ (ilog2 a - 52)] is at least 1. *)
Lemma ilog2_below (a : Q) : 0 < a -> 2 ^ (ilog2 a - 52) <= a.
Proof.
  intros Ha. pose proof (pow2_below a Ha) as Hlow. unfold ilog2.
  set (l := (Z.log2 (Qnum a) - Z.log2 (Z.pos (Qden a)))%Z) in *.
  assert (Hmono : forall e, (e <= l - 1)%Z -> 2 ^ e <= a).
  { intros e He. apply Qle_trans with (2 ^ (l - 1)); [| exact Hlow].
    apply Qpower_le_compat_l; [exact He | discriminate]. }
  destruct (2 ^ l <=? a); apply Hmono; lia.
Qed.

Lemma nearest_even_floor (x : Q) : (Qfloor x <= nearest_even x)%Z.
Proof.
  unfold nearest_even.
  destruct (x - inject_Z (Qfloor x) ?= 1 # 2); [destruct (Z.even _) | |]; lia.
Qed.

Lemma round_pos_pos (a : Q) : 0 < a -> 0 < round_pos a.
Proof.
  intros Ha. unfold round_pos.
  set (e := (ilog2 a - 52)%Z).
  assert (He : 0 < 2 ^ e) by (apply Qpower_0_lt; reflexivity).
  assert (H1 : 1 <= a / 2 ^ e).
  { apply Qle_shift_div_l; [exact He |]. rewrite Qmult_1_l.
    apply ilog2_below, Ha. }
  assert (Hm : (1 <= nearest_even (a / 2 ^ e))%Z).
  { apply Z.le_trans with (Qfloor (a / 2 ^ e)); [| apply nearest_even_floor].
    change 1%Z with (Qfloor 1). apply Qfloor_resp_le, H1. }
  apply Qmult_lt_0_compat; [| exact He].
  change 0 with (inject_Z 0). rewrite <- Zlt_Qlt. lia.
Qed.

Lemma binary64_pos (x : Q) : 0 < x -> 0 < binary64 x.
Proof.
  intros Hx. unfold binary64.
  destruct (x ?= 0) eqn:E;
    [apply Qeq_alt in E | apply Qlt_alt in E | apply Qgt_alt in E]; try lra.
  apply round_pos_pos, Hx.
Qed.

Lemma binary64_nonneg (x : Q) : 0 <= x -> 0 <= binary64 x.
Proof.
  intros Hx. unfold binary64.
  destruct (x ?= 0) eqn:E;
    [apply Qeq_alt in E | apply Qlt_alt in E | apply Qgt_alt in E]; try lra.
  apply Qlt_le_weak, round_pos_pos. lra.
Qed.

(** On operations of the kinds that the engine performs (the decimal
    literals, differences of bounds, accuracies, the bonus 1/(n+1), sums of
    these, the partial level, the midpoint), [binary64] yields the value
    that the kernel's binary64 arithmetic yields. *)
Example binary64_agrees_with_kernel_floats :
  map KernelFloat.value KernelFloat.samples
  = map (fun x => Some (Qred x)) samples64.
Proof. vm_compute. reflexivity. Qed.

(** The four operators agree with the kernel's on every pair of the
    operands, about a thousand results each. *)
Example binary64_agrees_on_operand_pairs :
  KernelFloat.agrees PrimFloat.add Qplus = true
  /\ KernelFloat.agrees PrimFloat.sub Qminus = true
  /\ KernelFloat.agrees PrimFloat.mul Qmult = true
  /\ KernelFloat.agrees PrimFloat.div Qdiv = true.
Proof. conjs; vm_compute; reflexivity. Qed.

(** ** The engine in double precision *)

Lemma updateBounds64_target (profile : StudentProfile)
    (response : QuestionResponse) :
  get (dimensions (updateBounds64 profile response)) (dimension response)
  = updateDimState64 (get (dimensions profile) (dimension response)) response.
Proof. unfold updateBounds64. cbn. apply get_set_eq. Qed.

Lemma updateBounds64_other (profile : StudentProfile)
    (response : QuestionResponse) (dim : Dimension) :
  dim <> dimension response ->
  get (dimensions (updateBounds64 profile response)) dim
  = get (dimensions profile) dim.
Proof. intros H. unfold updateBounds64. cbn. apply get_set_ne. congruence. Qed.

(** Whatever the rounded average is, the inversion branch leaves the lower
    bound at most the upper bound. *)
Lemma restoreBounds64_ordered (s : DimensionState) (response : QuestionResponse) :
  lowerBound (restoreBounds64 s response)
  <= upperBound (restoreBounds64 s response).
Proof.
  destruct s as [L U t q c]. unfold restoreBounds64. fields.
  set (avg := div64 _ 2). clearbody avg.
  destruct (ltb_spec (Math_max 1 (Math_min 5 U)) (Math_max 1 (Math_min 5 L)));
    [destruct (correct response) |]; fields; split_num; lra.
Qed.

Lemma built64_ordered (profile : StudentProfile) :
  built64 profile -> ordered_bounds profile.
Proof.
  induction 1 as [sid name now | profile response _ IH]; intros dim.
  - destruct dim; cbn; lra.
  - destruct (Dimension_eq_dec dim (dimension response)) as [-> | Hne].
    + rewrite updateBounds64_target. apply restoreBounds64_ordered.
    + rewrite updateBounds64_other by assumption. apply IH.
Qed.

Lemma session64_built (outcomes : list QuestionResponse) :
  built64 (session64 outcomes).
Proof.
  unfold session64. generalize (built64_fresh "s1" None 0).
  generalize (createStudentProfile "s1" None 0).
  induction outcomes as [| response rest IH]; intros profile Hb; cbn.
  - exact Hb.
  - apply IH. constructor. exact Hb.
Qed.

Lemma adjustedUncertainty64_pos (state : DimensionState) :
  lowerBound state <= upperBound state ->
  0 < adjustedUncertainty64 state.
Proof.
  intros H. unfold adjustedUncertainty64, add64, sub64, div64.
  assert (Hq : 0 <= of_nat (questionCount state))
    by (unfold of_nat; change 0 with (inject_Z 0); rewrite <- Zle_Qle; lia).
  assert (Hu : 0 <= binary64 (upperBound state - lowerBound state))
    by (apply binary64_nonneg; lra).
  assert (Hd : 0 < binary64 (of_nat (questionCount state) + 1))
    by (apply binary64_pos; lra).
  assert (Hi : 0 < binary64 (1 / binary64 (of_nat (questionCount state) + 1))).
  { apply binary64_pos. unfold Qdiv. rewrite Qmult_1_l.
    apply Qinv_lt_0_compat, Hd. }
  apply binary64_pos. lra.
Qed.

Lemma uncertain_loop64 (profile : StudentProfile) (l : list Dimension) :
  forall (m0 : Q) (od0 : option Dimension),
    let adj dim := adjustedUncertainty64 (get (dimensions profile) dim) in
    (fold_left (uncertain_step64 profile) l (m0, od0) = (m0, od0)
     /\ forall dim, In dim l -> adj dim <= m0)
    \/ exists l1 d l2,
        l = l1 ++ d :: l2
        /\ fold_left (uncertain_step64 profile) l (m0, od0) = (adj d, Some d)
        /\ m0 < adj d
        /\ (forall dim, In dim l1 -> adj dim < adj d)
        /\ (forall dim, In dim l2 -> adj dim <= adj d).
Proof.
  induction l as [| a l IH]; intros m0 od0 adj.
  - left. cbn. tauto.
  - cbn [fold_left].
    change (uncertain_step64 profile (m0, od0) a)
      with (if m0 <? adj a then (adj a, Some a) else (m0, od0)).
    destruct (ltb_spec m0 (adj a)) as [Hlt | Hge].
    + right.
      destruct (IH (adj a) (Some a))
        as [[E Hall] | (l1 & d & l2 & -> & E & Hm & H1 & H2)].
      * exists [], a, l. cbn [app]. conjs; try assumption; try reflexivity.
        intros dim [].
      * exists (a :: l1), d, l2. cbn [app].
        conjs; try assumption; try reflexivity.
        -- unfold adj in *. lra.
        -- intros dim [<- | Hin]; [exact Hm | apply H1, Hin].
    + destruct (IH m0 od0)
        as [[E Hall] | (l1 & d & l2 & -> & E & Hm & H1 & H2)].
      * left. split; [assumption |].
        intros dim [<- | Hin]; [unfold adj in *; lra | apply Hall, Hin].
      * right. exists (a :: l1), d, l2. cbn [app].
        conjs; try assumption; try reflexivity.
        intros dim [<- | Hin]; [unfold adj in *; lra | apply H1, Hin].
Qed.

(** With ordered bounds the search in doubles always finds a dimension, the
    most uncertain one by the computed values. *)
Lemma findMostUncertainDimension64_spec (profile : StudentProfile) :
  ordered_bounds profile ->
  exists dim,
    findMostUncertainDimension64 profile = Some dim
    /\ most_uncertain64 profile dim.
Proof.
  intros Hord. unfold findMostUncertainDimension64.
  destruct (uncertain_loop64 profile DIMENSIONS 0 None)
    as [[_ Hall] | (l1 & d & l2 & Hsplit & E & Hm & H1 & H2)].
  - pose proof (Hall lowLevelBinary (in_DIMENSIONS _)) as H.
    pose proof (adjustedUncertainty64_pos _ (Hord lowLevelBinary)).
    cbv zeta in H. lra.
  - exists d. rewrite E. split; [reflexivity |]. split.
    + intros dim'. pose proof (in_DIMENSIONS dim') as Hin.
      rewrite Hsplit in Hin. apply in_app_or in Hin.
      destruct Hin as [Hin | [<- | Hin]].
      * apply Qlt_le_weak, H1, Hin.
      * lra.
      * apply H2, Hin.
    + intros dim' Hr. apply H1. apply (DIMENSIONS_split l1 l2 d dim' Hsplit Hr).
Qed.

Lemma useAI64_test (state : DimensionState) :
  (if (sub64 (upperBound state) (lowerBound state) <=? 2)
      || (3 <=? questionCount state)%nat
   then ai else bank) = ai
  <-> sub64 (upperBound state) (lowerBound state) <= 2
      \/ (3 <= questionCount state)%nat.
Proof.
  destruct (leb_spec (sub64 (upperBound state) (lowerBound state)) 2);
    destruct (Nat.leb_spec 3 (questionCount state)); cbn;
    split; intros Huse; try tauto; try discriminate; try reflexivity.
  destruct Huse; [tauto | lia].
Qed.

(** While some dimension is untested the selection involves no arithmetic:
    the engine in doubles and the engine in exact arithmetic select the
    same. *)
Lemma selectNextQuestion64_exploration (random : Q) (profile : StudentProfile)
    (dim : Dimension) :
  tested (get (dimensions profile) dim) = false ->
  selectNextQuestion64 random profile = selectNextQuestion random profile.
Proof.
  intros Hdim. unfold selectNextQuestion64, selectNextQuestion.
  pose proof
    (filter_head (fun dim => negb (tested (get (dimensions profile) dim)))
       DIMENSIONS) as Hhead.
  destruct (List.filter _ DIMENSIONS) as [| targetDim rest]; [| reflexivity].
  specialize (Hhead dim (in_DIMENSIONS dim)). cbn in Hhead.
  rewrite Hdim in Hhead. discriminate.
Qed.

(** C7, as the code has it. If some dimension is untested,
    [selectNextQuestion] returns the first untested dimension in the canonical
    order with target difficulty 3 and source bank. Otherwise, on every
    profile that the program builds (a fresh profile followed by bound
    updates), it returns the dimension whose adjusted uncertainty is maximal
    among the values that the program computes in double precision, the
    earliest one when computed values tie, with the rounded computed midpoint
    of its bounds clamped to [1,5] as target difficulty, and source ai
    exactly when its computed range is at most 2 or its question count at
    least 3. *)
Theorem selectNextQuestion_double_spec (random : Q) (profile : StudentProfile) :
  ((exists dim, tested (get (dimensions profile) dim) = false) ->
   exists sel,
     selectNextQuestion64 random profile = Some sel
     /\ first_untested profile (sel_dimension sel)
     /\ targetDifficulty sel = 3
     /\ source sel = bank)
  /\ (built64 profile ->
      (forall dim, tested (get (dimensions profile) dim) = true) ->
      exists sel,
        selectNextQuestion64 random profile = Some sel
        /\ most_uncertain64 profile (sel_dimension sel)
        /\ (let state := get (dimensions profile) (sel_dimension sel) in
            targetDifficulty sel
            = Math_max 1
                (Math_min 5
                   (Math_round
                      (div64 (add64 (lowerBound state) (upperBound state)) 2)))
            /\ (source sel = ai
                <-> sub64 (upperBound state) (lowerBound state) <= 2
                    \/ (3 <= questionCount state)%nat))).
Proof.
  split.
  - intros [dim Hdim]. unfold selectNextQuestion64.
    pose proof
      (filter_head (fun dim => negb (tested (get (dimensions profile) dim)))
         DIMENSIONS) as Hhead.
    destruct (List.filter _ DIMENSIONS) as [| targetDim rest].
    + specialize (Hhead dim (in_DIMENSIONS dim)). cbn in Hhead.
      rewrite Hdim in Hhead. discriminate.
    + destruct Hhead as (l1 & l2 & Hsplit & Hx & Hl1).
      eexists. split; [reflexivity |]. cbn [sel_dimension targetDifficulty source].
      unfold first_untested. conjs; try reflexivity.
      * apply negb_true_iff, Hx.
      * intros dim' Hr. apply negb_false_iff, Hl1.
        apply (DIMENSIONS_split l1 l2 targetDim dim' Hsplit Hr).
  - intros Hbuilt Hall.
    destruct (findMostUncertainDimension64_spec profile
                (built64_ordered _ Hbuilt)) as (dim & Hfind & Hmax).
    unfold selectNextQuestion64.
    rewrite (untested_filter_nil profile Hall), Hfind.
    eexists. split; [reflexivity |].
    cbn [sel_dimension targetDifficulty source].
    split; [exact Hmax |]. split.
    + unfold clampDifficulty. rewrite Math_round_idempotent. reflexivity.
    + apply useAI64_test.
Qed.

Lemma selectNextQuestion_double_spec_witness :
  let fresh := createStudentProfile "s1" None 0 in
  let profile := session64 tiedSession in
  (exists sel,
      selectNextQuestion64 0 fresh = Some sel
      /\ first_untested fresh (sel_dimension sel)
      /\ targetDifficulty sel = 3
      /\ source sel = bank)
  /\ (exists sel,
        selectNextQuestion64 0 profile = Some sel
        /\ most_uncertain64 profile (sel_dimension sel)
        /\ (let state := get (dimensions profile) (sel_dimension sel) in
            targetDifficulty sel
            = Math_max 1
                (Math_min 5
                   (Math_round
                      (div64 (add64 (lowerBound state) (upperBound state)) 2)))
            /\ (source sel = ai
                <-> sub64 (upperBound state) (lowerBound state) <= 2
                    \/ (3 <= questionCount state)%nat))).
Proof.
  intros fresh profile. split.
  - apply (proj1 (selectNextQuestion_double_spec 0 fresh)).
    exists lowLevelBinary. reflexivity.
  - apply (proj2 (selectNextQuestion_double_spec 0 profile)).
    + apply session64_built.
    + intros dim. destruct dim; vm_compute; reflexivity.
Defined.

(** C7 as stated fails on a profile that the program builds. After the nine
    answers of [tiedSession] every dimension is tested; lowLevelBinary holds
    the doubles 2.7 and 4.5 and controlFlow the doubles 1.7 and 3.5, with
    three questions each. The double 2.7 lies above 2.7 and the double 1.7
    below 1.7, so (upperBound - lowerBound) + 1/(questionCount+1) is larger
    for controlFlow; but both sums round to the same double, the strict
    comparison of the loop keeps the earlier dimension, and the selection is
    lowLevelBinary, which does not maximize the adjusted uncertainty. *)
Lemma selectNextQuestion_misses_exact_maximum :
  let profile := session64 tiedSession in
  built64 profile
  /\ (forall dim, tested (get (dimensions profile) dim) = true)
  /\ (forall random,
        selectNextQuestion64 random profile
        = Some (mkSelection lowLevelBinary 4 ai "oneLiner"))
  /\ adjustedUncertainty (get (dimensions profile) lowLevelBinary)
     < adjustedUncertainty (get (dimensions profile) controlFlow)
  /\ adjustedUncertainty64 (get (dimensions profile) lowLevelBinary)
     == adjustedUncertainty64 (get (dimensions profile) controlFlow)
  /\ ~ most_uncertain profile lowLevelBinary.
Proof.
  intros profile.
  assert (Hlt : adjustedUncertainty (get (dimensions profile) lowLevelBinary)
                < adjustedUncertainty (get (dimensions profile) controlFlow))
    by (vm_compute; reflexivity).
  conjs.
  - apply session64_built.
  - intros dim. destruct dim; vm_compute; reflexivity.
  - intros random. vm_compute. reflexivity.
  - exact Hlt.
  - vm_compute. reflexivity.
  - intros [Hmax _]. specialize (Hmax controlFlow). lra.
Qed.

(** The same answers evaluated in exact arithmetic and in doubles can lead
    to different selections. After [splitSession] the exact bounds of
    hardwareIO and codeReading give the same adjusted uncertainty, 0.8 + 1/3,
    and exact arithmetic selects hardwareIO, the earlier one; in doubles
    3.5 - 2.7 is smaller than 2.5 - 1.7, and the program selects
    codeReading. *)
Example exact_and_double_selection_differ :
  (forall random,
      selectNextQuestion random (sessionExact splitSession)
      = Some (mkSelection hardwareIO 3 ai "codeIDE"))
  /\ (forall random,
        selectNextQuestion64 random (session64 splitSession)
        = Some (mkSelection codeReading 2 ai "trace")).
Proof. split; intros random; vm_compute; reflexivity. Qed.

Lemma sessionExact_reachable (outcomes : list QuestionResponse) :
  reachable (sessionExact outcomes).
Proof.
  unfold sessionExact. generalize (reachable_fresh "s1" None 0).
  generalize (createStudentProfile "s1" None 0).
  induction outcomes as [| response rest IH]; intros profile Hr; cbn.
  - exact Hr.
  - apply IH. constructor. exact Hr.
Qed.

(** The search finds a dimension as soon as one adjusted uncertainty is
    positive. *)
Lemma findMostUncertainDimension_found (profile : StudentProfile)
    (dim : Dimension) :
  0 < adjustedUncertainty (get (dimensions profile) dim) ->
  exists dim', findMostUncertainDimension profile = Some dim'.
Proof.
  intros Hpos. unfold findMostUncertainDimension.
  destruct (uncertain_loop profile DIMENSIONS 0 None)
    as [[_ Hall] | (l1 & d & l2 & _ & E & _)].
  - specialize (Hall dim (in_DIMENSIONS dim)). cbv zeta in Hall. lra.
  - exists d. rewrite E. reflexivity.
Qed.

(** C10. On every profile that the program builds (a fresh profile followed
    by any number of bound updates) the adjusted uncertainty of every
    dimension is strictly positive, so [findMostUncertainDimension] never
    returns null; once all five dimensions are tested, [selectNextQuestion]
    returns the selection of the refinement branch whatever the random draw,
    so the trailing fallback is never reached. *)
Theorem fallback_unreachable (profile : StudentProfile) :
  reachable profile ->
  (forall dim, 0 < adjustedUncertainty (get (dimensions profile) dim))
  /\ findMostUncertainDimension profile <> None
  /\ ((forall dim, tested (get (dimensions profile) dim) = true) ->
      exists dim,
        findMostUncertainDimension profile = Some dim
        /\ forall random,
            selectNextQuestion random profile
            = Some (refinementSelection profile dim)).
Proof.
  intros Hreach.
  pose proof (valid_profile_ordered _ (reachable_valid _ Hreach)) as Hord.
  destruct (findMostUncertainDimension_spec profile Hord) as (dim & Hfind & _).
  conjs.
  - intros dim'. apply adjustedUncertainty_pos, Hord.
  - rewrite Hfind. discriminate.
  - intros Hall. exists dim. split; [exact Hfind |].
    intros random. apply selectNextQuestion_refinement; assumption.
Qed.

Lemma fallback_unreachable_witness :
  let profile := sessionExact tiedSession in
  (forall dim, tested (get (dimensions profile) dim) = true)
  /\ (forall dim, 0 < adjustedUncertainty (get (dimensions profile) dim))
  /\ findMostUncertainDimension profile <> None
  /\ ((forall dim, tested (get (dimensions profile) dim) = true) ->
      exists dim,
        findMostUncertainDimension profile = Some dim
        /\ forall random,
            selectNextQuestion random profile
            = Some (refinementSelection profile dim)).
Proof.
  intros profile. split.
  - intros dim. destruct dim; vm_compute; reflexivity.
  - apply (fallback_unreachable profile). apply sessionExact_reachable.
Defined.

(** The call of [selectNextQuestion] in the submit route receives the profile
    that [updateBounds] returns. Whatever profile entered the update, the
    dimension just answered has ordered bounds, so the search finds a
    dimension, and once all dimensions are tested the selection is that of
    the refinement branch. *)
Lemma refinement_after_update (profile : StudentProfile)
    (response : QuestionResponse) :
  let updatedProfile := updateBounds profile response in
  findMostUncertainDimension updatedProfile <> None
  /\ ((forall dim, tested (get (dimensions updatedProfile) dim) = true) ->
      exists dim,
        findMostUncertainDimension updatedProfile = Some dim
        /\ forall random,
            selectNextQuestion random updatedProfile
            = Some (refinementSelection updatedProfile dim)).
Proof.
  intros updatedProfile.
  destruct (findMostUncertainDimension_found updatedProfile (dimension response))
    as [dim Hfind].
  { apply adjustedUncertainty_pos. unfold updatedProfile.
    rewrite updateBounds_target.
    apply (updateDimState_valid
             (get (dimensions profile) (dimension response)) response). }
  split.
  - rewrite Hfind. discriminate.
  - intros Hall. exists dim. split; [exact Hfind |].
    intros random. apply selectNextQuestion_refinement; assumption.
Qed.

(** The same in double precision: on every profile that the program builds
    the computed adjusted uncertainties are positive and the search finds a
    dimension; once all dimensions are tested the selection is that
    dimension with the question type of the refinement branch, whatever the
    random draw. *)
Lemma findMostUncertainDimension64_found (profile : StudentProfile) :
  built64 profile ->
  (forall dim, 0 < adjustedUncertainty64 (get (dimensions profile) dim))
  /\ findMostUncertainDimension64 profile <> None
  /\ ((forall dim, tested (get (dimensions profile) dim) = true) ->
      exists dim,
        findMostUncertainDimension64 profile = Some dim
        /\ forall random,
            exists sel,
              selectNextQuestion64 random profile = Some sel
              /\ sel_dimension sel = dim
              /\ questionType sel = getQuestionTypeForDimension dim refinement).
Proof.
  intros Hbuilt. pose proof (built64_ordered _ Hbuilt) as Hord.
  destruct (findMostUncertainDimension64_spec profile Hord)
    as (dim & Hfind & _).
  conjs.
  - intros dim'. apply adjustedUncertainty64_pos, Hord.
  - rewrite Hfind. discriminate.
  - intros Hall. exists dim. split; [exact Hfind |]. intros random.
    unfold selectNextQuestion64.
    rewrite (untested_filter_nil profile Hall), Hfind.
    eexists. split; [reflexivity |]. split; reflexivity.
Qed.

(** The null guard of [selectNextQuestion] is live only outside the profiles
    that the program builds: on the record with every pair of bounds
    inverted, which no update produces, the adjusted uncertainties are
    negative, [findMostUncertainDimension] returns null, and the fallback
    answers with a dimension that follows the random draw. *)
Lemma fallback_reached_on_inverted_bounds :
  (forall dim, tested (get (dimensions invertedProfile) dim) = true)
  /\ (forall dim,
        adjustedUncertainty (get (dimensions invertedProfile) dim) < 0)
  /\ findMostUncertainDimension invertedProfile = None
  /\ selectNextQuestion 0 invertedProfile
     = Some (mkSelection lowLevelBinary 5 bank
               (getQuestionTypeForDimension lowLevelBinary completion))
  /\ selectNextQuestion 0.5 invertedProfile
     = Some (mkSelection hardwareIO 5 bank
               (getQuestionTypeForDimension hardwareIO completion)).
Proof.
  conjs; try reflexivity; intros dim; destruct dim; reflexivity.
Qed.

(** ** Sharing between the argument and the result of updateBounds *)

Lemma newProfile_fresh (st : Store) (p : StudentProfileOf ref) :
  profiles st !! snd (newProfile st p) = None.
Proof.
  cbn. apply not_elem_of_dom, is_fresh.
Qed.

Lemma snapshot_inv (st : Store) (profile : ref) (v : StudentProfile) :
  snapshot st profile = Some v ->
  exists p rec,
    profiles st !! profile = Some p
    /\ records st !! dimensions p = Some rec
    /\ (forall dim, states st !! get rec dim = Some (get (dimensions v) dim))
    /\ v = with_dimensions p (dimensions v).
Proof.
  unfold snapshot. intros H.
  destruct (profiles st !! profile) as [p |] eqn:Hp; [| discriminate].
  cbn in H.
  destruct (records st !! dimensions p) as [rec |] eqn:Hrec; [| discriminate].
  cbn in H.
  destruct (states st !! at_lowLevelBinary rec) as [s1 |] eqn:E1;
    [| discriminate]. cbn in H.
  destruct (states st !! at_controlFlow rec) as [s2 |] eqn:E2;
    [| discriminate]. cbn in H.
  destruct (states st !! at_hardwareIO rec) as [s3 |] eqn:E3;
    [| discriminate]. cbn in H.
  destruct (states st !! at_codeReading rec) as [s4 |] eqn:E4;
    [| discriminate]. cbn in H.
  destruct (states st !! at_decomposition rec) as [s5 |] eqn:E5;
    [| discriminate]. cbn in H.
  injection H as <-. exists p, rec. conjs; try reflexivity; try assumption.
  intros dim. destruct dim; assumption.
Qed.

Lemma snapshot_intro (st : Store) (profile : ref) (p : StudentProfileOf ref)
    (rec : PerDimension ref) (dims : PerDimension DimensionState) :
  profiles st !! profile = Some p ->
  records st !! dimensions p = Some rec ->
  (forall dim, states st !! get rec dim = Some (get dims dim)) ->
  snapshot st profile = Some (with_dimensions p dims).
Proof.
  intros Hp Hrec Hs. unfold snapshot. rewrite Hp. cbn. rewrite Hrec. cbn.
  pose proof (Hs lowLevelBinary) as H1. pose proof (Hs controlFlow) as H2.
  pose proof (Hs hardwareIO) as H3. pose proof (Hs codeReading) as H4.
  pose proof (Hs decomposition) as H5. cbn [get] in H1, H2, H3, H4, H5.
  rewrite H1, H2, H3, H4, H5. destruct dims. reflexivity.
Qed.

Lemma separate_get (rec : PerDimension ref) (dim dim' : Dimension) :
  NoDup (map (get rec) DIMENSIONS) ->
  get rec dim = get rec dim' -> dim = dim'.
Proof.
  destruct rec as [l1 l2 l3 l4 l5]. cbn.
  rewrite !NoDup_cons, !not_elem_of_cons.
  intros H E. destruct dim, dim'; cbn in E; try reflexivity; exfalso;
    intuition congruence.
Qed.

(** C8, as the code has it. [updateBounds] writes to the targeted
    DimensionState object of its argument and returns a new profile object
    that points to the same [dimensions]: after the call the input profile
    object still has its own properties, but the DimensionStates seen through
    the input and through the returned profile are the same, updated ones;
    the four other DimensionStates are unchanged. *)
Theorem updateBounds_shares_dimensions (st : Store) (profile : ref)
    (response : QuestionResponse) (v : StudentProfile) :
  snapshot st profile = Some v ->
  separate_states st profile ->
  exists st' profile',
    updateBounds_store st profile response = Some (st', profile')
    /\ profile' <> profile
    /\ profiles st' !! profile = profiles st !! profile
    /\ profiles st' !! profile' = profiles st !! profile
    /\ snapshot st' profile = Some (updateBounds v response)
    /\ snapshot st' profile' = Some (updateBounds v response).
Proof.
  intros Hsnap Hsep.
  destruct (snapshot_inv st profile v Hsnap) as (p & rec & Hp & Hrec & Hs & Hv).
  specialize (Hsep p rec Hp Hrec).
  unfold updateBounds_store. rewrite Hp. cbn. rewrite Hrec. cbn.
  rewrite (Hs (dimension response)). cbn.
  set (l := get rec (dimension response)).
  set (upd := updateDimState (get (dimensions v) (dimension response)) response).
  set (st1 := mkStore (profiles st) (records st) (<[l := upd]> (states st))).
  pose proof (newProfile_fresh st1 p) as Hfresh. cbn in Hfresh.
  set (profile' := fresh (dom (profiles st))) in *.
  assert (Hne : profile' <> profile) by congruence.
  assert (Hstates : forall dim,
             (<[l := upd]> (states st)) !! get rec dim
             = Some (get (set (dimensions v) (dimension response) upd) dim)).
  { intros dim. destruct (Dimension_eq_dec (dimension response) dim) as [<- | Hd].
    - rewrite get_set_eq. apply lookup_insert_eq.
    - rewrite get_set_ne by assumption.
      rewrite lookup_insert_ne; [apply Hs |].
      intros E. apply Hd. apply (separate_get rec _ _ Hsep E). }
  assert (Hupd : updateBounds v response
                 = with_dimensions p
                     (set (dimensions v) (dimension response) upd)).
  { unfold updateBounds. fold upd. rewrite Hv at 1. reflexivity. }
  eexists _, profile'. conjs.
  - reflexivity.
  - exact Hne.
  - cbn. rewrite lookup_insert_ne by exact Hne. exact Hp.
  - cbn. apply lookup_insert_eq.
  - rewrite Hupd. apply snapshot_intro with (rec := rec); cbn.
    + rewrite lookup_insert_ne by exact Hne. exact Hp.
    + exact Hrec.
    + exact Hstates.
  - rewrite Hupd. apply snapshot_intro with (rec := rec); cbn.
    + apply lookup_insert_eq.
    + exact Hrec.
    + exact Hstates.
Qed.

Lemma updateBounds_shares_dimensions_witness :
  let st := fst (createStudentProfile_store emptyStore "s1" None 0) in
  let profile := snd (createStudentProfile_store emptyStore "s1" None 0) in
  let response := mkQuestionResponse lowLevelBinary 3 true false 1000 0 in
  let v := createStudentProfile "s1" None 0 in
  exists st' profile',
    updateBounds_store st profile response = Some (st', profile')
    /\ profile' <> profile
    /\ profiles st' !! profile = profiles st !! profile
    /\ profiles st' !! profile' = profiles st !! profile
    /\ snapshot st' profile = Some (updateBounds v response)
    /\ snapshot st' profile' = Some (updateBounds v response).
Proof.
  intros st profile response v.
  apply (updateBounds_shares_dimensions st profile response v).
  - vm_compute. reflexivity.
  - intros p rec Hp Hrec.
    vm_compute in Hp. injection Hp as <-.
    vm_compute in Hrec. injection Hrec as <-.
    apply (bool_decide_unpack _). vm_compute. exact I.
Defined.

(** C8 as stated fails: on a fresh profile in the store, a correct answer at
    difficulty 3 for lowLevelBinary leaves the DimensionState of the input
    profile with [questionCount = 1], [tested = true] and [lowerBound = 2.7]
    instead of the original 0, false and 1. *)
Lemma updateBounds_mutates_argument :
  let st := fst (createStudentProfile_store emptyStore "s1" None 0) in
  let profile := snd (createStudentProfile_store emptyStore "s1" None 0) in
  let response := mkQuestionResponse lowLevelBinary 3 true false 1000 0 in
  exists st' profile' before after,
    updateBounds_store st profile response = Some (st', profile')
    /\ snapshot st profile = Some before
    /\ snapshot st' profile = Some after
    /\ get (dimensions before) lowLevelBinary
       = mkDimensionState 1 5 false 0 0
    /\ get (dimensions after) lowLevelBinary
       = mkDimensionState 2.7 5 true 1 1
    /\ after <> before.
Proof.
  intros st profile response.
  destruct (updateBounds_store st profile response) as [[st' profile'] |] eqn:E;
    [| vm_compute in E; discriminate].
  exists st', profile'.
  vm_compute in E. injection E as <- <-.
  eexists _, _. conjs.
  - reflexivity.
  - vm_compute. reflexivity.
  - vm_compute. reflexivity.
  - reflexivity.
  - reflexivity.
  - intros H. discriminate H.
Qed.

(** ** Hint behaviour *)

(** C9. On the empty list of hint events [analyzeHintBehavior] returns the
    defaults: help-seeking style balanced, most effective hint type none,
    effectiveness 0, no hints used, average time to ask 0 and an empty
    distribution (the learning mode is theory_first). The function is total:
    no division is evaluated on this path. *)
Theorem analyzeHintBehavior_empty :
  HintAnalysis.analyzeHintBehavior []
  = HintAnalysis.mkHintProfile HintAnalysis.balanced "none"
      HintAnalysis.theory_first 0 0 0 [].
Proof. reflexivity. Qed.

(** ** Worked scenarios *)

(** Scenario B: bounds [1,5], no question asked yet, wrong answer at
    difficulty 3: the upper bound becomes 2.5. *)
Example wrong_answer_on_fresh_dimension :
  updateDimState initialDimState
    (mkQuestionResponse hardwareIO 3 false false 1000 0)
  = mkDimensionState 1 2.5 true 1 0.
Proof. reflexivity. Qed.

(** With hardwareIO at [1,5] after one question, the refinement branch picks
    it (widest range, earliest on the tie with decomposition) at difficulty 3
    from the bank. *)
Example refinement_choice :
  selectNextQuestion 0
    (mkStudentProfile "s2" None refinement 6%nat 0
       (mkPerDimension
          (mkDimensionState 2.7 5 true 1 1) (mkDimensionState 1 2.5 true 2 0)
          (mkDimensionState 1 5 true 1 0) (mkDimensionState 3 4 true 1 1)
          (mkDimensionState 1 5 true 1 0))
       0 0%nat 0%nat)
  = Some (mkSelection hardwareIO 3 bank "codeIDE").
Proof. reflexivity. Qed.

(** Three hint events: asked after 24 s on average, the example hint has the
    highest success rate, the conceptual hint is the most used. *)
Example analyzeHintBehavior_three_events :
  HintAnalysis.analyzeHintBehavior
    [HintAnalysis.mkHintEvent HintAnalysis.example 20000
       (Some HintAnalysis.answered_correctly);
     HintAnalysis.mkHintEvent HintAnalysis.conceptual 50000 None;
     HintAnalysis.mkHintEvent HintAnalysis.conceptual 2000
       (Some HintAnalysis.answered_correctly)]
  = HintAnalysis.mkHintProfile HintAnalysis.quick_to_ask "example"
      HintAnalysis.theory_first (2 # 3) 3 (72000 # 3000)
      [(HintAnalysis.example, 1%nat); (HintAnalysis.conceptual, 2%nat)].
Proof. reflexivity. Qed.


(** * Further properties of the engine *)

(** ** The verdict rules *)

(** The bounds after a wrong verdict, in closed form. With bounds on the scale
    the clamps change nothing and the pair is never inverted. *)
Lemma updateDimState_wrong (s : DimensionState) (response : QuestionResponse) :
  valid_bounds s ->
  correct response = false ->
  partial response = false ->
  upperBound (updateDimState s response)
  == Math_min (upperBound s)
       (Math_max (if lenient s then lowerBound s + 0.3 else lowerBound s)
          (difficulty response - 0.5))
  /\ lowerBound (updateDimState s response)
     == (if lenient s then lowerBound s
         else if accuracy s <? 0.4
              then Math_min (lowerBound s)
                     (Math_max 1 (difficulty response - 1.5))
              else lowerBound s).
Proof.
  intros [H1 [HLU H5]] Hc Hp. unfold lenient. destruct s as [L U t q c].
  unfold updateDimState, restoreBounds, applyVerdict. rewrite Hc, Hp.
  fields. cbn [lowerBound upperBound questionCount] in *.
  generalize (accuracy (mkDimensionState L U t q c)); intros a.
  destruct ((0.7 <? a) && (3 <=? q + 1)%nat); fields.
  - split_num; fields; split_num; split; qlra.
  - destruct (ltb_spec a 0.4); fields; split_num; fields; split_num;
      split; qlra.
Qed.

(** X1. A wrong answer on bounds that are on the scale never raises a bound:
    the new upper bound is at most the old one, the new lower bound is at
    most the old one and still at least 1. Unless the rule is lenient, the
    upper bound ends at or below max(lowerBound, difficulty - 0.5). *)
Theorem wrong_answer_never_raises_bounds (profile : StudentProfile)
    (response : QuestionResponse) :
  let before := get (dimensions profile) (dimension response) in
  let after :=
    get (dimensions (updateBounds profile response)) (dimension response) in
  valid_bounds before ->
  correct response = false ->
  partial response = false ->
  upperBound after <= upperBound before
  /\ lowerBound after <= lowerBound before
  /\ 1 <= lowerBound after
  /\ (lenient before = false ->
      upperBound after
      <= Math_max (lowerBound before) (difficulty response - 0.5)).
Proof.
  intros before after Hv Hc Hp. subst after.
  rewrite updateBounds_target. fold before.
  destruct (updateDimState_wrong before response Hv Hc Hp) as [Hub Hlb].
  rewrite Hub, Hlb. destruct Hv as [H1 [HLU H5]]. clearbody before.
  destruct (lenient before); conjs;
    [| | | intros Hl; try discriminate Hl | | | | intros Hl];
    split_num; qlra.
Qed.

Lemma wrong_answer_never_raises_bounds_witness :
  let profile := createStudentProfile "s1" None 0 in
  let response := mkQuestionResponse hardwareIO 3 false false 1000 0 in
  let after := get (dimensions (updateBounds profile response)) hardwareIO in
  upperBound after <= 5
  /\ lowerBound after <= 1
  /\ 1 <= lowerBound after
  /\ (lenient initialDimState = false ->
      upperBound after <= Math_max 1 (3 - 0.5)).
Proof.
  intros profile response.
  apply (wrong_answer_never_raises_bounds profile response).
  - unfold valid_bounds. vm_compute. conjs; discriminate.
  - reflexivity.
  - reflexivity.
Defined.



(** The upper bound after a correct verdict, in closed form. *)
Lemma updateDimState_correct_upperBound (s : DimensionState)
    (response : QuestionResponse) :
  valid_bounds s ->
  correct response = true ->
  upperBound (updateDimState s response)
  == Math_max (lowerBound (updateDimState s response))
       (if 0.6 <? accuracy s
        then Math_max (upperBound s) (Math_min 5 (difficulty response + 1.5))
        else upperBound s).
Proof.
  intros [H1 [HLU H5]] Hc. destruct s as [L U t q c].
  unfold updateDimState, restoreBounds, applyVerdict. rewrite Hc.
  fields. cbn [lowerBound upperBound] in *.
  generalize (accuracy (mkDimensionState L U t q c)); intros a.
  destruct (ltb_spec 0.6 a); fields; split_num; fields; split_num; qlra.
Qed.

(** X3. A correct answer on bounds that are on the scale never lowers a
    bound; when the accuracy so far exceeds 0.6 the upper bound is raised to
    at least min(5, difficulty + 1.5). *)
Theorem correct_answer_never_lowers_bounds (profile : StudentProfile)
    (response : QuestionResponse) :
  let before := get (dimensions profile) (dimension response) in
  let after :=
    get (dimensions (updateBounds profile response)) (dimension response) in
  valid_bounds before ->
  correct response = true ->
  lowerBound before <= lowerBound after
  /\ upperBound before <= upperBound after
  /\ (0.6 < accuracy before ->
      Math_min 5 (difficulty response + 1.5) <= upperBound after).
Proof.
  intros before after Hv Hc. subst after.
  rewrite updateBounds_target. fold before. clearbody before.
  pose proof (updateDimState_correct_upperBound before response Hv Hc) as Hub.
  pose proof (updateDimState_correct_lowerBound before response Hc) as Hlb.
  destruct Hv as [H1 [HLU H5]].
  assert (HL : lowerBound before <= lowerBound (updateDimState before response))
    by (rewrite Hlb; split_num; qlra).
  conjs.
  - exact HL.
  - rewrite Hub. destruct (0.6 <? accuracy before); split_num; qlra.
  - intros Ha. rewrite Hub.
    destruct (ltb_spec 0.6 (accuracy before)); [| lra]. split_num; qlra.
Qed.

Lemma correct_answer_never_lowers_bounds_witness :
  let s := mkDimensionState 2 3 true 2 2 in
  let profile :=
    mkStudentProfile "s1" None refinement 8%nat 0
      (mkPerDimension s s s s s) 0 0%nat 0%nat in
  let response := mkQuestionResponse codeReading 3 true false 1000 0 in
  let after := get (dimensions (updateBounds profile response)) codeReading in
  2 <= lowerBound after
  /\ 3 <= upperBound after
  /\ (0.6 < accuracy s -> Math_min 5 (3 + 1.5) <= upperBound after).
Proof.
  intros s profile response.
  apply (correct_answer_never_lowers_bounds profile response).
  - unfold valid_bounds. vm_compute. conjs; discriminate.
  - reflexivity.
Defined.

(** ** Counters *)

Lemma updateDimState_correctCount (s : DimensionState)
    (response : QuestionResponse) :
  correctCount (updateDimState s response)
  = (correctCount s + if correct response then 1 else 0)%nat.
Proof.
  destruct s as [L U t q c].
  unfold updateDimState, restoreBounds, applyVerdict. fields.
  repeat match goal with
    | |- context [if ?b then _ else _] => destruct b; fields
    end; lia.
Qed.

Lemma updateDimState_consistent (s : DimensionState)
    (response : QuestionResponse) :
  consistent_counters s -> consistent_counters (updateDimState s response).
Proof.
  intros [Hle Ht]. unfold consistent_counters.
  destruct (updateDimState_counters s response) as [Ht' Hq'].
  rewrite Ht', Hq', updateDimState_correctCount.
  split; [destruct (correct response); lia |].
  split; [lia | reflexivity].
Qed.

Lemma reachable_consistent (profile : StudentProfile) :
  reachable profile ->
  forall dim, consistent_counters (get (dimensions profile) dim).
Proof.
  induction 1 as [sid name now | profile response _ IH]; intros dim.
  - unfold consistent_counters.
    destruct dim; cbn; (split; [lia | split; [discriminate | lia]]).
  - destruct (Dimension_eq_dec dim (dimension response)) as [-> | Hne].
    + rewrite updateBounds_target. apply updateDimState_consistent, IH.
    + rewrite updateBounds_other by assumption. apply IH.
Qed.

(** X4. Every profile obtained from a fresh one by bound updates keeps, in
    every dimension, the bounds on the scale and ordered, at most as many
    correct answers as questions, and [tested] set exactly when at least one
    question was counted. *)
Theorem reachable_invariant (profile : StudentProfile) :
  reachable profile ->
  forall dim,
    valid_bounds (get (dimensions profile) dim)
    /\ consistent_counters (get (dimensions profile) dim).
Proof.
  intros H dim. split.
  - apply reachable_valid, H.
  - apply reachable_consistent, H.
Qed.

Lemma reachable_invariant_witness :
  let profile :=
    updateBounds
      (updateBounds (createStudentProfile "s1" None 0)
         (mkQuestionResponse decomposition 5 true false 1000 0))
      (mkQuestionResponse decomposition 1 false true 1000 0) in
  valid_bounds (get (dimensions profile) decomposition)
  /\ consistent_counters (get (dimensions profile) decomposition).
Proof.
  intros profile.
  apply (reachable_invariant profile).
  apply reachable_update, reachable_update, reachable_fresh.
Defined.

(** ** The session *)

Lemma submitAnswer_dimensions (profile : StudentProfile)
    (response : QuestionResponse) :
  dimensions (fst (submitAnswer profile response))
  = dimensions (updateBounds profile response).
Proof. reflexivity. Qed.

Lemma submitAnswer_phase (profile : StudentProfile)
    (response : QuestionResponse) :
  currentPhase (fst (submitAnswer profile response))
  = determinePhase (fst (submitAnswer profile response)).
Proof. reflexivity. Qed.

Lemma totalQuestionCount_update (profile : StudentProfile)
    (response : QuestionResponse) :
  totalQuestionCount (updateBounds profile response)
  = (totalQuestionCount profile + 1)%nat.
Proof.
  unfold totalQuestionCount, updateBounds, DIMENSIONS.
  cbn [dimensions with_dimensions map list_sum fold_right].
  destruct (updateDimState_counters
              (get (dimensions profile) (dimension response)) response)
    as [_ Hq].
  destruct (dimension response); cbn [get set at_lowLevelBinary at_controlFlow
    at_hardwareIO at_codeReading at_decomposition] in *; rewrite Hq; lia.
Qed.

Lemma in_session_counters (profile : StudentProfile) :
  in_session profile ->
  questionsAnswered profile = totalQuestionCount profile
  /\ currentPhase profile = determinePhase profile.
Proof.
  induction 1 as [sid name now | profile response _ [IHq IHp]].
  - split; reflexivity.
  - split; [| apply submitAnswer_phase].
    rewrite submitAnswer_questionsAnswered, IHq.
    unfold totalQuestionCount at 2. rewrite submitAnswer_dimensions.
    symmetry. apply totalQuestionCount_update.
Qed.

(** X5. Along a session the counters stay in step: the number of answered
    questions of the profile is the sum of the question counts of its five
    dimensions. *)
Theorem session_counters_in_step (profile : StudentProfile) :
  in_session profile ->
  questionsAnswered profile = totalQuestionCount profile.
Proof.
  induction 1 as [sid name now | profile response _ IH].
  - reflexivity.
  - rewrite submitAnswer_questionsAnswered, IH.
    unfold totalQuestionCount at 2. rewrite submitAnswer_dimensions.
    symmetry. apply totalQuestionCount_update.
Qed.

Lemma session_counters_in_step_witness :
  let profile :=
    fst (submitAnswer (createStudentProfile "s1" None 0)
           (mkQuestionResponse hardwareIO 3 true false 1000 1)) in
  questionsAnswered profile = totalQuestionCount profile.
Proof.
  intros profile.
  apply (session_counters_in_step profile).
  apply in_session_answer, in_session_fresh.
Defined.

Lemma determinePhase_spec_aux (profile : StudentProfile) :
  determinePhase profile = completion ->
  (5 <= questionsAnswered profile)%nat
  /\ forall dim, converged (get (dimensions profile) dim).
Proof.
  unfold determinePhase, EXPLORATION_QUESTIONS_MIN.
  destruct (Nat.ltb_spec (questionsAnswered profile) 5); [discriminate |].
  destruct (negb _); [discriminate |].
  match goal with
  | |- context [if ?b then _ else _] => destruct b eqn:Hc
  end; [| discriminate].
  intros _. split; [assumption |].
  intros dim. apply converged_test.
  rewrite forallb_DIMENSIONS in Hc. apply Hc.
Qed.

Lemma completion_needs_fifteen (profile : StudentProfile) :
  determinePhase profile = completion ->
  (15 <= totalQuestionCount profile)%nat.
Proof.
  intros Hphase.
  destruct (determinePhase_spec_aux profile) as [Hge Hall]; [exact Hphase |].
  unfold totalQuestionCount, DIMENSIONS. cbn [map list_sum fold_right].
  pose proof (Hall lowLevelBinary) as [_ H1].
  pose proof (Hall controlFlow) as [_ H2].
  pose proof (Hall hardwareIO) as [_ H3].
  pose proof (Hall codeReading) as [_ H4].
  pose proof (Hall decomposition) as [_ H5]. lia.
Qed.

Lemma runSession_in_session (outcomes : list QuestionResponse) :
  forall profile : StudentProfile,
    in_session profile -> in_session (fst (runSession profile outcomes)).
Proof.
  induction outcomes as [| response rest IH]; intros profile Hs.
  - exact Hs.
  - cbn [runSession].
    pose proof (in_session_answer profile response Hs) as Hnext.
    destruct (submitAnswer profile response) as [updated gate].
    destruct gate; [exact Hnext | apply IH, Hnext].
Qed.

(** X6. A session that starts from a fresh profile is never stopped by the
    completion gate before 15 questions are answered, and 15 can be enough:
    three correct answers at difficulty 5 in each dimension complete it. *)
Theorem session_needs_fifteen_answers :
  (forall profile : StudentProfile,
      in_session profile ->
      shouldCompleteAssessment profile = true ->
      (15 <= questionsAnswered profile)%nat)
  /\ (forall sessionId studentName now,
        let final :=
          runSession (createStudentProfile sessionId studentName now)
            fifteenCorrect in
        snd final = true /\ questionsAnswered (fst final) = 15%nat).
Proof.
  split.
  - intros profile Hs Hgate.
    destruct (in_session_counters profile Hs) as [Hq Hp].
    unfold shouldCompleteAssessment in Hgate.
    destruct (Nat.leb_spec 25 (questionsAnswered profile)); [lia |].
    destruct (is_completion (currentPhase profile)) eqn:Hc.
    + rewrite Hq. apply completion_needs_fifteen.
      rewrite <- Hp. destruct (currentPhase profile); try discriminate.
      reflexivity.
    + apply andb_true_iff in Hgate. destruct Hgate as [_ Hmin].
      apply Nat.leb_le in Hmin. cbn in Hmin. lia.
  - intros sid name now. split; vm_compute; reflexivity.
Qed.

Lemma session_needs_fifteen_answers_witness :
  let profile :=
    fst (runSession (createStudentProfile "s1" None 0) fifteenCorrect) in
  (15 <= questionsAnswered profile)%nat.
Proof.
  intros profile.
  apply (proj1 session_needs_fifteen_answers profile).
  - apply runSession_in_session, in_session_fresh.
  - vm_compute. reflexivity.
Defined.

(** ** Derived scores *)

Lemma of_nat_nonneg (n : nat) : 0 <= of_nat n.
Proof.
  unfold of_nat. change 0 with (inject_Z 0). rewrite <- Zle_Qle. lia.
Qed.

Lemma of_nat_pos (n : nat) : (0 < n)%nat -> 0 < of_nat n.
Proof.
  intros H. unfold of_nat. change 0 with (inject_Z 0). rewrite <- Zlt_Qlt. lia.
Qed.

(** The observed accuracy is a fraction. *)
Lemma accuracy_range (s : DimensionState) :
  (correctCount s <= questionCount s)%nat -> 0 <= accuracy s <= 1.
Proof.
  intros Hle. unfold accuracy.
  destruct (Nat.ltb_spec 0 (questionCount s)) as [Hq | Hq]; [| lra].
  pose proof (of_nat_pos _ Hq) as Hpos.
  pose proof (of_nat_nonneg (correctCount s)) as Hc.
  pose proof (of_nat_le _ _ Hle) as Hcq.
  split.
  - apply Qle_shift_div_l; [assumption | lra].
  - apply Qle_shift_div_r; [assumption | lra].
Qed.

Lemma confidence_bounds (s : DimensionState) :
  valid_bounds s ->
  (correctCount s <= questionCount s)%nat ->
  0 <= calculateConfidence s <= 1
  /\ (1 - (upperBound s - lowerBound s) / 4) * 0.5 <= calculateConfidence s.
Proof.
  intros [H1 [HLU H5]] Hle.
  pose proof (accuracy_range s Hle) as [Ha0 Ha1].
  pose proof (of_nat_nonneg (questionCount s)) as Hq.
  unfold calculateConfidence.
  generalize dependent (accuracy s). intros a Ha0 Ha1.
  generalize dependent (of_nat (questionCount s)). intros n Hn.
  split_num; conjs; qlra.
Qed.

(** X7. For a DimensionState with bounds on the scale and at most as many
    correct answers as questions, [calculateConfidence] lies between 0 and 1;
    it is at least half the range confidence 1 - (upper - lower)/4. *)
Theorem calculateConfidence_range (s : DimensionState) :
  valid_bounds s ->
  (correctCount s <= questionCount s)%nat ->
  0 <= calculateConfidence s <= 1
  /\ (1 - (upperBound s - lowerBound s) / 4) * 0.5 <= calculateConfidence s.
Proof. apply confidence_bounds. Qed.

Lemma calculateConfidence_range_witness :
  let s := mkDimensionState 2.7 3.5 true 4 3 in
  0 <= calculateConfidence s <= 1
  /\ (1 - (3.5 - 2.7) / 4) * 0.5 <= calculateConfidence s.
Proof.
  intros s.
  apply (calculateConfidence_range s).
  - unfold valid_bounds. vm_compute. conjs; discriminate.
  - cbn. lia.
Defined.

Lemma Math_round_mono (x y : Q) : x <= y -> Math_round x <= Math_round y.
Proof.
  intros H. unfold Math_round. rewrite <- Zle_Qle.
  apply Qfloor_resp_le. lra.
Qed.

Lemma Math_round_near (x : Q) :
  x - (1 # 2) < Math_round x /\ Math_round x <= x + (1 # 2).
Proof.
  unfold Math_round.
  pose proof (Qfloor_le (x + (1 # 2))) as Hle.
  pose proof (Qlt_floor (x + (1 # 2))) as Hlt.
  rewrite inject_Z_plus in Hlt. change (inject_Z 1) with 1 in Hlt.
  split; lra.
Qed.

Lemma clampDifficulty_on_grid (value : Q) : on_grid (clampDifficulty value).
Proof.
  unfold clampDifficulty, on_grid, Math_round.
  set (z := Qfloor (value + (1 # 2))).
  destruct (Math_min_cases 5 (inject_Z z)) as [[Hm ->] | [Hm ->]].
  - exists 5%Z. split; [| lia].
    destruct (Math_max_cases 1 5) as [[_ ->] | [H ->]]; [reflexivity | lra].
  - destruct (Math_max_cases 1 (inject_Z z)) as [[H ->] | [H ->]].
    + exists z. split; [reflexivity |].
      change 1 with (inject_Z 1) in H. change 5 with (inject_Z 5) in Hm.
      rewrite <- Zlt_Qlt in H, Hm. lia.
    + exists 1%Z. split; [reflexivity | lia].
Qed.

(** X8. [clampDifficulty] always returns one of the grid values 1..5; it
    leaves a grid value as it is, and moves a number of the scale [1,5] by at
    most one half. *)
Theorem clampDifficulty_spec (value : Q) :
  on_grid (clampDifficulty value)
  /\ (on_grid value -> clampDifficulty value = value)
  /\ (1 <= value <= 5 ->
      value - (1 # 2) <= clampDifficulty value <= value + (1 # 2)).
Proof.
  conjs.
  - apply clampDifficulty_on_grid.
  - intros (z & -> & Hz). unfold clampDifficulty.
    rewrite Math_round_integer.
    assert (H1 : 1 <= inject_Z z)
      by (change 1 with (inject_Z 1); rewrite <- Zle_Qle; lia).
    assert (H5 : inject_Z z <= 5)
      by (change 5 with (inject_Z 5); rewrite <- Zle_Qle; lia).
    destruct (Math_min_cases 5 (inject_Z z)) as [[Hm E] | [Hm E]]; rewrite E.
    + assert (Hz5 : z = 5%Z).
      { change 5 with (inject_Z 5) in Hm. rewrite <- Zle_Qle in Hm. lia. }
      subst z.
      destruct (Math_max_cases 1 5) as [[_ ->] | [H ->]]; [reflexivity | lra].
    + destruct (Math_max_cases 1 (inject_Z z)) as [[H ->] | [H E1]];
        [reflexivity |].
      rewrite E1.
      assert (Hz1 : z = 1%Z).
      { change 1 with (inject_Z 1) in H. rewrite <- Zle_Qle in H. lia. }
      subst z. reflexivity.
  - intros [H1 H5]. unfold clampDifficulty.
    pose proof (Math_round_near value) as [Hlo Hhi].
    split_num; split; lra.
Qed.

Lemma clampDifficulty_spec_witness :
  clampDifficulty 4 = 4
  /\ 3.4 - (1 # 2) <= clampDifficulty 3.4 <= 3.4 + (1 # 2).
Proof.
  split.
  - apply (proj1 (proj2 (clampDifficulty_spec 4))).
    exists 4%Z. split; [reflexivity | lia].
  - apply (proj2 (proj2 (clampDifficulty_spec 3.4))).
    split; vm_compute; discriminate.
Defined.

Lemma estimatedLevel_bounds (s : DimensionState) :
  valid_bounds s ->
  on_grid (getEstimatedLevel s)
  /\ Math_round (lowerBound s) <= getEstimatedLevel s
  /\ getEstimatedLevel s <= Math_round (upperBound s).
Proof.
  intros [H1 [HLU H5]]. unfold getEstimatedLevel.
  split; [apply clampDifficulty_on_grid |].
  set (estimated :=
         lowerBound s * (if 0.6 <? accuracy s then 0.6 else 0.4)
         + upperBound s * (1 - (if 0.6 <? accuracy s then 0.6 else 0.4))).
  assert (Hest : lowerBound s <= estimated <= upperBound s)
    by (subst estimated; destruct (0.6 <? accuracy s); split; lra).
  destruct Hest as [Hlo Hhi].
  pose proof (Math_round_mono _ _ Hlo) as Rlo.
  pose proof (Math_round_mono _ _ Hhi) as Rhi.
  pose proof (Math_round_mono _ _ H1) as R1.
  pose proof (Math_round_mono _ _ H5) as R5.
  change (Math_round 1) with 1 in R1. change (Math_round 5) with 5 in R5.
  unfold clampDifficulty. split_num; split; lra.
Qed.

(** X9. For bounds on the scale, [getEstimatedLevel] is a grid value between
    the rounded lower bound and the rounded upper bound. *)
Theorem getEstimatedLevel_between_bounds (s : DimensionState) :
  valid_bounds s ->
  on_grid (getEstimatedLevel s)
  /\ Math_round (lowerBound s) <= getEstimatedLevel s
  /\ getEstimatedLevel s <= Math_round (upperBound s).
Proof. apply estimatedLevel_bounds. Qed.

Lemma getEstimatedLevel_between_bounds_witness :
  let s := mkDimensionState 2.7 3.5 true 4 3 in
  on_grid (getEstimatedLevel s)
  /\ Math_round 2.7 <= getEstimatedLevel s
  /\ getEstimatedLevel s <= Math_round 3.5.
Proof.
  intros s.
  apply (getEstimatedLevel_between_bounds s).
  unfold valid_bounds. vm_compute. conjs; discriminate.
Defined.

(** ** Selection never fails *)

Lemma getQuestionType_listed (dim : Dimension) (phase : AssessmentPhase) :
  In (getQuestionTypeForDimension dim phase) (typeMap dim).
Proof. destruct dim, phase; cbn; tauto. Qed.

Lemma random_index (random : Q) :
  0 <= random < 1 ->
  exists dim,
    index DIMENSIONS (Qfloor (random * of_nat (List.length DIMENSIONS)))
    = Some dim.
Proof.
  intros [H0 H1].
  change (of_nat (List.length DIMENSIONS)) with 5.
  pose proof (Qfloor_le (random * 5)) as Hle.
  pose proof (Qlt_floor (random * 5)) as Hlt.
  rewrite inject_Z_plus in Hlt. change (inject_Z 1) with 1 in Hlt.
  remember (Qfloor (random * 5)) as z eqn:Ez. clear Ez.
  assert (Hz : (0 <= z < 5)%Z).
  { split.
    - apply Z.lt_succ_r. rewrite Zlt_Qlt.
      change (inject_Z (Z.succ z)) with (inject_Z (z + 1)).
      rewrite inject_Z_plus. change (inject_Z 0) with 0.
      change (inject_Z 1) with 1. lra.
    - rewrite Zlt_Qlt. change (inject_Z 5) with 5. lra. }
  assert (Hcases : z = 0%Z \/ z = 1%Z \/ z = 2%Z \/ z = 3%Z \/ z = 4%Z) by lia.
  destruct Hcases as [-> | [-> | [-> | [-> | ->]]]]; eexists; reflexivity.
Qed.

(** X10. With a random draw in [0,1), [selectNextQuestion] returns a
    selection for every profile, whatever its bounds: it never reads past the
    list of dimensions. The target difficulty is one of the grid values 1..5
    and the question type is one of the types listed for the selected
    dimension. *)
Theorem selectNextQuestion_total (random : Q) (profile : StudentProfile) :
  0 <= random < 1 ->
  exists sel,
    selectNextQuestion random profile = Some sel
    /\ on_grid (targetDifficulty sel)
    /\ In (questionType sel) (typeMap (sel_dimension sel)).
Proof.
  intros Hr. unfold selectNextQuestion.
  destruct (List.filter _ DIMENSIONS) as [| targetDim rest].
  - destruct (findMostUncertainDimension profile) as [dim |].
    + eexists. split; [reflexivity |].
      cbn [targetDifficulty questionType sel_dimension].
      split; [apply clampDifficulty_on_grid | apply getQuestionType_listed].
    + destruct (random_index random Hr) as [dim ->].
      eexists. split; [reflexivity |].
      cbn [targetDifficulty questionType sel_dimension].
      split; [apply clampDifficulty_on_grid | apply getQuestionType_listed].
  - eexists. split; [reflexivity |].
    cbn [targetDifficulty questionType sel_dimension].
    split; [| apply getQuestionType_listed].
    exists 3%Z. split; [reflexivity | lia].
Qed.

Lemma selectNextQuestion_total_witness :
  exists sel,
    selectNextQuestion 0.9 invertedProfile = Some sel
    /\ on_grid (targetDifficulty sel)
    /\ In (questionType sel) (typeMap (sel_dimension sel)).
Proof.
  apply (selectNextQuestion_total 0.9 invertedProfile).
  split; vm_compute; first [discriminate | reflexivity].
Defined.

(** X11. [findMostUncertainDimension] returns null exactly when no dimension
    has a positive adjusted uncertainty. *)
Theorem findMostUncertainDimension_null (profile : StudentProfile) :
  findMostUncertainDimension profile = None
  <-> forall dim, adjustedUncertainty (get (dimensions profile) dim) <= 0.
Proof.
  unfold findMostUncertainDimension.
  destruct (uncertain_loop profile DIMENSIONS 0 None)
    as [[E Hall] | (l1 & d & l2 & Hsplit & E & Hm & H1 & H2)]; rewrite E;
    cbn [snd].
  - split; [| reflexivity]. intros _ dim. apply Hall, in_DIMENSIONS.
  - split; [discriminate |]. intros Hall. specialize (Hall d).
    cbv zeta in Hm. lra.
Qed.

Lemma findMostUncertainDimension_null_witness :
  findMostUncertainDimension invertedProfile = None.
Proof.
  apply (proj2 (findMostUncertainDimension_null invertedProfile)).
  intros dim. destruct dim; vm_compute; discriminate.
Defined.

(** X12. While some dimension is untested, the question that
    [selectNextQuestion] asks for is a multiple-choice one: every dimension
    lists that type, and the exploration branch prefers it. *)
Theorem exploration_asks_multipleChoice (random : Q)
    (profile : StudentProfile) (dim : Dimension) :
  tested (get (dimensions profile) dim) = false ->
  exists sel,
    selectNextQuestion random profile = Some sel
    /\ questionType sel = "multipleChoice"%string.
Proof.
  intros Hdim. unfold selectNextQuestion.
  pose proof
    (filter_head (fun dim => negb (tested (get (dimensions profile) dim)))
       DIMENSIONS) as Hhead.
  destruct (List.filter _ DIMENSIONS) as [| targetDim rest].
  - specialize (Hhead dim (in_DIMENSIONS dim)). cbn in Hhead.
    rewrite Hdim in Hhead. discriminate.
  - eexists. split; [reflexivity |]. destruct targetDim; reflexivity.
Qed.

Lemma exploration_asks_multipleChoice_witness :
  exists sel,
    selectNextQuestion 0 (createStudentProfile "s1" None 0) = Some sel
    /\ questionType sel = "multipleChoice"%string.
Proof.
  apply (exploration_asks_multipleChoice 0
           (createStudentProfile "s1" None 0) codeReading).
  reflexivity.
Defined.

(** * Properties of the hint analysis *)

Module HintProps.
Import HintAnalysis HintSpec.

Lemma HintType_eqb_spec (a b : HintType) : reflect (a = b) (HintType_eqb a b).
Proof. destruct a, b; constructor; congruence. Qed.

Lemma HintType_eqb_refl (a : HintType) : HintType_eqb a a = true.
Proof. destruct a; reflexivity. Qed.

(** *** Records keyed by hint type *)

Lemma lookup_upsert_eq {V} (k : HintType) (f : option V -> V)
    (obj : list (HintType * V)) :
  lookupType k (upsert k f obj) = Some (f (lookupType k obj)).
Proof.
  induction obj as [| [k' v] rest IH]; cbn.
  - rewrite HintType_eqb_refl. reflexivity.
  - destruct (HintType_eqb k k') eqn:E; cbn; rewrite E; [reflexivity | exact IH].
Qed.

Lemma lookup_upsert_ne {V} (k k' : HintType) (f : option V -> V)
    (obj : list (HintType * V)) :
  k <> k' -> lookupType k' (upsert k f obj) = lookupType k' obj.
Proof.
  intros Hne. induction obj as [| [k0 v] rest IH]; cbn.
  - destruct (HintType_eqb_spec k' k); [congruence | reflexivity].
  - destruct (HintType_eqb_spec k k0) as [-> | Hk]; cbn.
    + destruct (HintType_eqb_spec k' k0); [congruence | reflexivity].
    + destruct (HintType_eqb k' k0); [reflexivity | exact IH].
Qed.

Lemma upsert_keys {V} (k : HintType) (f : option V -> V)
    (obj : list (HintType * V)) :
  map fst (upsert k f obj)
  = match lookupType k obj with
    | Some _ => map fst obj
    | None => map fst obj ++ [k]
    end.
Proof.
  induction obj as [| [k' v] rest IH]; cbn.
  - reflexivity.
  - destruct (HintType_eqb k k') eqn:E; cbn; [reflexivity |].
    rewrite IH. destruct (lookupType k rest); reflexivity.
Qed.

Lemma lookup_None_keys {V} (k : HintType) (obj : list (HintType * V)) :
  lookupType k obj = None <-> ~ In k (map fst obj).
Proof.
  induction obj as [| [k' v] rest IH]; cbn.
  - tauto.
  - destruct (HintType_eqb_spec k k') as [-> | Hne].
    + split; [discriminate | tauto].
    + rewrite IH. split; [intros H [E | Hin]; [congruence | tauto] | tauto].
Qed.

Lemma upsert_NoDup {V} (k : HintType) (f : option V -> V)
    (obj : list (HintType * V)) :
  NoDup (map fst obj) -> NoDup (map fst (upsert k f obj)).
Proof.
  intros Hnd. rewrite upsert_keys.
  destruct (lookupType k obj) eqn:E; [exact Hnd |].
  apply lookup_None_keys in E.
  apply NoDup_app. split; [exact Hnd |]. split.
  - intros x Hx Hk. apply list_elem_of_In in Hx.
    apply list_elem_of_In in Hk. cbn in Hk. destruct Hk as [<- | []].
    tauto.
  - apply NoDup_singleton.
Qed.

Lemma lookup_In {V} (k : HintType) (v : V) (obj : list (HintType * V)) :
  NoDup (map fst obj) -> (lookupType k obj = Some v <-> In (k, v) obj).
Proof.
  induction obj as [| [k' v'] rest IH]; cbn; intros Hnd.
  - split; [discriminate | tauto].
  - apply NoDup_cons in Hnd as [Hk' Hnd].
    rewrite list_elem_of_In in Hk'.
    destruct (HintType_eqb_spec k k') as [-> | Hne].
    + split.
      * intros [= ->]. tauto.
      * intros [[= ->] | Hin]; [reflexivity |].
        exfalso. apply Hk'. apply (in_map fst) in Hin. exact Hin.
    + rewrite (IH Hnd). split; [tauto |].
      intros [[= -> ->] | Hin]; [congruence | exact Hin].
Qed.

(** *** The folds over the events *)

Lemma count_cons (t : HintType) (e : HintEvent) (events : list HintEvent) :
  countType t (e :: events)
  = ((if HintType_eqb (hintType e) t then 1 else 0) + countType t events)%nat.
Proof.
  unfold countType. cbn [List.filter].
  destruct (HintType_eqb (hintType e) t); reflexivity.
Qed.

Lemma correct_cons (t : HintType) (e : HintEvent) (events : list HintEvent) :
  correctOfType t (e :: events)
  = ((if HintType_eqb (hintType e) t
         && is_answered_correctly (subsequentAction e)
      then 1 else 0) + correctOfType t events)%nat.
Proof.
  unfold correctOfType. cbn [List.filter].
  destruct (HintType_eqb (hintType e) t && _); reflexivity.
Qed.

Lemma correct_le_count (t : HintType) (events : list HintEvent) :
  (correctOfType t events <= countType t events)%nat.
Proof.
  induction events as [| e rest IH]; [apply Nat.le_refl |].
  rewrite count_cons, correct_cons.
  destruct (HintType_eqb (hintType e) t); cbn [andb]; [| exact IH].
  destruct (is_answered_correctly _); lia.
Qed.

Lemma distribution_lookup (events : list HintEvent) :
  forall (acc : list (HintType * nat)) (t : HintType),
    lookupType t
      (fold_left
         (fun dist event =>
            upsert (hintType event)
              (fun old =>
                 (match old with Some n => n | None => 0 end + 1)%nat)
              dist)
         events acc)
    = match countType t events with
      | O => lookupType t acc
      | S _ =>
          Some (match lookupType t acc with Some n => n | None => 0 end
                + countType t events)%nat
      end.
Proof.
  induction events as [| e rest IH]; intros acc t; [reflexivity |].
  cbn [fold_left]. rewrite IH, count_cons.
  destruct (HintType_eqb_spec (hintType e) t) as [-> | Hne].
  - rewrite lookup_upsert_eq.
    destruct (countType t rest); cbn; f_equal; lia.
  - rewrite lookup_upsert_ne by assumption. reflexivity.
Qed.

Lemma success_lookup (events : list HintEvent) :
  forall (acc : list (HintType * (nat * nat))) (t : HintType),
    lookupType t
      (fold_left
         (fun success event =>
            upsert (hintType event)
              (fun old =>
                 let '(correct, total) :=
                   match old with Some s => s | None => (0, 0)%nat end in
                 (if is_answered_correctly (subsequentAction event)
                  then correct + 1 else correct,
                  total + 1)%nat)
              success)
         events acc)
    = match countType t events with
      | O => lookupType t acc
      | S _ =>
          let d := match lookupType t acc with
                   | Some s => s
                   | None => (0, 0)%nat
                   end in
          Some (fst d + correctOfType t events,
                snd d + countType t events)%nat
      end.
Proof.
  induction events as [| e rest IH]; intros acc t; [reflexivity |].
  cbn [fold_left]. rewrite IH, count_cons, correct_cons.
  destruct (HintType_eqb_spec (hintType e) t) as [-> | Hne].
  - rewrite lookup_upsert_eq. cbn [andb].
    pose proof (correct_le_count t rest) as Hle.
    destruct (lookupType t acc) as [[c n] |];
      destruct (is_answered_correctly (subsequentAction e));
      destruct (countType t rest); cbn; apply f_equal; apply f_equal2; lia.
  - rewrite lookup_upsert_ne by assumption. reflexivity.
Qed.

Lemma fold_upsert_NoDup {V} (step : HintEvent -> option V -> V)
    (events : list HintEvent) :
  forall acc : list (HintType * V),
    NoDup (map fst acc) ->
    NoDup
      (map fst
         (fold_left
            (fun obj event => upsert (hintType event) (step event) obj)
            events acc)).
Proof.
  induction events as [| e rest IH]; intros acc Hnd; [exact Hnd |].
  cbn [fold_left]. apply IH, upsert_NoDup, Hnd.
Qed.

Lemma distributionOf_NoDup (events : list HintEvent) :
  NoDup (map fst (distributionOf events)).
Proof.
  apply (fold_upsert_NoDup
           (fun _ old => (match old with Some n => n | None => 0 end + 1)%nat)).
  constructor.
Qed.

Lemma successOf_NoDup (events : list HintEvent) :
  NoDup (map fst (successOf events)).
Proof.
  apply (fold_upsert_NoDup
           (fun event old =>
              let '(correct, total) :=
                match old with Some s => s | None => (0, 0)%nat end in
              (if is_answered_correctly (subsequentAction event)
               then correct + 1 else correct,
               total + 1)%nat)).
  constructor.
Qed.

Lemma distributionOf_In (events : list HintEvent) (t : HintType) (n : nat) :
  In (t, n) (distributionOf events)
  <-> n = countType t events /\ (0 < n)%nat.
Proof.
  rewrite <- (lookup_In t n _ (distributionOf_NoDup events)).
  unfold distributionOf. rewrite distribution_lookup. cbn [lookupType].
  destruct (countType t events) as [| k].
  - split; [discriminate | lia].
  - split; [intros [= <-]; lia | intros [-> _]; reflexivity].
Qed.

Lemma successOf_In (events : list HintEvent) (t : HintType) (c n : nat) :
  In (t, (c, n)) (successOf events)
  <-> c = correctOfType t events /\ n = countType t events /\ (0 < n)%nat.
Proof.
  rewrite <- (lookup_In t (c, n) _ (successOf_NoDup events)).
  unfold successOf. rewrite success_lookup. cbn [lookupType].
  destruct (countType t events) as [| k].
  - split; [discriminate | lia].
  - cbn. split; [intros [= <- <-]; lia | intros (-> & -> & _); reflexivity].
Qed.

Lemma sum_cons (x : nat) (l : list nat) :
  list_sum (x :: l) = (x + list_sum l)%nat.
Proof. reflexivity. Qed.

Lemma sum_upsert (k : HintType) (obj : list (HintType * nat)) :
  list_sum
    (map snd
       (upsert k
          (fun old => (match old with Some n => n | None => 0 end + 1)%nat)
          obj))
  = (list_sum (map snd obj) + 1)%nat.
Proof.
  induction obj as [| [k' v] rest IH]; [reflexivity |].
  cbn [upsert]. destruct (HintType_eqb k k'); cbn [map snd];
    rewrite !sum_cons; [cbn [snd]; lia |].
  rewrite IH. lia.
Qed.

Lemma distribution_sum (events : list HintEvent) :
  forall acc : list (HintType * nat),
    list_sum
      (map snd
         (fold_left
            (fun dist event =>
               upsert (hintType event)
                 (fun old =>
                    (match old with Some n => n | None => 0 end + 1)%nat)
                 dist)
            events acc))
    = (list_sum (map snd acc) + List.length events)%nat.
Proof.
  induction events as [| e rest IH]; intros acc; cbn [fold_left List.length].
  - lia.
  - rewrite IH, sum_upsert. lia.
Qed.

(** *** The fields of the result *)

Lemma analyze_totalHintsUsed (events : list HintEvent) :
  totalHintsUsed (analyzeHintBehavior events) = List.length events.
Proof.
  destruct events as [| e rest]; [reflexivity |].
  unfold analyzeHintBehavior.
  destruct (fold_left _ (fold_left _ _ []) (_, _)) as [m r]. reflexivity.
Qed.

Lemma analyze_distribution (events : list HintEvent) :
  hintTypeDistribution (analyzeHintBehavior events) = distributionOf events.
Proof.
  destruct events as [| e rest]; [reflexivity |].
  unfold analyzeHintBehavior.
  destruct (fold_left _ (fold_left _ _ []) (_, _)) as [m r]. reflexivity.
Qed.

Lemma best_step_inline (entries : list (HintType * (nat * nat))) :
  forall init : string * Q,
    fold_left
      (fun (best : string * Q) (entry : HintType * (nat * nat)) =>
         let '(mostEffectiveType, highestSuccessRate) := best in
         let '(type, (correct, total)) := entry in
         let successRate :=
           if (0 <? total)%nat then of_nat correct / of_nat total else 0 in
         if highestSuccessRate <? successRate
         then (hintTypeName type, successRate)
         else (mostEffectiveType, highestSuccessRate))
      entries init
    = fold_left best_step entries init.
Proof.
  induction entries as [| [t [c n]] rest IH]; intros [m r]; [reflexivity |].
  cbn [fold_left]. rewrite IH. f_equal.
Qed.

Lemma analyze_mostEffective (events : list HintEvent) :
  mostEffectiveHintType (analyzeHintBehavior events)
  = fst (fold_left best_step (successOf events) ("none"%string, 0)).
Proof.
  destruct events as [| e rest]; [reflexivity |].
  unfold analyzeHintBehavior, successOf. rewrite <- best_step_inline.
  destruct (fold_left _ (fold_left _ _ []) (_, _)) as [m r]. reflexivity.
Qed.


Lemma analyze_learningMode (events : list HintEvent) :
  preferredLearningMode (analyzeHintBehavior events)
  = modeOf (mostUsedOf (distributionOf events)).
Proof.
  destruct events as [| e rest]; [reflexivity |].
  unfold analyzeHintBehavior.
  destruct (fold_left _ (fold_left _ _ []) (_, _)) as [m r]. reflexivity.
Qed.

Lemma analyze_style (events : list HintEvent) :
  events <> [] ->
  helpSeekingStyle (analyzeHintBehavior events)
  = (let avgTimeToAskSec :=
       totalTimeToAsk events / of_nat (List.length events) / 1000 in
     if avgTimeToAskSec <? 30 then quick_to_ask
     else if 120 <? avgTimeToAskSec then reluctant
     else balanced)
  /\ avgTimeToAskHint (analyzeHintBehavior events)
     = totalTimeToAsk events / of_nat (List.length events) / 1000.
Proof.
  destruct events as [| e rest]; [congruence |]. intros _.
  unfold analyzeHintBehavior.
  destruct (fold_left _ (fold_left _ _ []) (_, _)) as [m r].
  split; reflexivity.
Qed.

(** *** What the result says about the events *)

(** X13. The hint-type distribution has one entry per hint type that occurs
    among the events, holding the number of events of that type; the counts
    add up to [totalHintsUsed], the number of events. *)
Theorem hintTypeDistribution_counts (events : list HintEvent) :
  let profile := analyzeHintBehavior events in
  totalHintsUsed profile = List.length events
  /\ NoDup (map fst (hintTypeDistribution profile))
  /\ (forall t n,
        In (t, n) (hintTypeDistribution profile)
        <-> n = countType t events /\ (0 < n)%nat)
  /\ list_sum (map snd (hintTypeDistribution profile))
     = totalHintsUsed profile.
Proof.
  cbv zeta. rewrite analyze_totalHintsUsed, analyze_distribution. conjs.
  - reflexivity.
  - apply distributionOf_NoDup.
  - apply distributionOf_In.
  - unfold distributionOf. rewrite distribution_sum. reflexivity.
Qed.

Lemma hintTypeDistribution_counts_witness :
  let events :=
    [mkHintEvent example 20000 (Some answered_correctly);
     mkHintEvent conceptual 50000 None;
     mkHintEvent conceptual 2000 (Some answered_correctly)] in
  In (conceptual, 2%nat) (hintTypeDistribution (analyzeHintBehavior events)).
Proof.
  intros events.
  apply (proj2 (proj1 (proj2 (proj2 (hintTypeDistribution_counts events)))
                  conceptual 2%nat)).
  split; [reflexivity | lia].
Defined.



Lemma best_loop (entries : list (HintType * (nat * nat))) :
  forall init : string * Q,
    (fold_left best_step entries init = init
     /\ forall entry, In entry entries -> successRate (snd entry) <= snd init)
    \/ exists entry,
        In entry entries
        /\ fold_left best_step entries init
           = (hintTypeName (fst entry), successRate (snd entry))
        /\ snd init < successRate (snd entry)
        /\ forall entry',
            In entry' entries ->
            successRate (snd entry') <= successRate (snd entry).
Proof.
  induction entries as [| a rest IH]; intros init.
  - left. cbn. tauto.
  - cbn [fold_left].
    change (best_step init a)
      with (if snd init <? successRate (snd a)
            then (hintTypeName (fst a), successRate (snd a))
            else init).
    destruct (ltb_spec (snd init) (successRate (snd a))) as [Hlt | Hge].
    + right.
      destruct (IH (hintTypeName (fst a), successRate (snd a)))
        as [[E Hall] | (entry & Hin & E & Hm & Hmax)]; cbn [snd] in *.
      * exists a. split; [left; reflexivity |]. split; [exact E |].
        split; [exact Hlt |].
        intros entry' [<- | Hin]; [lra | apply Hall, Hin].
      * exists entry. split; [right; exact Hin |]. split; [exact E |].
        split; [lra |].
        intros entry' [<- | Hin']; [lra | apply Hmax, Hin'].
    + destruct (IH init) as [[E Hall] | (entry & Hin & E & Hm & Hmax)].
      * left. split; [exact E |].
        intros entry' [<- | Hin]; [lra | apply Hall, Hin].
      * right. exists entry. split; [right; exact Hin |]. split; [exact E |].
        split; [exact Hm |].
        intros entry' [<- | Hin']; [lra | apply Hmax, Hin'].
Qed.

Lemma successRate_pos (c n : nat) :
  (0 < n)%nat -> (0 < successRate (c, n) <-> (0 < c)%nat).
Proof.
  intros Hn. unfold successRate.
  destruct (Nat.ltb_spec 0 n) as [_ | H]; [| lia].
  pose proof (of_nat_pos n Hn) as Hpos.
  split.
  - intros Hr. destruct c as [| c]; [| lia].
    change (of_nat 0) with 0 in Hr. unfold Qdiv in Hr.
    rewrite Qmult_0_l in Hr. lra.
  - intros Hc. apply Qlt_shift_div_l; [assumption |].
    pose proof (of_nat_pos c Hc). lra.
Qed.

Lemma correct_le_answered (t : HintType) (events : list HintEvent) :
  (correctOfType t events <= answeredCorrectly events)%nat.
Proof.
  unfold correctOfType, answeredCorrectly.
  induction events as [| e rest IH]; cbn; [lia |].
  destruct (HintType_eqb (hintType e) t), (is_answered_correctly _); cbn; lia.
Qed.

Lemma answered_some_type (events : list HintEvent) :
  (0 < answeredCorrectly events)%nat ->
  exists t, (0 < correctOfType t events)%nat.
Proof.
  unfold answeredCorrectly, correctOfType.
  induction events as [| e rest IH]; cbn; [lia |].
  destruct (is_answered_correctly (subsequentAction e)) eqn:Ha; cbn.
  - intros _. exists (hintType e).
    rewrite HintType_eqb_refl. cbn. lia.
  - intros H. destruct (IH H) as [t Ht]. exists t.
    rewrite andb_false_r. exact Ht.
Qed.

Lemma hintTypeName_not_none (t : HintType) : hintTypeName t <> "none"%string.
Proof. destruct t; discriminate. Qed.

(** X15. The most effective hint type is 'none' exactly when no event was
    followed by a correct answer. Otherwise it names a hint type with at
    least one such event whose success rate (correct answers over events of
    the type) is the highest among the types that occur. *)
Theorem mostEffectiveHintType_spec (events : list HintEvent) :
  let profile := analyzeHintBehavior events in
  (mostEffectiveHintType profile = "none"%string
   <-> answeredCorrectly events = 0%nat)
  /\ (answeredCorrectly events <> 0%nat ->
      exists t,
        mostEffectiveHintType profile = hintTypeName t
        /\ (0 < correctOfType t events)%nat
        /\ forall t',
            (0 < countType t' events)%nat ->
            successRate (correctOfType t' events, countType t' events)
            <= successRate (correctOfType t events, countType t events)).
Proof.
  cbv zeta. rewrite analyze_mostEffective.
  destruct (best_loop (successOf events) ("none"%string, 0))
    as [[E Hall] | ([t [c n]] & Hin & E & Hm & Hmax)]; rewrite E;
    cbn [fst snd] in *.
  - assert (Hzero : answeredCorrectly events = 0%nat).
    { destruct (answeredCorrectly events) as [| k] eqn:Ek; [reflexivity |].
      destruct (answered_some_type events) as [t Ht]; [lia |].
      pose proof (correct_le_count t events) as Hle.
      assert (Hin : In (t, (correctOfType t events, countType t events))
                      (successOf events))
        by (apply successOf_In; conjs; [reflexivity | reflexivity | lia]).
      specialize (Hall _ Hin). cbn [snd] in Hall.
      assert (Hn : (0 < countType t events)%nat) by lia.
      apply (successRate_pos _ _ Hn) in Ht. lra. }
    split; [tauto | congruence].
  - apply successOf_In in Hin. destruct Hin as (-> & -> & Hn).
    apply (successRate_pos _ _ Hn) in Hm.
    pose proof (correct_le_answered t events) as Hle.
    split.
    + split; [intros H; exfalso; exact (hintTypeName_not_none t H) | lia].
    + intros _. exists t. conjs; [reflexivity | exact Hm |].
      intros t' Ht'.
      apply (Hmax (t', (correctOfType t' events, countType t' events))).
      apply successOf_In. conjs; [reflexivity | reflexivity | exact Ht'].
Qed.

Lemma mostEffectiveHintType_spec_witness :
  let events :=
    [mkHintEvent example 20000 (Some answered_correctly);
     mkHintEvent conceptual 50000 None;
     mkHintEvent conceptual 2000 (Some answered_correctly)] in
  exists t,
    mostEffectiveHintType (analyzeHintBehavior events) = hintTypeName t
    /\ (0 < correctOfType t events)%nat
    /\ forall t',
        (0 < countType t' events)%nat ->
        successRate (correctOfType t' events, countType t' events)
        <= successRate (correctOfType t events, countType t events).
Proof.
  intros events.
  apply (proj2 (mostEffectiveHintType_spec events)).
  cbn. lia.
Defined.

Lemma totalTimeToAsk_div (events : list HintEvent) (bound : Q) :
  events <> [] ->
  (totalTimeToAsk events / of_nat (List.length events) / 1000 < bound
   <-> totalTimeToAsk events < bound * 1000 * of_nat (List.length events))
  /\ (bound < totalTimeToAsk events / of_nat (List.length events) / 1000
      <-> bound * 1000 * of_nat (List.length events) < totalTimeToAsk events).
Proof.
  intros Hne.
  assert (Hn : 0 < of_nat (List.length events))
    by (apply of_nat_pos; destruct events; [congruence | cbn; lia]).
  set (n := of_nat (List.length events)) in *.
  set (S := totalTimeToAsk events).
  assert (E : S / n / 1000 * (1000 * n) == S) by (field; lra).
  assert (Hpos : 0 < 1000 * n) by lra.
  split; split; intros H.
  - apply (Qmult_lt_r _ _ _ Hpos) in H. lra.
  - apply (Qmult_lt_r _ _ (1000 * n) Hpos). lra.
  - apply (Qmult_lt_r _ _ _ Hpos) in H. lra.
  - apply (Qmult_lt_r _ _ (1000 * n) Hpos). lra.
Qed.

(** X16. For at least one event, the help-seeking style depends on the total
    of the times into the question only: quick_to_ask exactly when the total
    is below 30 s per event, reluctant exactly when it is above 120 s per
    event, balanced in between, both limits included. *)
Theorem helpSeekingStyle_thresholds (events : list HintEvent) :
  events <> [] ->
  let profile := analyzeHintBehavior events in
  let n := of_nat (List.length events) in
  (helpSeekingStyle profile = quick_to_ask
   <-> totalTimeToAsk events < 30000 * n)
  /\ (helpSeekingStyle profile = reluctant
      <-> 120000 * n < totalTimeToAsk events)
  /\ (helpSeekingStyle profile = balanced
      <-> 30000 * n <= totalTimeToAsk events <= 120000 * n).
Proof.
  intros Hne. cbv zeta.
  destruct (analyze_style events Hne) as [-> _]. cbv zeta.
  destruct (totalTimeToAsk_div events 30 Hne) as [H30 _].
  destruct (totalTimeToAsk_div events 120 Hne) as [_ H120].
  assert (Hn : 0 < of_nat (List.length events))
    by (apply of_nat_pos; destruct events; [congruence | cbn; lia]).
  set (avg := totalTimeToAsk events / of_nat (List.length events) / 1000) in *.
  destruct (ltb_spec avg 30) as [Hq | Hq].
  - apply H30 in Hq. conjs; split; try discriminate; try reflexivity;
      intros H; lra.
  - assert (Hq' : ~ totalTimeToAsk events
                    < 30 * 1000 * of_nat (List.length events))
      by (intros H; apply H30 in H; lra).
    destruct (ltb_spec 120 avg) as [Hr | Hr].
    + apply H120 in Hr. conjs; split; try discriminate; try reflexivity;
        intros H; lra.
    + assert (Hr' : ~ 120 * 1000 * of_nat (List.length events)
                      < totalTimeToAsk events)
        by (intros H; apply H120 in H; lra).
      conjs; split; try discriminate; try reflexivity; intros H; lra.
Qed.

Lemma helpSeekingStyle_thresholds_witness :
  let events :=
    [mkHintEvent example 30000 None; mkHintEvent conceptual 30000 None] in
  helpSeekingStyle (analyzeHintBehavior events) = balanced
  <-> 30000 * of_nat 2 <= totalTimeToAsk events <= 120000 * of_nat 2.
Proof.
  intros events.
  apply (proj2 (proj2 (helpSeekingStyle_thresholds events
                         ltac:(discriminate)))).
Defined.

Lemma insert_sorted_head (x : HintType * nat) (l : list (HintType * nat)) :
  hd x (insert_sorted x l)
  = match l with
    | [] => x
    | y :: _ => if (snd y <=? snd x)%nat then x else y
    end.
Proof.
  destruct l as [| y rest]; cbn; [reflexivity |].
  destruct (snd y <=? snd x)%nat; reflexivity.
Qed.

Lemma insert_sorted_nonempty (x : HintType * nat) (l : list (HintType * nat)) :
  insert_sorted x l <> [].
Proof.
  destruct l as [| y rest]; cbn; [discriminate |].
  destruct (snd y <=? snd x)%nat; discriminate.
Qed.

(** The head of the stable descending sort is the first entry of maximal
    count. *)
Lemma sort_head (l : list (HintType * nat)) :
  match sort_by_count_desc l with
  | [] => l = []
  | x :: _ =>
      exists l1 l2,
        l = l1 ++ x :: l2
        /\ (forall y, In y l1 -> (snd y < snd x)%nat)
        /\ (forall y, In y l2 -> (snd y <= snd x)%nat)
  end.
Proof.
  induction l as [| a l IH]; [reflexivity |].
  cbn [sort_by_count_desc fold_right].
  fold (sort_by_count_desc l).
  pose proof (insert_sorted_head a (sort_by_count_desc l)) as Hhd.
  pose proof (insert_sorted_nonempty a (sort_by_count_desc l)) as Hne.
  destruct (insert_sorted a (sort_by_count_desc l)) as [| x rest];
    [congruence |].
  cbn [hd] in Hhd.
  destruct (sort_by_count_desc l) as [| y srest].
  - subst l x. exists [], []. cbn. tauto.
  - destruct IH as (l1 & l2 & -> & H1 & H2).
    destruct (Nat.leb_spec (snd y) (snd a)) as [Hle | Hgt]; subst x.
    + exists [], (l1 ++ y :: l2). conjs; [reflexivity | intros ? [] |].
      intros z Hz. apply in_app_or in Hz.
      destruct Hz as [Hz | [<- | Hz]].
      * specialize (H1 z Hz). lia.
      * exact Hle.
      * specialize (H2 z Hz). lia.
    + exists (a :: l1), l2. conjs; [reflexivity | | exact H2].
      intros z [<- | Hz]; [exact Hgt | apply H1, Hz].
Qed.

(** X17. The preferred learning mode is the one of the most used hint type:
    a type that occurs at least as often as every other one, the one seen
    first among those. With no events it is theory_first. *)
Theorem preferredLearningMode_spec (events : list HintEvent) :
  let profile := analyzeHintBehavior events in
  (events = [] /\ preferredLearningMode profile = theory_first)
  \/ exists l1 t n l2,
      hintTypeDistribution profile = l1 ++ (t, n) :: l2
      /\ preferredLearningMode profile = modeOf t
      /\ n = countType t events
      /\ (forall t', (countType t' events <= countType t events)%nat)
      /\ (forall y, In y l1 -> (snd y < n)%nat).
Proof.
  cbv zeta. rewrite analyze_learningMode, analyze_distribution.
  unfold mostUsedOf. pose proof (sort_head (distributionOf events)) as Hs.
  destruct (sort_by_count_desc (distributionOf events)) as [| [t n] rest].
  - left. split; [| reflexivity].
    destruct events as [| e rest]; [reflexivity | exfalso].
    assert (Hin : In (hintType e, countType (hintType e) (e :: rest))
                    (distributionOf (e :: rest))).
    { apply distributionOf_In. split; [reflexivity |].
      rewrite count_cons, HintType_eqb_refl. lia. }
    rewrite Hs in Hin. exact Hin.
  - right. destruct Hs as (l1 & l2 & Hd & H1 & H2).
    assert (Hin : In (t, n) (distributionOf events))
      by (rewrite Hd; apply in_or_app; right; left; reflexivity).
    apply distributionOf_In in Hin. destruct Hin as [Hn Hpos].
    exists l1, t, n, l2. conjs; try assumption; try reflexivity.
    intros t'. destruct (countType t' events) as [| k] eqn:Ek; [lia |].
    assert (Hin' : In (t', S k) (distributionOf events))
      by (apply distributionOf_In; split; [congruence | lia]).
    rewrite Hd in Hin'. apply in_app_or in Hin'.
    rewrite <- Hn.
    destruct Hin' as [Hin' | [Heq | Hin']].
    + specialize (H1 _ Hin'). cbn in H1. lia.
    + injection Heq as _ <-. lia.
    + specialize (H2 _ Hin'). cbn in H2. lia.
Qed.

Lemma preferredLearningMode_spec_witness :
  let events :=
    [mkHintEvent example 20000 (Some answered_correctly);
     mkHintEvent conceptual 50000 None;
     mkHintEvent conceptual 2000 (Some answered_correctly)] in
  let profile := analyzeHintBehavior events in
  (events = [] /\ preferredLearningMode profile = theory_first)
  \/ exists l1 t n l2,
      hintTypeDistribution profile = l1 ++ (t, n) :: l2
      /\ preferredLearningMode profile = modeOf t
      /\ n = countType t events
      /\ (forall t', (countType t' events <= countType t events)%nat)
      /\ (forall y, In y l1 -> (snd y < n)%nat).
Proof.
  intros events. exact (preferredLearningMode_spec events).
Defined.

End HintProps.

(** * Properties of the route helpers *)

Module RouteProps.
Import HintAnalysis HintSpec Route RouteSpec.

(** X18. The two dimension-name maps are inverse to each other on the five
    dimensions: mapping a dimension to its database name and back gives the
    dimension, and a database name survives the round trip exactly when it is
    the name of a dimension. *)
Theorem dimension_names_round_trip :
  (forall dimension, mapDbToDimension (mapDimensionToDb dimension) = dimension)
  /\ (forall name,
        mapDimensionToDb (mapDbToDimension name) = name
        <-> exists dimension, name = mapDimensionToDb dimension).
Proof.
  assert (H : forall d, mapDbToDimension (mapDimensionToDb d) = d)
    by (intros d; destruct d; reflexivity).
  split; [exact H |]. intros name. split.
  - intros E. exists (mapDbToDimension name). symmetry. exact E.
  - intros [d ->]. rewrite H. reflexivity.
Qed.

Lemma dimension_names_round_trip_witness :
  mapDimensionToDb (mapDbToDimension "code_reading") = "code_reading"%string.
Proof.
  apply (proj2 (proj2 dimension_names_round_trip "code_reading"%string)).
  exists codeReading. reflexivity.
Defined.

Lemma includes_In (l : list string) (x : string) :
  includes l x = true <-> In x l.
Proof.
  unfold includes. rewrite existsb_exists. split.
  - intros (y & Hy & E). apply String.eqb_eq in E. subst. exact Hy.
  - intros H. exists x. split; [exact H | apply String.eqb_refl].
Qed.

Lemma clampReal_on_scale (value : RealValue) (x : Q) :
  clampReal value = Some x -> 1 <= x <= 5.
Proof.
  destruct value as [y | | |]; cbn; intros E; inversion E; subst;
    try (split; lra). split_num; lra.
Qed.

Lemma loadedState_on_scale (r : DimensionStateRow) (s : DimensionState) :
  loadedState r = Some s ->
  1 <= lowerBound s <= 5 /\ 1 <= upperBound s <= 5.
Proof.
  unfold loadedState.
  destruct (clampReal (row_lowerBound r)) as [l |] eqn:El; [| discriminate].
  destruct (clampReal (row_upperBound r)) as [u |] eqn:Eu; [| discriminate].
  intros E. inversion E. cbn [lowerBound upperBound].
  split; eapply clampReal_on_scale; eassumption.
Qed.

(** One iteration of the loop over the rows, read at a dimension. *)
Lemma loadDimensions_hit (dims : PerDimension (option DimensionState))
    (r : DimensionStateRow) (dim : Dimension) :
  dimensionKey (row_dimension r) = Some dim ->
  get
    (match dimensionKey (row_dimension r) with
     | Some dimKey => set dims dimKey (loadedState r)
     | None => dims
     end) dim
  = loadedState r.
Proof. intros ->. apply get_set_eq. Qed.

Lemma loadDimensions_miss (dims : PerDimension (option DimensionState))
    (r : DimensionStateRow) (dim : Dimension) :
  dimensionKey (row_dimension r) <> Some dim ->
  get
    (match dimensionKey (row_dimension r) with
     | Some dimKey => set dims dimKey (loadedState r)
     | None => dims
     end) dim
  = get dims dim.
Proof.
  intros Hne. destruct (dimensionKey (row_dimension r)) as [k |]; [| reflexivity].
  apply get_set_ne. congruence.
Qed.

(** Rows that are stored under other keys leave a dimension as it is. *)
Lemma loadDimensions_frame (rows : list DimensionStateRow) (dim : Dimension) :
  (forall r, In r rows -> dimensionKey (row_dimension r) <> Some dim) ->
  forall dims : PerDimension (option DimensionState),
    get
      (fold_left
         (fun dims state =>
            match dimensionKey (row_dimension state) with
            | Some dimKey => set dims dimKey (loadedState state)
            | None => dims
            end)
         rows dims) dim
    = get dims dim.
Proof.
  induction rows as [| r rows IH]; intros Hnone dims; [reflexivity |].
  cbn [fold_left]. rewrite IH by (intros r' Hr'; apply Hnone; right; exact Hr').
  apply loadDimensions_miss. apply Hnone. left. reflexivity.
Qed.

Lemma loadDimensions_on_scale (rows : list DimensionStateRow) :
  forall dims : PerDimension (option DimensionState),
    (forall dim s, get dims dim = Some s ->
                   1 <= lowerBound s <= 5 /\ 1 <= upperBound s <= 5) ->
    forall dim s,
      get
        (fold_left
           (fun dims state =>
              match dimensionKey (row_dimension state) with
              | Some dimKey => set dims dimKey (loadedState state)
              | None => dims
              end)
           rows dims) dim
      = Some s ->
      1 <= lowerBound s <= 5 /\ 1 <= upperBound s <= 5.
Proof.
  induction rows as [| r rows IH]; intros dims Hdims; [exact Hdims |].
  cbn [fold_left]. apply IH. intros dim s.
  destruct (dimensionKey (row_dimension r)) as [k |] eqn:Ek; [| apply Hdims].
  destruct (Dimension_eq_dec k dim) as [<- | Hne].
  - rewrite get_set_eq. apply loadedState_on_scale.
  - rewrite get_set_ne by exact Hne. apply Hdims.
Qed.

(** X19. The five dimensions that [loadSessionFromDB] builds from the stored
    rows. Every loaded state that holds numbers has both bounds on the scale
    [1,5]. A dimension under which no row is stored keeps the defaults
    ([1,5], untested, no questions). Otherwise the last row stored under the
    dimension decides: the state holds a NaN bound exactly when the row does;
    if not, flag and counters are the row's, a finite bound on the scale is
    loaded as it is, and an infinite bound is clamped to the end of the
    scale. A row whose name is inherited from [Object.prototype] is stored
    under an extra property and changes none of the five dimensions; a row
    stored under a dimension has the database name of that dimension, or a
    name that is no database name and is stored under lowLevelBinary. *)
Theorem loadDimensions_spec (dimStates : list DimensionStateRow) :
  (forall dim s,
      get (loadDimensions dimStates) dim = Some s ->
      1 <= lowerBound s <= 5 /\ 1 <= upperBound s <= 5)
  /\ (forall dim,
        (forall r, In r dimStates ->
                   dimensionKey (row_dimension r) <> Some dim) ->
        get (loadDimensions dimStates) dim
        = Some (mkDimensionState 1 5 false 0 0))
  /\ (forall before r after dim,
        dimStates = before ++ r :: after ->
        dimensionKey (row_dimension r) = Some dim ->
        (forall r', In r' after ->
                    dimensionKey (row_dimension r') <> Some dim) ->
        get (loadDimensions dimStates) dim = loadedState r
        /\ (loadedState r = None
            <-> row_lowerBound r = NotANumber
                \/ row_upperBound r = NotANumber)
        /\ (forall s, loadedState r = Some s ->
              tested s = row_tested r
              /\ questionCount s = row_questionsAsked r
              /\ correctCount s = row_correctCount r
              /\ (forall x, row_lowerBound r = Finite x -> 1 <= x <= 5 ->
                            lowerBound s == x)
              /\ (forall x, row_upperBound r = Finite x -> 1 <= x <= 5 ->
                            upperBound s == x)
              /\ (row_lowerBound r = PlusInfinity -> lowerBound s == 5)
              /\ (row_lowerBound r = MinusInfinity -> lowerBound s == 1)
              /\ (row_upperBound r = PlusInfinity -> upperBound s == 5)
              /\ (row_upperBound r = MinusInfinity -> upperBound s == 1)))
  /\ (forall before r after,
        dimStates = before ++ r :: after ->
        In (row_dimension r) inheritedNames ->
        loadDimensions dimStates = loadDimensions (before ++ after))
  /\ (forall r dim,
        dimensionKey (row_dimension r) = Some dim ->
        row_dimension r = mapDimensionToDb dim
        \/ (dim = lowLevelBinary
            /\ forall dim', row_dimension r <> mapDimensionToDb dim')).
Proof.
  conjs.
  - apply loadDimensions_on_scale.
    intros dim s E. destruct dim; inversion E; cbn; lra.
  - intros dim Hnone. unfold loadDimensions.
    rewrite loadDimensions_frame by exact Hnone. destruct dim; reflexivity.
  - intros before r after dim -> Hkey Hlast. split.
    + unfold loadDimensions. rewrite fold_left_app. cbn [fold_left].
      rewrite loadDimensions_frame by exact Hlast.
      apply loadDimensions_hit, Hkey.
    + unfold loadedState. split.
      * destruct (row_lowerBound r), (row_upperBound r); cbn;
          split; intros H; try discriminate; try tauto;
          destruct H as [H | H]; discriminate.
      * intros s.
        destruct (row_lowerBound r) as [l | | |], (row_upperBound r) as [u | | |];
          cbn; intros E; inversion E; subst;
          cbn [tested questionCount correctCount lowerBound upperBound];
          conjs; try reflexivity; try discriminate;
          intros x Ex; inversion Ex; subst;
          intros [H1 H5]; split_num; lra.
  - intros before r after -> Hin. unfold loadDimensions.
    rewrite !fold_left_app. cbn [fold_left].
    unfold dimensionKey at 2.
    apply includes_In in Hin. rewrite Hin. reflexivity.
  - intros r dim. unfold dimensionKey.
    destruct (includes inheritedNames (row_dimension r)); [discriminate |].
    intros E. inversion E as [E']. clear E. unfold mapDbToDimension.
    repeat match goal with
           | |- context [String.eqb ?a ?b] =>
               destruct (String.eqb_spec a b) as [-> | ?]
           end; try (left; reflexivity).
    right. split; [reflexivity |]. intros dim'. destruct dim'; cbn; assumption.
Qed.

Lemma loadDimensions_spec_witness :
  let rows :=
    [mkDimensionStateRow "hardware_io" (Finite 2.7) (Finite 3.5) true 2 1;
     mkDimensionStateRow "constructor" (Finite 2) (Finite 3) true 1 0;
     mkDimensionStateRow "low_level" (Finite 1) NotANumber true 1 0] in
  get (loadDimensions rows) decomposition
  = Some (mkDimensionState 1 5 false 0 0).
Proof.
  intros rows.
  apply (proj1 (proj2 (loadDimensions_spec rows)) decomposition).
  intros r [<- | [<- | [<- | []]]]; discriminate.
Defined.

(** Four rows: the row named constructor is stored under an extra property
    and changes none of the five dimensions; the row with an unknown name is
    stored under lowLevelBinary, after the low_level row, with its infinite
    bounds clamped. *)
Example loadDimensions_four_rows :
  loadDimensions
    [mkDimensionStateRow "hardware_io" (Finite 2.7) (Finite 3.5) true 2 1;
     mkDimensionStateRow "constructor" (Finite 2) (Finite 3) true 1 0;
     mkDimensionStateRow "low_level" (Finite 1) NotANumber true 1 0;
     mkDimensionStateRow "unknown" PlusInfinity MinusInfinity true 1 0]
  = mkPerDimension
      (Some (mkDimensionState 5 1 true 1 0))
      (Some (mkDimensionState 1 5 false 0 0))
      (Some (mkDimensionState 2.7 3.5 true 2 1))
      (Some (mkDimensionState 1 5 false 0 0))
      (Some (mkDimensionState 1 5 false 0 0)).
Proof. vm_compute. reflexivity. Qed.


Lemma style_cases (events : list HintEvent) :
  events <> [] ->
  let n := of_nat (List.length events) in
  let style := helpSeekingStyle (analyzeHintBehavior events) in
  (style = quick_to_ask /\ totalTimeToAsk events < 30000 * n)
  \/ (style = reluctant /\ 120000 * n < totalTimeToAsk events)
  \/ (style = balanced
      /\ 30000 * n <= totalTimeToAsk events <= 120000 * n).
Proof.
  intros Hne. cbv zeta.
  destruct (HintProps.analyze_style events Hne) as [-> _]. cbv zeta.
  destruct (HintProps.totalTimeToAsk_div events 30 Hne) as [H30 _].
  destruct (HintProps.totalTimeToAsk_div events 120 Hne) as [_ H120].
  set (avg := totalTimeToAsk events / of_nat (List.length events) / 1000) in *.
  destruct (ltb_spec avg 30) as [Hq | Hq].
  - left. apply H30 in Hq. split; [reflexivity | lra].
  - assert (Hq' : ~ totalTimeToAsk events
                    < 30 * 1000 * of_nat (List.length events))
      by (intros H; apply H30 in H; lra).
    destruct (ltb_spec 120 avg) as [Hr | Hr].
    + right. left. apply H120 in Hr. split; [reflexivity | lra].
    + assert (Hr' : ~ 120 * 1000 * of_nat (List.length events)
                      < totalTimeToAsk events)
        by (intros H; apply H120 in H; lra).
      right. right. split; [reflexivity | lra].
Qed.

(** X21. The help-seeking style of the final result, computed from the hint
    events: 'self-reliant' exactly when there are no events or the total time
    before asking exceeds 120 s per event; 'hint-dependent' exactly when
    there are events and the total is below 30 s per event. (With no events
    the analysis itself says balanced; the result does not.) *)
Theorem resultHelpSeekingStyle_spec (events : list HintEvent) :
  let n := of_nat (List.length events) in
  let style := resultHelpSeekingStyle (analyzeHintBehavior events) in
  (style = "self-reliant"%string
   <-> events = [] \/ 120000 * n < totalTimeToAsk events)
  /\ (style = "hint-dependent"%string
      <-> events <> [] /\ totalTimeToAsk events < 30000 * n)
  /\ (style = "balanced"%string
      <-> events <> []
          /\ 30000 * n <= totalTimeToAsk events <= 120000 * n).
Proof.
  cbv zeta. unfold resultHelpSeekingStyle.
  rewrite HintProps.analyze_totalHintsUsed.
  destruct events as [| e rest].
  - cbn [List.length Nat.ltb Nat.leb].
    conjs; split; try discriminate; try tauto; intros [H _]; congruence.
  - assert (Hne : e :: rest <> []) by discriminate.
    assert (Hpos : (0 <? List.length (e :: rest))%nat = true) by reflexivity.
    rewrite Hpos.
    pose proof (of_nat_nonneg (List.length (e :: rest))) as Hn.
    destruct (style_cases (e :: rest) Hne)
      as [[-> H] | [[-> H] | [-> H]]]; cbn [helpSeekingStyleMap];
      conjs; split;
      first [ discriminate
            | intros; reflexivity
            | intros; split; assumption
            | intros; right; assumption
            | intros [? | ?]; [congruence | lra]
            | intros [_ [? ?]]; lra
            | intros [_ ?]; lra ].
Qed.

Lemma resultHelpSeekingStyle_spec_witness :
  resultHelpSeekingStyle (analyzeHintBehavior []) = "self-reliant"%string.
Proof.
  apply (proj2 (proj1 (resultHelpSeekingStyle_spec []))).
  left. reflexivity.
Defined.

(** *** The question bank *)

Lemma index_In {A} (l : list A) (i : Z) (x : A) :
  index l i = Some x -> In x l.
Proof.
  unfold index. destruct (i <? 0)%Z; [discriminate |]. apply nth_error_In.
Qed.

Lemma random_pick {A} (l : list A) (random : Q) :
  l <> [] ->
  0 <= random < 1 ->
  exists x, index l (Qfloor (random * of_nat (List.length l))) = Some x.
Proof.
  intros Hne [H0 H1].
  assert (Hlen : (0 < List.length l)%nat)
    by (destruct l; [congruence | cbn; lia]).
  pose proof (of_nat_pos _ Hlen) as Hn.
  pose proof (Qfloor_le (random * of_nat (List.length l))) as Hle.
  assert (Hz0 : (0 <= Qfloor (random * of_nat (List.length l)))%Z).
  { change 0%Z with (Qfloor 0). apply Qfloor_resp_le.
    apply Qmult_le_0_compat; lra. }
  assert (Hzn : (Qfloor (random * of_nat (List.length l))
                 < Z.of_nat (List.length l))%Z).
  { rewrite Zlt_Qlt. fold (of_nat (List.length l)).
    apply Qle_lt_trans with (random * of_nat (List.length l)); [exact Hle |].
    apply Qlt_le_trans with (1 * of_nat (List.length l)).
    - apply Qmult_lt_r; assumption.
    - rewrite Qmult_1_l. apply Qle_refl. }
  remember (Qfloor (random * of_nat (List.length l))) as z eqn:Ez. clear Ez.
  unfold index. destruct (Z.ltb_spec z 0); [lia |].
  destruct (nth_error l (Z.to_nat z)) as [x |] eqn:E; [eauto |].
  apply nth_error_None in E. lia.
Qed.

Lemma includes_id_In (ids : list string) (id : string) :
  includes_id ids id = true <-> In id ids.
Proof.
  unfold includes_id. rewrite existsb_exists. split.
  - intros (x & Hin & E). apply String.eqb_eq in E. subst. exact Hin.
  - intros Hin. exists id. split; [exact Hin | apply String.eqb_refl].
Qed.

Lemma available_filter (questionBank : list BankQuestion) (dimension : string)
    (difficulty : Q) (excludeIds : list string) (q : BankQuestion) :
  In q
    (List.filter (fun q => negb (includes_id excludeIds (bank_id q)))
       (List.filter
          (fun q =>
             String.eqb (bank_dimension q) dimension
             && Qeq_bool (inject_Z (bank_difficulty q)) difficulty)
          questionBank))
  <-> available questionBank dimension difficulty excludeIds q.
Proof.
  unfold available. rewrite !filter_In, andb_true_iff, negb_true_iff.
  rewrite String.eqb_eq, Qeq_bool_iff, <- not_true_iff_false, includes_id_In.
  tauto.
Qed.

Lemma bank_lookup_sound (questionBank : list BankQuestion) (random : Q)
    (dimension : string) (difficulty : Q) (excludeIds : list string)
    (q : BankQuestion) :
  getQuestionByDimensionAndDifficulty questionBank random dimension difficulty
    excludeIds = Some q ->
  available questionBank dimension difficulty excludeIds q.
Proof.
  unfold getQuestionByDimensionAndDifficulty. intros H.
  apply available_filter.
  destruct (List.filter _ (List.filter _ questionBank)) as [| x l];
    [discriminate |].
  apply index_In in H. exact H.
Qed.

Lemma bank_lookup_complete (questionBank : list BankQuestion) (random : Q)
    (dimension : string) (difficulty : Q) (excludeIds : list string) :
  0 <= random < 1 ->
  getQuestionByDimensionAndDifficulty questionBank random dimension difficulty
    excludeIds = None ->
  forall q, ~ available questionBank dimension difficulty excludeIds q.
Proof.
  unfold getQuestionByDimensionAndDifficulty. intros Hr H q Hq.
  apply available_filter in Hq.
  destruct (List.filter _ (List.filter _ questionBank)) as [| x l] eqn:E;
    [exact Hq |].
  destruct (random_pick (x :: l) random ltac:(discriminate) Hr) as [y Hy].
  rewrite Hy in H. discriminate.
Qed.

Lemma bank_lookup_cases (questionBank : list BankQuestion) (random : Q)
    (dimension : string) (difficulty : Q) (excludeIds : list string) :
  0 <= random < 1 ->
  match
    getQuestionByDimensionAndDifficulty questionBank random dimension
      difficulty excludeIds
  with
  | Some q => available questionBank dimension difficulty excludeIds q
  | None =>
      forall q, ~ available questionBank dimension difficulty excludeIds q
  end.
Proof.
  intros Hr.
  destruct (getQuestionByDimensionAndDifficulty _ _ _ _ _) as [q |] eqn:E.
  - apply (bank_lookup_sound _ _ _ _ _ _ E).
  - apply (bank_lookup_complete _ _ _ _ _ Hr E).
Qed.

(** X22. The bank lookup returns only a question of the bank with the
    requested dimension and difficulty whose id is not excluded; with a
    random draw in [0,1) it returns null only when the bank holds no such
    question. *)
Theorem bank_lookup_spec (questionBank : list BankQuestion) (random : Q)
    (dimension : string) (difficulty : Q) (excludeIds : list string) :
  0 <= random < 1 ->
  match
    getQuestionByDimensionAndDifficulty questionBank random dimension
      difficulty excludeIds
  with
  | Some q => available questionBank dimension difficulty excludeIds q
  | None =>
      forall q, ~ available questionBank dimension difficulty excludeIds q
  end.
Proof. apply bank_lookup_cases. Qed.

Lemma bank_lookup_spec_witness :
  let questionBank :=
    [mkBankQuestion "q1" "hardware_io" 3 0;
     mkBankQuestion "q2" "hardware_io" 3 4;
     mkBankQuestion "q3" "low_level" 3 0] in
  match
    getQuestionByDimensionAndDifficulty questionBank 0.5 "hardware_io" 3
      ["q1"%string]
  with
  | Some q => available questionBank "hardware_io" 3 ["q1"%string] q
  | None =>
      forall q, ~ available questionBank "hardware_io" 3 ["q1"%string] q
  end.
Proof.
  intros questionBank.
  apply (bank_lookup_spec questionBank 0.5 "hardware_io" 3 ["q1"%string]).
  split; vm_compute; first [discriminate | reflexivity].
Defined.

Lemma askedIdsOf_In (askedQuestions : list string) (id : string) :
  In id (askedIdsOf askedQuestions) <-> In id askedQuestions /\ id <> ""%string.
Proof.
  unfold askedIdsOf. rewrite filter_In, negb_true_iff.
  rewrite <- not_true_iff_false, String.eqb_eq. tauto.
Qed.

(** X23. The search of the bank before a question is generated, with random
    draws in [0,1). A question it returns is a bank question of the requested
    dimension at one of the probed difficulties (the rounded difficulty, one
    below if the difficulty exceeds 1, one above if it is below 5), and its
    id, if not empty, is not among the asked ones. The exact difficulty is
    preferred: if the bank holds an unasked question there, the result is at
    that difficulty. It returns nothing only when the bank holds no unasked
    question at any probed difficulty. *)
Theorem findBankQuestion_spec (questionBank : list BankQuestion)
    (random1 random2 random3 : Q) (dimension : Dimension) (difficulty : Q)
    (askedQuestions : list string) :
  0 <= random1 < 1 -> 0 <= random2 < 1 -> 0 <= random3 < 1 ->
  let ok probe q :=
    available questionBank (mapDimensionToDb dimension) probe
      (askedIdsOf askedQuestions) q in
  let found :=
    findBankQuestion questionBank random1 random2 random3 dimension
      difficulty askedQuestions in
  match found with
  | Some q =>
      (exists probe, probed difficulty probe /\ ok probe q)
      /\ (bank_id q <> ""%string -> ~ In (bank_id q) askedQuestions)
      /\ ((exists q', ok (Math_round difficulty) q') ->
          ok (Math_round difficulty) q)
  | None => forall probe q, probed difficulty probe -> ~ ok probe q
  end.
Proof.
  intros Hr1 Hr2 Hr3 ok found. subst found. unfold findBankQuestion.
  fold (askedIdsOf askedQuestions).
  assert (Hasked : forall probe q,
             ok probe q ->
             bank_id q <> ""%string -> ~ In (bank_id q) askedQuestions).
  { intros probe q (_ & _ & _ & Hex) Hid Hin. apply Hex.
    apply askedIdsOf_In. split; assumption. }
  pose proof (bank_lookup_cases questionBank random1
                (mapDimensionToDb dimension) (Math_round difficulty)
                (askedIdsOf askedQuestions) Hr1) as H1.
  destruct (getQuestionByDimensionAndDifficulty questionBank random1 _ _ _)
    as [q1 |].
  { conjs.
    - exists (Math_round difficulty). split; [left; reflexivity | exact H1].
    - apply (Hasked _ _ H1).
    - intros _. exact H1. }
  pose proof (bank_lookup_cases questionBank random2
                (mapDimensionToDb dimension) (Math_round difficulty - 1)
                (askedIdsOf askedQuestions) Hr2) as H2.
  pose proof (bank_lookup_cases questionBank random3
                (mapDimensionToDb dimension) (Math_round difficulty + 1)
                (askedIdsOf askedQuestions) Hr3) as H3.
  destruct (ltb_spec 1 difficulty) as [Hlo | Hlo].
  - destruct (getQuestionByDimensionAndDifficulty questionBank random2 _ _ _)
      as [q2 |].
    { conjs.
      - exists (Math_round difficulty - 1).
        split; [right; left; split; [exact Hlo | reflexivity] | exact H2].
      - apply (Hasked _ _ H2).
      - intros [q' Hq']. exfalso. exact (H1 q' Hq'). }
    destruct (ltb_spec difficulty 5) as [Hhi | Hhi].
    + destruct (getQuestionByDimensionAndDifficulty questionBank random3 _ _ _)
        as [q3 |].
      { conjs.
        - exists (Math_round difficulty + 1).
          split; [right; right; split; [exact Hhi | reflexivity] | exact H3].
        - apply (Hasked _ _ H3).
        - intros [q' Hq']. exfalso. exact (H1 q' Hq'). }
      intros probe q [-> | [[_ ->] | [_ ->]]]; first [apply H1 | apply H2 | apply H3 | exfalso; lra].
    + intros probe q [-> | [[_ ->] | [Hlt _]]]; first [apply H1 | apply H2 | apply H3 | exfalso; lra].
  - destruct (ltb_spec difficulty 5) as [Hhi | Hhi].
    + destruct (getQuestionByDimensionAndDifficulty questionBank random3 _ _ _)
        as [q3 |].
      { conjs.
        - exists (Math_round difficulty + 1).
          split; [right; right; split; [exact Hhi | reflexivity] | exact H3].
        - apply (Hasked _ _ H3).
        - intros [q' Hq']. exfalso. exact (H1 q' Hq'). }
      intros probe q [-> | [[Hgt _] | [_ ->]]]; first [apply H1 | apply H2 | apply H3 | exfalso; lra].
    + intros probe q [-> | [[Hgt _] | [Hlt _]]]; first [apply H1 | apply H2 | apply H3 | exfalso; lra].
Qed.

Lemma findBankQuestion_spec_witness :
  let questionBank :=
    [mkBankQuestion "q1" "hardware_io" 3 0;
     mkBankQuestion "q2" "hardware_io" 2 4;
     mkBankQuestion "q3" "low_level" 3 0] in
  let asked := ["q1"%string] in
  let ok probe q :=
    available questionBank (mapDimensionToDb hardwareIO) probe
      (askedIdsOf asked) q in
  match findBankQuestion questionBank 0.5 0.5 0.5 hardwareIO 3 asked with
  | Some q =>
      (exists probe, probed 3 probe /\ ok probe q)
      /\ (bank_id q <> ""%string -> ~ In (bank_id q) asked)
      /\ ((exists q', ok (Math_round 3) q') -> ok (Math_round 3) q)
  | None => forall probe q, probed 3 probe -> ~ ok probe q
  end.
Proof.
  intros questionBank asked.
  apply (findBankQuestion_spec questionBank 0.5 0.5 0.5 hardwareIO 3 asked);
    split; vm_compute; first [discriminate | reflexivity].
Defined.

(** X25. A bank question found for a dimension carries the database name of
    that dimension, so [mapDbToDimension] hands it to the engine under the
    dimension that was asked for. *)
Theorem found_question_keeps_dimension (questionBank : list BankQuestion)
    (random1 random2 random3 : Q) (dimension : Dimension) (difficulty : Q)
    (askedQuestions : list string) (q : BankQuestion) :
  findBankQuestion questionBank random1 random2 random3 dimension difficulty
    askedQuestions = Some q ->
  In q questionBank
  /\ mapDbToDimension (bank_dimension q) = dimension.
Proof.
  unfold findBankQuestion. intros H.
  assert (Hav : exists probe,
             available questionBank (mapDimensionToDb dimension) probe
               (List.filter (fun id => negb (String.eqb id "")) askedQuestions)
               q).
  { destruct (getQuestionByDimensionAndDifficulty questionBank random1 _ _ _)
      as [q1 |] eqn:E1.
    - injection H as <-. eexists. apply (bank_lookup_sound _ _ _ _ _ _ E1).
    - destruct (1 <? difficulty).
      + destruct (getQuestionByDimensionAndDifficulty questionBank random2 _ _ _)
          as [q2 |] eqn:E2.
        * injection H as <-. eexists.
          apply (bank_lookup_sound _ _ _ _ _ _ E2).
        * destruct (difficulty <? 5); [| discriminate].
          eexists. apply (bank_lookup_sound _ _ _ _ _ _ H).
      + destruct (difficulty <? 5); [| discriminate].
        eexists. apply (bank_lookup_sound _ _ _ _ _ _ H). }
  destruct Hav as (probe & Hin & Hdim & _). split; [exact Hin |].
  rewrite Hdim. destruct dimension; reflexivity.
Qed.

Lemma found_question_keeps_dimension_witness :
  let questionBank :=
    [mkBankQuestion "q1" "hardware_io" 3 0;
     mkBankQuestion "q2" "hardware_io" 2 4;
     mkBankQuestion "q3" "low_level" 3 0] in
  let q := mkBankQuestion "q2" "hardware_io" 2 4 in
  In q questionBank /\ mapDbToDimension (bank_dimension q) = hardwareIO.
Proof.
  intros questionBank q.
  apply (found_question_keeps_dimension questionBank 0.5 0.5 0.5 hardwareIO 3
           ["q1"%string] q).
  vm_compute. reflexivity.
Defined.

End RouteProps.

(** * Properties of the object store *)

(** X24. [createStudentProfile] in the store, from any store: the new profile
    reads as the fresh profile value, its five DimensionStates are five
    different objects, the profile reference was not in use before, and every
    object of the old store is still there unchanged. *)
Theorem createStudentProfile_store_spec (st : Store) (sessionId : string)
    (studentName : option string) (now : Q) :
  let st' := fst (createStudentProfile_store st sessionId studentName now) in
  let profile :=
    snd (createStudentProfile_store st sessionId studentName now) in
  snapshot st' profile = Some (createStudentProfile sessionId studentName now)
  /\ separate_states st' profile
  /\ profiles st !! profile = None
  /\ (forall l s, states st !! l = Some s -> states st' !! l = Some s)
  /\ (forall l rec, records st !! l = Some rec -> records st' !! l = Some rec)
  /\ (forall l p, profiles st !! l = Some p -> profiles st' !! l = Some p).
Proof.
  unfold createStudentProfile_store, newState, newRecord, newProfile.
  cbn [fst snd states records profiles].
  set (m0 := states st).
  set (l1 := fresh (dom m0)). set (m1 := <[l1 := initialDimState]> m0).
  set (l2 := fresh (dom m1)). set (m2 := <[l2 := initialDimState]> m1).
  set (l3 := fresh (dom m2)). set (m3 := <[l3 := initialDimState]> m2).
  set (l4 := fresh (dom m3)). set (m4 := <[l4 := initialDimState]> m3).
  set (l5 := fresh (dom m4)). set (m5 := <[l5 := initialDimState]> m4).
  set (r := fresh (dom (records st))).
  set (p := fresh (dom (profiles st))).
  pose proof (is_fresh (dom m0)) as F1. fold l1 in F1.
  pose proof (is_fresh (dom m1)) as F2. fold l2 in F2.
  pose proof (is_fresh (dom m2)) as F3. fold l3 in F3.
  pose proof (is_fresh (dom m3)) as F4. fold l4 in F4.
  pose proof (is_fresh (dom m4)) as F5. fold l5 in F5.
  pose proof (is_fresh (dom (records st))) as Fr. fold r in Fr.
  pose proof (is_fresh (dom (profiles st))) as Fp. fold p in Fp.
  subst m1 m2 m3 m4. rewrite !dom_insert_L in F2, F3, F4, F5.
  assert (N12 : l1 <> l2) by set_solver. assert (N13 : l1 <> l3) by set_solver.
  assert (N14 : l1 <> l4) by set_solver. assert (N15 : l1 <> l5) by set_solver.
  assert (N23 : l2 <> l3) by set_solver. assert (N24 : l2 <> l4) by set_solver.
  assert (N25 : l2 <> l5) by set_solver. assert (N34 : l3 <> l4) by set_solver.
  assert (N35 : l3 <> l5) by set_solver. assert (N45 : l4 <> l5) by set_solver.
  clearbody l1 l2 l3 l4 l5 r p. subst m5.
  conjs.
  - unfold snapshot. cbn [profiles records states dimensions].
    rewrite lookup_insert_eq. cbn. rewrite lookup_insert_eq. cbn.
    repeat (rewrite ?lookup_insert_eq;
            rewrite ?lookup_insert_ne by congruence; cbn).
    reflexivity.
  - intros q rec Hq Hrec. cbn [profiles records] in Hq, Hrec.
    rewrite lookup_insert_eq in Hq. injection Hq as <-.
    cbn [dimensions] in Hrec. rewrite lookup_insert_eq in Hrec.
    injection Hrec as <-. cbn.
    rewrite !NoDup_cons, !not_elem_of_cons.
    conjs; try congruence; try apply not_elem_of_nil; apply NoDup_nil_2.
  - apply not_elem_of_dom. exact Fp.
  - intros l s Hl.
    assert (Hin : l ∈ dom m0) by (apply elem_of_dom; eauto).
    rewrite !lookup_insert_ne by (intros ->; set_solver). exact Hl.
  - intros l rec Hl.
    assert (Hin : l ∈ dom (records st)) by (apply elem_of_dom; eauto).
    rewrite lookup_insert_ne by (intros ->; set_solver). exact Hl.
  - intros l q Hl.
    assert (Hin : l ∈ dom (profiles st)) by (apply elem_of_dom; eauto).
    rewrite lookup_insert_ne by (intros ->; set_solver). exact Hl.
Qed.

Lemma createStudentProfile_store_spec_witness :
  let st := fst (createStudentProfile_store emptyStore "s1" None 0) in
  let st' := fst (createStudentProfile_store st "s2" None 0) in
  states st' !! 1%positive = Some initialDimState.
Proof.
  intros st st'.
  apply (proj1 (proj2 (proj2 (proj2
           (createStudentProfile_store_spec st "s2" None 0))))
           1%positive initialDimState).
  vm_compute. reflexivity.
Defined.

(** * Exploration makes progress *)

Lemma tested_after_update (profile : StudentProfile)
    (response : QuestionResponse) (dim : Dimension) :
  tested (get (dimensions (updateBounds profile response)) dim)
  = if Dimension_eq_dec dim (dimension response) then true
    else tested (get (dimensions profile) dim).
Proof.
  destruct (Dimension_eq_dec dim (dimension response)) as [-> | Hne].
  - rewrite updateBounds_target. apply updateDimState_counters.
  - rewrite updateBounds_other by assumption. reflexivity.
Qed.

(** X26. While some dimension is untested, answering the question that
    [selectNextQuestion] asked for (a response in the selected dimension)
    marks that dimension tested and leaves one untested dimension less; the
    others keep their [tested] flag. *)
Theorem exploration_progress (random : Q) (profile : StudentProfile)
    (sel : Selection) (response : QuestionResponse) :
  untestedDimensions profile <> [] ->
  selectNextQuestion random profile = Some sel ->
  dimension response = sel_dimension sel ->
  tested (get (dimensions profile) (sel_dimension sel)) = false
  /\ tested (get (dimensions (updateBounds profile response))
               (sel_dimension sel)) = true
  /\ S (List.length (untestedDimensions (updateBounds profile response)))
     = List.length (untestedDimensions profile).
Proof.
  intros Hne Hsel Hdim.
  assert (Hun : tested (get (dimensions profile) (sel_dimension sel)) = false).
  { unfold selectNextQuestion in Hsel. fold (untestedDimensions profile) in Hsel.
    pose proof
      (filter_head (fun dim => negb (tested (get (dimensions profile) dim)))
         DIMENSIONS) as Hhead.
    fold (untestedDimensions profile) in Hhead.
    destruct (untestedDimensions profile) as [| targetDim rest];
      [congruence |].
    injection Hsel as <-. cbn [sel_dimension].
    destruct Hhead as (_ & _ & _ & Hx & _). apply negb_true_iff, Hx. }
  conjs.
  - exact Hun.
  - rewrite <- Hdim, updateBounds_target. apply updateDimState_counters.
  - rewrite <- Hdim in Hun. clear Hsel Hne Hdim.
    unfold untestedDimensions, DIMENSIONS. cbn [List.filter].
    rewrite !tested_after_update.
    destruct (dimension response);
      repeat match goal with
        | |- context [Dimension_eq_dec ?a ?b] =>
            destruct (Dimension_eq_dec a b); try congruence
        end;
      cbn [get] in Hun; cbn [get]; rewrite ?Hun; cbn [negb];
      repeat match goal with
        | |- context [tested ?x] => destruct (tested x)
        end; reflexivity.
Qed.

Lemma exploration_progress_witness :
  let profile := createStudentProfile "s1" None 0 in
  let sel := mkSelection lowLevelBinary 3 bank "multipleChoice" in
  let response := mkQuestionResponse lowLevelBinary 3 false false 1000 0 in
  tested (get (dimensions profile) lowLevelBinary) = false
  /\ tested (get (dimensions (updateBounds profile response))
               lowLevelBinary) = true
  /\ S (List.length (untestedDimensions (updateBounds profile response)))
     = List.length (untestedDimensions profile).
Proof.
  intros profile sel response.
  apply (exploration_progress 0 profile sel response).
  - discriminate.
  - reflexivity.
  - reflexivity.
Defined.
